(** * Connector: the serial-port connection manager of entry-hw

    A shallow embedding of [app/src/main/connector.ts].  The class
    [Connector] is a JavaScript object driven by a single-threaded event
    loop: method calls, stream events and timer callbacks run one at a time
    and each runs to completion.  The embedding therefore is

    - a record [State] holding the fields of the [Connector] instance
      together with the part of the runtime the class talks to (the timer
      table, the promises it created, the pending write/drain/close
      callbacks and a log of the calls made to collaborators);
    - one Rocq function per method, listener closure and timer closure of
      the source;
    - a function [step] that runs one turn of the event loop, so that a list
      of events is one interleaving of calls and callbacks.

    Collaborators (the hardware module's hooks, the router, the serial port
    driver and the stream parsers) are external to this file: a call to one
    of them is recorded in [log] and, for a hook, its return value is read
    from the [HardwareModule] record.  What lies behind them is not
    modelled:

    - time is not measured: a timer fires when the event [TimerFires] says
      so, and its delay is kept in the timer table;
    - a frame is what the parser emits, or the port when there is no parser;
      how the stream library moves bytes from the port into the parser
      through the pipes set up with [pipe] is not described;
    - a hook is a value or a function of the frame, and does not change the
      connector it is handed. *)

From Stdlib Require Import ZArith String List Bool Lia.
From stdpp Require Import base list.
Import ListNotations.
Open Scope string_scope.
Open Scope list_scope.

(** ** JavaScript values *)

(** What a hook such as [checkInitialData] may return ([any] in the source). *)
Inductive JsVal :=
| JUndefined
| JNull
| JBool (b : bool)
| JNum (z : Z)
| JStr (s : string).

(** [v === undefined] and [v === true]. *)
Definition is_undefined (v : JsVal) : bool :=
  match v with JUndefined => true | _ => false end.

Definition is_true (v : JsVal) : bool :=
  match v with JBool true => true | _ => false end.

(** A frame handed to a ['data'] listener. *)
Definition Frame := string.

(** What is handed to [send]: nothing ([undefined]/[null]), a string, or a
    byte array / [Buffer]. *)
Inductive Payload :=
| PAbsent
| PText (s : string)
| PBytes (l : list Z).

(** JavaScript truthiness: the empty string is falsy, every object (so every
    array and every [Buffer], also an empty one) is truthy. *)
Definition truthy (d : Payload) : bool :=
  match d with
  | PAbsent => false
  | PText s => negb (String.eqb s "")
  | PBytes _ => true
  end.

(** The reading of "non-empty payload" in the specification. *)
Definition non_empty (d : Payload) : bool :=
  match d with
  | PAbsent => false
  | PText s => negb (String.eqb s "")
  | PBytes l => negb (Nat.eqb (length l) 0)
  end.

Definition truthy_num (o : option Z) : bool :=
  match o with Some z => negb (Z.eqb z 0) | None => false end.

Definition truthy_str (o : option string) : bool :=
  match o with Some s => negb (String.eqb s "") | None => false end.

Definition is_some {A} (o : option A) : bool :=
  match o with Some _ => true | None => false end.

(** [control === 'master'] *)
Definition is_master (control : option string) : bool :=
  match control with Some s => String.eqb s "master" | None => false end.

(** [Buffer.from(data, 'utf8')] *)
Definition utf8 (s : string) : list Z :=
  map (fun b => Z.of_N (Byte.to_N b)) (list_byte_of_string s).

Definition Buffer_from (d : Payload) : Payload :=
  match d with
  | PText s => PBytes (utf8 s)
  | other => other
  end.

(** ** Configuration and the hardware module *)

Record SerialPortOptions := {
  autoOpen : option bool;
  baudRate : option Z;
  parity : option string;
  dataBits : option Z;
  stopBits : option Z;
  rtscts : option bool;
  xon : option bool;
  xoff : option bool;
  flowControl : option string;
}.

(** [HardwareConfig]: a field is [None] when the property is not given. *)
Record HardwareConfig := {
  control : option string;
  duration : option Z;
  firmwarecheck : bool;
  cfg_lostTimer : option Z;
  advertise : option Z;
  softwareReset : bool;
  stream : option string;
  delimiter : option string;
  byteDelimiter : option (list Z);
  serial : SerialPortOptions;
}.

(** [HardwareModule]: every hook is optional.  A hook whose result the class
    uses carries that result; a hook called for its effect is a flag. *)
Record HardwareModule := {
  checkInitialData : option (Frame -> JsVal);
  requestInitialData : option Payload;
  validateLocalData : option (Frame -> bool);
  handleLocalData : bool;
  requestLocalData : option Payload;
  getProperty : option Payload;
  resetProperty : option Payload;
  setSerialPort : bool;
  hw_connect : bool;
  afterConnect : bool;
  lostController : bool;
  eventController : bool;
}.

Inductive Router := TheRouter.

(** ** Event emitters: the serial port and its parser *)

Inductive EventName := ev_data | ev_error | ev_open | ev_disconnect.

Definition EventName_eqb (a b : EventName) : bool :=
  match a, b with
  | ev_data, ev_data | ev_error, ev_error
  | ev_open, ev_open | ev_disconnect, ev_disconnect => true
  | _, _ => false
  end.

(** The closures the class registers with [on].  A closure created inside
    [open] or [initialize] remembers the promise it settles. *)
Inductive Listener :=
| OpenReject (pid : nat)        (* open: serialPort.on('error', reject) *)
| OpenOpened (pid : nat)        (* open: serialPort.on('open', ...) *)
| MasterData (pid : nat)        (* initialize / runAsMaster *)
| SlaveData (pid : nat)         (* initialize / runAsSlave *)
| SteadyData                    (* connect: serialPortReadStream.on('data', ...) *)
| Disconnected.                 (* connect: serialPort.on('disconnect', ...) *)

Definition Emitter := list (EventName * Listener).

Definition on (ev : EventName) (l : Listener) (e : Emitter) : Emitter :=
  e ++ [(ev, l)].

(** [removeAllListeners(ev)] and [removeAllListeners()] *)
Definition removeAllListeners (ev : EventName) (e : Emitter) : Emitter :=
  List.filter (fun p => negb (EventName_eqb (fst p) ev)) e.

Definition removeEveryListener (e : Emitter) : Emitter := [].

(** The listeners [emit(ev, ...)] calls, in registration order. *)
Definition listenersOf (ev : EventName) (e : Emitter) : list Listener :=
  map snd (List.filter (fun p => EventName_eqb (fst p) ev) e).

Inductive ParserKind :=
| Readline (delim : string)
| Delimiter (delim : list Z) (includeDelimiter : bool).

Record Parser := {
  kind : ParserKind;
  parser_listeners : Emitter;
}.

Record SerialPort := {
  isOpen : bool;
  listeners : Emitter;
  parser : option Parser;
}.

(** [this.serialPort].  The port object outlives the reference: listeners
    created in [initialize] and [connect] keep the object they captured
    after [close] has reset [this.serialPort] to [undefined]. *)
Inductive PortRef :=
| NoPort                        (* open() not called yet *)
| Held (p : SerialPort)         (* this.serialPort is the port *)
| Dropped (p : SerialPort).     (* this.serialPort = undefined, object still captured *)

(** ** Timers, promises, pending I/O *)

Inductive TimerCallback :=
| FlashDeadline (pid : nat)     (* initialize: setTimeout(..., 3000) *)
| SlavePoll                     (* runAsSlave: setInterval(..., duration) *)
| DtrRestore                    (* connect: setTimeout(..., 1000) *)
| LostTick                      (* connect: setInterval(..., this.lostTimer) *)
| LocalPoll                     (* connect: setInterval(..., duration) *)
| Advertise.                    (* connect: setInterval(..., advertise) *)

Record Timer := {
  callback : TimerCallback;
  delay : Z;
  periodic : bool;               (* setInterval rather than setTimeout *)
  active : bool;
}.

Inductive JsError :=
| PlainError (msg : string)       (* new Error(msg) *)
| JsTypeError (msg : string).     (* a TypeError raised by the runtime *)

Inductive PState :=
| Pending
| Resolved
| Rejected (e : JsError).

(** A write whose callback has not run yet, or a drain likewise; the flag
    says whether [send] was given a completion callback. *)
Inductive IoOp :=
| WritePending (cb : bool)
| DrainPending (cb : bool).

(** Calls made to the collaborators, newest first. *)
Inductive Effect :=
| NewSerialPort (path : string) (o : SerialPortOptions)
| Pipe (k : ParserKind)
| PortWrite (d : Payload)
| PortDrain
| PortSet (dtr : bool)
| PortClose
| HwCheckInitialData (d : Frame)
| HwRequestInitialData
| HwSetSerialPort
| HwResetProperty
| HwConnect
| HwAfterConnect
| HwLostController
| HwEventController (state : string)
| HwHandleLocalData (d : Frame)
| HwRequestLocalData
| HwGetProperty
| RouterSendState (state : string)
| RouterSetHandlerData
| RouterSendEncodedDataToServer
| SendCallback
| Thrown (e : JsError).          (* an exception left the turn *)

(** ** The connector and its runtime *)

Record State := {
  options : HardwareConfig;
  hwModule : HardwareModule;
  router : option Router;
  serialPort : PortRef;
  connected : bool;
  received : bool;
  lostTimer : Z;
  isSending : bool;
  executeFlash : bool;
  flashFirmware : option nat;
  slaveTimer : option nat;
  connectionLostTimer : option nat;
  requestLocalDataInterval : option nat;
  advertiseInterval : option nat;
  timers : list Timer;
  handshakes : list PState;      (* promises returned by initialize() *)
  opens : list PState;           (* promises returned by open() *)
  inflight : list IoOp;
  closing : nat;                 (* close() calls whose callback is due *)
  log : list Effect;
}.

Definition set_router (v : option Router) (st : State) : State :=
  {| options := options st; hwModule := hwModule st; router := v;
     serialPort := serialPort st; connected := connected st;
     received := received st; lostTimer := lostTimer st;
     isSending := isSending st; executeFlash := executeFlash st;
     flashFirmware := flashFirmware st; slaveTimer := slaveTimer st;
     connectionLostTimer := connectionLostTimer st;
     requestLocalDataInterval := requestLocalDataInterval st;
     advertiseInterval := advertiseInterval st; timers := timers st;
     handshakes := handshakes st; opens := opens st; inflight := inflight st;
     closing := closing st; log := log st |}.

Definition set_serialPort (v : PortRef) (st : State) : State :=
  {| options := options st; hwModule := hwModule st; router := router st;
     serialPort := v; connected := connected st; received := received st;
     lostTimer := lostTimer st; isSending := isSending st;
     executeFlash := executeFlash st; flashFirmware := flashFirmware st;
     slaveTimer := slaveTimer st;
     connectionLostTimer := connectionLostTimer st;
     requestLocalDataInterval := requestLocalDataInterval st;
     advertiseInterval := advertiseInterval st; timers := timers st;
     handshakes := handshakes st; opens := opens st; inflight := inflight st;
     closing := closing st; log := log st |}.

Definition set_connected (v : bool) (st : State) : State :=
  {| options := options st; hwModule := hwModule st; router := router st;
     serialPort := serialPort st; connected := v; received := received st;
     lostTimer := lostTimer st; isSending := isSending st;
     executeFlash := executeFlash st; flashFirmware := flashFirmware st;
     slaveTimer := slaveTimer st;
     connectionLostTimer := connectionLostTimer st;
     requestLocalDataInterval := requestLocalDataInterval st;
     advertiseInterval := advertiseInterval st; timers := timers st;
     handshakes := handshakes st; opens := opens st; inflight := inflight st;
     closing := closing st; log := log st |}.

Definition set_received (v : bool) (st : State) : State :=
  {| options := options st; hwModule := hwModule st; router := router st;
     serialPort := serialPort st; connected := connected st; received := v;
     lostTimer := lostTimer st; isSending := isSending st;
     executeFlash := executeFlash st; flashFirmware := flashFirmware st;
     slaveTimer := slaveTimer st;
     connectionLostTimer := connectionLostTimer st;
     requestLocalDataInterval := requestLocalDataInterval st;
     advertiseInterval := advertiseInterval st; timers := timers st;
     handshakes := handshakes st; opens := opens st; inflight := inflight st;
     closing := closing st; log := log st |}.

Definition set_lostTimer (v : Z) (st : State) : State :=
  {| options := options st; hwModule := hwModule st; router := router st;
     serialPort := serialPort st; connected := connected st;
     received := received st; lostTimer := v; isSending := isSending st;
     executeFlash := executeFlash st; flashFirmware := flashFirmware st;
     slaveTimer := slaveTimer st;
     connectionLostTimer := connectionLostTimer st;
     requestLocalDataInterval := requestLocalDataInterval st;
     advertiseInterval := advertiseInterval st; timers := timers st;
     handshakes := handshakes st; opens := opens st; inflight := inflight st;
     closing := closing st; log := log st |}.

Definition set_isSending (v : bool) (st : State) : State :=
  {| options := options st; hwModule := hwModule st; router := router st;
     serialPort := serialPort st; connected := connected st;
     received := received st; lostTimer := lostTimer st; isSending := v;
     executeFlash := executeFlash st; flashFirmware := flashFirmware st;
     slaveTimer := slaveTimer st;
     connectionLostTimer := connectionLostTimer st;
     requestLocalDataInterval := requestLocalDataInterval st;
     advertiseInterval := advertiseInterval st; timers := timers st;
     handshakes := handshakes st; opens := opens st; inflight := inflight st;
     closing := closing st; log := log st |}.

Definition set_executeFlash (v : bool) (st : State) : State :=
  {| options := options st; hwModule := hwModule st; router := router st;
     serialPort := serialPort st; connected := connected st;
     received := received st; lostTimer := lostTimer st;
     isSending := isSending st; executeFlash := v;
     flashFirmware := flashFirmware st; slaveTimer := slaveTimer st;
     connectionLostTimer := connectionLostTimer st;
     requestLocalDataInterval := requestLocalDataInterval st;
     advertiseInterval := advertiseInterval st; timers := timers st;
     handshakes := handshakes st; opens := opens st; inflight := inflight st;
     closing := closing st; log := log st |}.

Definition set_flashFirmware (v : option nat) (st : State) : State :=
  {| options := options st; hwModule := hwModule st; router := router st;
     serialPort := serialPort st; connected := connected st;
     received := received st; lostTimer := lostTimer st;
     isSending := isSending st; executeFlash := executeFlash st;
     flashFirmware := v; slaveTimer := slaveTimer st;
     connectionLostTimer := connectionLostTimer st;
     requestLocalDataInterval := requestLocalDataInterval st;
     advertiseInterval := advertiseInterval st; timers := timers st;
     handshakes := handshakes st; opens := opens st; inflight := inflight st;
     closing := closing st; log := log st |}.

Definition set_slaveTimer (v : option nat) (st : State) : State :=
  {| options := options st; hwModule := hwModule st; router := router st;
     serialPort := serialPort st; connected := connected st;
     received := received st; lostTimer := lostTimer st;
     isSending := isSending st; executeFlash := executeFlash st;
     flashFirmware := flashFirmware st; slaveTimer := v;
     connectionLostTimer := connectionLostTimer st;
     requestLocalDataInterval := requestLocalDataInterval st;
     advertiseInterval := advertiseInterval st; timers := timers st;
     handshakes := handshakes st; opens := opens st; inflight := inflight st;
     closing := closing st; log := log st |}.

Definition set_connectionLostTimer (v : option nat) (st : State) : State :=
  {| options := options st; hwModule := hwModule st; router := router st;
     serialPort := serialPort st; connected := connected st;
     received := received st; lostTimer := lostTimer st;
     isSending := isSending st; executeFlash := executeFlash st;
     flashFirmware := flashFirmware st; slaveTimer := slaveTimer st;
     connectionLostTimer := v;
     requestLocalDataInterval := requestLocalDataInterval st;
     advertiseInterval := advertiseInterval st; timers := timers st;
     handshakes := handshakes st; opens := opens st; inflight := inflight st;
     closing := closing st; log := log st |}.

Definition set_requestLocalDataInterval (v : option nat) (st : State) : State :=
  {| options := options st; hwModule := hwModule st; router := router st;
     serialPort := serialPort st; connected := connected st;
     received := received st; lostTimer := lostTimer st;
     isSending := isSending st; executeFlash := executeFlash st;
     flashFirmware := flashFirmware st; slaveTimer := slaveTimer st;
     connectionLostTimer := connectionLostTimer st;
     requestLocalDataInterval := v;
     advertiseInterval := advertiseInterval st; timers := timers st;
     handshakes := handshakes st; opens := opens st; inflight := inflight st;
     closing := closing st; log := log st |}.

Definition set_advertiseInterval (v : option nat) (st : State) : State :=
  {| options := options st; hwModule := hwModule st; router := router st;
     serialPort := serialPort st; connected := connected st;
     received := received st; lostTimer := lostTimer st;
     isSending := isSending st; executeFlash := executeFlash st;
     flashFirmware := flashFirmware st; slaveTimer := slaveTimer st;
     connectionLostTimer := connectionLostTimer st;
     requestLocalDataInterval := requestLocalDataInterval st;
     advertiseInterval := v; timers := timers st;
     handshakes := handshakes st; opens := opens st; inflight := inflight st;
     closing := closing st; log := log st |}.

Definition set_timers (v : list Timer) (st : State) : State :=
  {| options := options st; hwModule := hwModule st; router := router st;
     serialPort := serialPort st; connected := connected st;
     received := received st; lostTimer := lostTimer st;
     isSending := isSending st; executeFlash := executeFlash st;
     flashFirmware := flashFirmware st; slaveTimer := slaveTimer st;
     connectionLostTimer := connectionLostTimer st;
     requestLocalDataInterval := requestLocalDataInterval st;
     advertiseInterval := advertiseInterval st; timers := v;
     handshakes := handshakes st; opens := opens st; inflight := inflight st;
     closing := closing st; log := log st |}.

Definition set_handshakes (v : list PState) (st : State) : State :=
  {| options := options st; hwModule := hwModule st; router := router st;
     serialPort := serialPort st; connected := connected st;
     received := received st; lostTimer := lostTimer st;
     isSending := isSending st; executeFlash := executeFlash st;
     flashFirmware := flashFirmware st; slaveTimer := slaveTimer st;
     connectionLostTimer := connectionLostTimer st;
     requestLocalDataInterval := requestLocalDataInterval st;
     advertiseInterval := advertiseInterval st; timers := timers st;
     handshakes := v; opens := opens st; inflight := inflight st;
     closing := closing st; log := log st |}.

Definition set_opens (v : list PState) (st : State) : State :=
  {| options := options st; hwModule := hwModule st; router := router st;
     serialPort := serialPort st; connected := connected st;
     received := received st; lostTimer := lostTimer st;
     isSending := isSending st; executeFlash := executeFlash st;
     flashFirmware := flashFirmware st; slaveTimer := slaveTimer st;
     connectionLostTimer := connectionLostTimer st;
     requestLocalDataInterval := requestLocalDataInterval st;
     advertiseInterval := advertiseInterval st; timers := timers st;
     handshakes := handshakes st; opens := v; inflight := inflight st;
     closing := closing st; log := log st |}.

Definition set_inflight (v : list IoOp) (st : State) : State :=
  {| options := options st; hwModule := hwModule st; router := router st;
     serialPort := serialPort st; connected := connected st;
     received := received st; lostTimer := lostTimer st;
     isSending := isSending st; executeFlash := executeFlash st;
     flashFirmware := flashFirmware st; slaveTimer := slaveTimer st;
     connectionLostTimer := connectionLostTimer st;
     requestLocalDataInterval := requestLocalDataInterval st;
     advertiseInterval := advertiseInterval st; timers := timers st;
     handshakes := handshakes st; opens := opens st; inflight := v;
     closing := closing st; log := log st |}.

Definition set_closing (v : nat) (st : State) : State :=
  {| options := options st; hwModule := hwModule st; router := router st;
     serialPort := serialPort st; connected := connected st;
     received := received st; lostTimer := lostTimer st;
     isSending := isSending st; executeFlash := executeFlash st;
     flashFirmware := flashFirmware st; slaveTimer := slaveTimer st;
     connectionLostTimer := connectionLostTimer st;
     requestLocalDataInterval := requestLocalDataInterval st;
     advertiseInterval := advertiseInterval st; timers := timers st;
     handshakes := handshakes st; opens := opens st; inflight := inflight st;
     closing := v; log := log st |}.

Definition set_log (v : list Effect) (st : State) : State :=
  {| options := options st; hwModule := hwModule st; router := router st;
     serialPort := serialPort st; connected := connected st;
     received := received st; lostTimer := lostTimer st;
     isSending := isSending st; executeFlash := executeFlash st;
     flashFirmware := flashFirmware st; slaveTimer := slaveTimer st;
     connectionLostTimer := connectionLostTimer st;
     requestLocalDataInterval := requestLocalDataInterval st;
     advertiseInterval := advertiseInterval st; timers := timers st;
     handshakes := handshakes st; opens := opens st; inflight := inflight st;
     closing := closing st; log := v |}.


(** ** Small runtime operations *)

Definition effect (e : Effect) (st : State) : State :=
  set_log (e :: log st) st.

(** [setTimeout] / [setInterval]: the handle is the index of the new entry
    of the timer table. *)
Definition setTimer (cb : TimerCallback) (ms : Z) (every : bool) (st : State)
  : nat * State :=
  (length (timers st),
   set_timers (timers st ++
     [{| callback := cb; delay := ms; periodic := every; active := true |}]) st).

Definition setTimeout (cb : TimerCallback) (ms : Z) := setTimer cb ms false.
Definition setInterval (cb : TimerCallback) (ms : Z) := setTimer cb ms true.

Definition deactivate (t : Timer) : Timer :=
  {| callback := callback t; delay := delay t; periodic := periodic t;
     active := false |}.

(** [clearTimeout(h)] / [clearInterval(h)] *)
Definition clearTimer (h : nat) (st : State) : State :=
  set_timers (alter deactivate h (timers st)) st.

(** [h && clearTimeout(h)] *)
Definition clearIfSet (h : option nat) (st : State) : State :=
  match h with Some h => clearTimer h st | None => st end.

(** A promise is settled once: later [resolve]/[reject] calls do nothing. *)
Definition settle (s : PState) (pid : nat) (l : list PState) : list PState :=
  match l !! pid with
  | Some Pending => <[pid := s]> l
  | _ => l
  end.

Definition resolveHandshake (pid : nat) (st : State) : State :=
  set_handshakes (settle Resolved pid (handshakes st)) st.

Definition rejectHandshake (pid : nat) (e : JsError) (st : State) : State :=
  set_handshakes (settle (Rejected e) pid (handshakes st)) st.

Definition resolveOpen (pid : nat) (st : State) : State :=
  set_opens (settle Resolved pid (opens st)) st.

Definition rejectOpen (pid : nat) (e : JsError) (st : State) : State :=
  set_opens (settle (Rejected e) pid (opens st)) st.

(** *** The port object *)

Definition portObject (r : PortRef) : option SerialPort :=
  match r with
  | NoPort => None
  | Held p | Dropped p => Some p
  end.

Definition mapPort (f : SerialPort -> SerialPort) (r : PortRef) : PortRef :=
  match r with
  | NoPort => NoPort
  | Held p => Held (f p)
  | Dropped p => Dropped (f p)
  end.

(** Mutate the port object, whoever references it. *)
Definition updatePort (f : SerialPort -> SerialPort) (st : State) : State :=
  set_serialPort (mapPort f (serialPort st)) st.

(** Mutate the port through [this.serialPort], when it is set. *)
Definition updateHeld (f : SerialPort -> SerialPort) (st : State) : State :=
  match serialPort st with
  | Held p => set_serialPort (Held (f p)) st
  | _ => st
  end.

Definition onPort (f : Emitter -> Emitter) (p : SerialPort) : SerialPort :=
  {| isOpen := isOpen p; listeners := f (listeners p); parser := parser p |}.

Definition onParser (f : Emitter -> Emitter) (p : SerialPort) : SerialPort :=
  {| isOpen := isOpen p; listeners := listeners p;
     parser := match parser p with
               | Some ps => Some {| kind := kind ps;
                                    parser_listeners := f (parser_listeners ps) |}
               | None => None
               end |}.

(** [serialPort.parser ? serialPort.parser : serialPort] *)
Definition onReadStream (f : Emitter -> Emitter) (p : SerialPort) : SerialPort :=
  match parser p with
  | Some _ => onParser f p
  | None => onPort f p
  end.

Definition setOpen (b : bool) (p : SerialPort) : SerialPort :=
  {| isOpen := b; listeners := listeners p; parser := parser p |}.

Definition portListeners (ev : EventName) (r : PortRef) : list Listener :=
  match portObject r with
  | Some p => listenersOf ev (listeners p)
  | None => []
  end.

Definition parserListeners (ev : EventName) (r : PortRef) : list Listener :=
  match portObject r with
  | Some p => match parser p with
              | Some ps => listenersOf ev (parser_listeners ps)
              | None => []
              end
  | None => []
  end.

(** *** Results of code that may throw *)

Inductive Outcome :=
| Returned (st : State)
| Threw (e : JsError) (st : State).   (* the state at the throw *)

Definition andThen (o : Outcome) (k : State -> Outcome) : Outcome :=
  match o with
  | Returned st => k st
  | Threw e st => Threw e st
  end.

Notation "'do' st <- o ; k" := (andThen o (fun st => k))
  (at level 10, st name, o at level 100, k at level 200).

(** The state an outcome leaves behind; an exception that leaves the turn
    is recorded. *)
Definition settled (o : Outcome) : State :=
  match o with
  | Returned st => st
  | Threw e st => effect (Thrown e) st
  end.

(** ** The class *)

Definition DEFAULT_CONNECT_LOST_MILLS : Z := 1000.
Definition DEFAULT_SLAVE_DURATION : Z := 1000.

(** [constructor(hwModule, hardwareOptions)] *)
Definition new (hw : HardwareModule) (hardwareOptions : HardwareConfig) : State :=
  {| options := hardwareOptions; hwModule := hw; router := None;
     serialPort := NoPort; connected := false; received := false;
     lostTimer := DEFAULT_CONNECT_LOST_MILLS; isSending := false;
     executeFlash := false; flashFirmware := None; slaveTimer := None;
     connectionLostTimer := None; requestLocalDataInterval := None;
     advertiseInterval := None; timers := []; handshakes := []; opens := [];
     inflight := []; closing := 0; log := [] |}.

Definition setRouter (r : Router) (st : State) : State :=
  set_router (Some r) st.

(** [Object.assign(target, source)]: every property the source has wins. *)
Definition pick {A} (target source : option A) : option A :=
  match source with Some v => Some v | None => target end.

Definition assign (t s : SerialPortOptions) : SerialPortOptions :=
  {| autoOpen := pick (autoOpen t) (autoOpen s);
     baudRate := pick (baudRate t) (baudRate s);
     parity := pick (parity t) (parity s);
     dataBits := pick (dataBits t) (dataBits s);
     stopBits := pick (stopBits t) (stopBits s);
     rtscts := pick (rtscts t) (rtscts s);
     xon := pick (xon t) (xon s);
     xoff := pick (xoff t) (xoff s);
     flowControl := pick (flowControl t) (flowControl s) |}.

Definition flow_is (name : string) (o : SerialPortOptions) : bool :=
  match flowControl o with Some s => String.eqb s name | None => false end.

Definition _makeSerialPortOptions (serialPortOptions : SerialPortOptions)
  : SerialPortOptions :=
  let hardware := flow_is "hardware" serialPortOptions in
  let software := negb hardware && flow_is "software" serialPortOptions in
  let _options :=
    {| autoOpen := Some true; baudRate := Some 9600%Z; parity := Some "none";
       dataBits := Some 8%Z; stopBits := Some 1%Z;
       rtscts := if hardware then Some true else None;
       xon := if software then Some true else None;
       xoff := if software then Some true else None;
       flowControl := None |} in
  assign _options serialPortOptions.

(** [a || b] on an optional number. *)
Definition or_default (a : option Z) (b : Z) : Z :=
  match a with
  | Some z => if Z.eqb z 0 then b else z
  | None => b
  end.

(** [const { duration = d } = options] *)
Definition with_default (a : option Z) (d : Z) : Z :=
  match a with Some z => z | None => d end.

(** The parser [open] builds from [delimiter] / [byteDelimiter]. *)
Definition makeParser (o : HardwareConfig) : option Parser :=
  if truthy_str (delimiter o) then
    match delimiter o with
    | Some s => Some {| kind := Readline s; parser_listeners := [] |}
    | None => None
    end
  else
    match byteDelimiter o with
    | Some bs => Some {| kind := Delimiter bs true; parser_listeners := [] |}
    | None => None
    end.

(** [serialPort.parser = serialPort.pipe(new Readline(...))] and the like. *)
Definition logPipe (ps : option Parser) (st : State) : State :=
  match ps with
  | Some p => effect (Pipe (kind p)) st
  | None => st
  end.

(** [open(port)]: the synchronous part.  The promise is settled later by the
    port's ['open'] or ['error'] event. *)
Definition open (port : string) (st : State) : State :=
  let pid := length (opens st) in
  let st := set_opens (opens st ++ [Pending]) st in
  let hardwareOptions := options st in
  let st := set_lostTimer
              (or_default (cfg_lostTimer hardwareOptions)
                          DEFAULT_CONNECT_LOST_MILLS) st in
  let st := effect (NewSerialPort port
                      (_makeSerialPortOptions (serial hardwareOptions))) st in
  let st := logPipe (makeParser hardwareOptions) st in
  set_serialPort
    (Held {| isOpen := false;
             listeners := on ev_open (OpenOpened pid)
                            (on ev_error (OpenReject pid) []);
             parser := makeParser hardwareOptions |}) st.

(** Two shapes that recur in the methods: a guarded statement
    [if (c) { ... }] and a call to an optional hook that is made for its
    effect only, [hook && hook()]. *)
Definition when (c : bool) (f : State -> State) (st : State) : State :=
  if c then f st else st.

Definition callHook (present : bool) (e : Effect) : State -> State :=
  when present (effect e).

Definition pushIo (op : IoOp) (st : State) : State :=
  set_inflight (inflight st ++ [op]) st.

(** [this.options.stream === 'string'] *)
Definition is_string_stream (o : HardwareConfig) : bool :=
  match stream o with Some s => String.eqb s "string" | None => false end.

(** The condition of [send]:
    [this.serialPort && this.serialPort.isOpen && data && !this.isSending]. *)
Definition may_send (d : Payload) (st : State) : bool :=
  match serialPort st with
  | Held p => isOpen p && truthy d && negb (isSending st)
  | _ => false
  end.

Definition encode (o : HardwareConfig) (d : Payload) : Payload :=
  if is_string_stream o then Buffer_from d else d.

(** [send(data, callback)] *)
Definition send (d : Payload) (cb : bool) (st : State) : State :=
  if may_send d st then
    let st := set_isSending true st in
    let st := effect (PortWrite (encode (options st) d)) st in
    pushIo (WritePending cb) st
  else st.

(** The callback given to [serialPort.write]. *)
Definition onWritten (cb : bool) (st : State) : State :=
  match serialPort st with
  | Held _ => pushIo (DrainPending cb) (effect PortDrain st)
  | _ => st
  end.

(** The callback given to [serialPort.drain]. *)
Definition onDrained (cb : bool) (st : State) : State :=
  callHook cb SendCallback (set_isSending false st).

(** [_sendState(state)] *)
Definition _sendState (state : string) (st : State) : Outcome :=
  let st := callHook (eventController (hwModule st))
                     (HwEventController state) st in
  match router st with
  | Some _ => Returned (effect (RouterSendState state) st)
  | None =>
      Threw (JsTypeError "Cannot read property 'sendState' of undefined") st
  end.

(** [if (this.t) { clearInterval(this.t); this.t = undefined; }] *)
Definition cancel (get : State -> option nat)
    (set : option nat -> State -> State) (st : State) : State :=
  match get st with
  | Some h => set None (clearTimer h st)
  | None => st
  end.

(** [if (this.serialPort) { removeAllListeners() on it and on its parser }] *)
Definition detachAll (st : State) : State :=
  updateHeld (fun p => onParser removeEveryListener
                         (onPort removeEveryListener p)) st.

(** [clear()] *)
Definition clear (st : State) : State :=
  let st := set_connected false st in
  let st := cancel connectionLostTimer set_connectionLostTimer st in
  let st := cancel requestLocalDataInterval set_requestLocalDataInterval st in
  let st := cancel advertiseInterval set_advertiseInterval st in
  let st := detachAll st in
  cancel flashFirmware set_flashFirmware st.

(** [if (this.serialPort && this.serialPort.isOpen) this.serialPort.close(...)].
    The driver reports [isOpen] false from the moment [close] is called. *)
Definition closePort (st : State) : State :=
  match serialPort st with
  | Held p =>
      if isOpen p then
        let st := effect PortClose st in
        let st := updateHeld (setOpen false) st in
        set_closing (S (closing st)) st
      else st
  | _ => st
  end.

(** [close()] *)
Definition close (st : State) : State := closePort (clear st).

(** The callback given to [serialPort.close]: [this.serialPort = undefined]. *)
Definition onClosed (st : State) : State :=
  match serialPort st with
  | Held p => set_serialPort (Dropped p) st
  | _ => st
  end.

(** *** initialize() *)

(** [this.send(hwModule.requestInitialData(...))]: the hook is present
    whenever a handshake closure exists. *)
Definition callRequestInitialData (st : State) : Outcome :=
  match requestInitialData (hwModule st) with
  | Some d => Returned (send d false (effect HwRequestInitialData st))
  | None =>
      Threw (JsTypeError "hwModule.requestInitialData is not a function") st
  end.

(** [this.serialPort && this.serialPort.removeAllListeners('data')] *)
Definition detachHeldData (st : State) : State :=
  updateHeld (onPort (removeAllListeners ev_data)) st.

(** [if (hwModule.resetProperty) this.send(hwModule.resetProperty())] *)
Definition sendResetProperty (st : State) : State :=
  match resetProperty (hwModule st) with
  | Some r => send r false (effect HwResetProperty st)
  | None => st
  end.

(** The end of a handshake listener: [resolve()] after the success hooks, or
    [reject(new Error('Invalid hardware'))]. *)
Definition masterVerdict (pid : nat) (result : JsVal) (st : State) : State :=
  if is_true result then
    resolveHandshake pid
      (callHook (setSerialPort (hwModule st)) HwSetSerialPort st)
  else rejectHandshake pid (PlainError "Invalid hardware") st.

Definition slaveVerdict (pid : nat) (result : JsVal) (st : State) : State :=
  if is_true result then
    resolveHandshake pid
      (sendResetProperty
         (callHook (setSerialPort (hwModule st)) HwSetSerialPort st))
  else rejectHandshake pid (PlainError "Invalid hardware") st.

(** The ['data'] listener of [runAsMaster]; [serialPort] and
    [serialPortReadStream] are the objects captured by the closure. *)
Definition runAsMaster_onData (pid : nat) (d : Frame) (st : State) : Outcome :=
  match checkInitialData (hwModule st) with
  | None => Threw (JsTypeError "hwModule.checkInitialData is not a function") st
  | Some check =>
      let st := effect (HwCheckInitialData d) st in
      let result := check d in
      if is_undefined result then callRequestInitialData st
      else
        let st := updatePort (onPort (removeAllListeners ev_data)) st in
        let st := updatePort (onReadStream (removeAllListeners ev_data)) st in
        let st := clearIfSet (flashFirmware st) st in
        Returned (masterVerdict pid result st)
  end.

(** The ['data'] listener of [runAsSlave]. *)
Definition runAsSlave_onData (pid : nat) (d : Frame) (st : State) : Outcome :=
  match checkInitialData (hwModule st) with
  | None => Threw (JsTypeError "hwModule.checkInitialData is not a function") st
  | Some check =>
      let st := effect (HwCheckInitialData d) st in
      let result := check d in
      if negb (is_undefined result) then
        let st := detachHeldData st in
        let st := updatePort (onReadStream (removeAllListeners ev_data)) st in
        let st := clearIfSet (flashFirmware st) st in
        let st := clearIfSet (slaveTimer st) st in
        Returned (slaveVerdict pid result st)
      else Returned st
  end.

(** The callback of the [slaveTimer] interval. *)
Definition slaveTimer_tick (st : State) : Outcome :=
  callRequestInitialData st.

(** [if (this.serialPort) { detach the read stream's 'data' listeners;
    this.executeFlash = true; }] *)
Definition requestFlash (st : State) : State :=
  match serialPort st with
  | Held _ =>
      set_executeFlash true
        (updateHeld (onReadStream (removeAllListeners ev_data)) st)
  | _ => st
  end.

(** The callback of the [flashFirmware] timeout. *)
Definition flashFirmware_fire (pid : nat) (st : State) : State :=
  resolveHandshake pid (requestFlash st).

(** [this.flashFirmware = setTimeout(..., 3000)] *)
Definition armFlashFirmware (pid : nat) (st : State) : State :=
  let '(h, st) := setTimeout (FlashDeadline pid) 3000 st in
  set_flashFirmware (Some h) st.

Definition runAsMaster (pid : nat) (st : State) : State :=
  updatePort (onReadStream (on ev_data (MasterData pid))) st.

Definition runAsSlave (pid : nat) (duration : Z) (st : State) : State :=
  let st := updatePort (onReadStream (on ev_data (SlaveData pid))) st in
  let '(h, st) := setInterval SlavePoll duration st in
  set_slaveTimer (Some h) st.

(** [hwModule.checkInitialData && hwModule.requestInitialData] *)
Definition has_handshake (hw : HardwareModule) : bool :=
  is_some (checkInitialData hw) && is_some (requestInitialData hw).

(** The choice [initialize] makes once the deadline is armed. *)
Definition startHandshake (pid : nat) (st : State) : State :=
  if has_handshake (hwModule st) then
    if is_master (control (options st)) then runAsMaster pid st
    else runAsSlave pid (with_default (duration (options st))
                                      DEFAULT_SLAVE_DURATION) st
  else resolveHandshake pid st.

(** [initialize()]: the body of the promise executor.  An exception thrown
    by the executor ([this.serialPort] is [undefined]) rejects the promise. *)
Definition initialize (st : State) : State :=
  let pid := length (handshakes st) in
  let st := set_handshakes (handshakes st ++ [Pending]) st in
  match serialPort st with
  | Held _ =>
      startHandshake pid
        (when (firmwarecheck (options st)) (armFlashFirmware pid) st)
  | _ =>
      rejectHandshake pid
        (JsTypeError "Cannot read property 'parser' of undefined") st
  end.

(** *** connect() *)

(** [const data = hook(); data && this.send(data)] for an optional hook. *)
Definition sendIfAny (call : Effect) (hook : option Payload) (st : State)
  : State :=
  match hook with
  | Some d => when (truthy d) (send d false) (effect call st)
  | None => st
  end.

(** A frame the steady-state listener takes:
    [!hwModule.validateLocalData || hwModule.validateLocalData(data)]. *)
Definition accepted (hw : HardwareModule) (d : Frame) : bool :=
  match validateLocalData hw with
  | Some validate => validate d
  | None => true
  end.

(** [if (!this.connected) { this.connected = true; this._sendState('connected') }] *)
Definition markConnected (st : State) : Outcome :=
  if negb (connected st) then _sendState "connected" (set_connected true st)
  else Returned st.

(** What the steady-state listener does with an accepted frame once the
    state is [connected]. *)
Definition forwardFrame (d : Frame) (st : State) : State :=
  let st := set_received true st in
  let st := callHook (handleLocalData (hwModule st)) (HwHandleLocalData d) st in
  let st := effect RouterSetHandlerData st in
  let st := effect RouterSendEncodedDataToServer st in
  when (is_master (control (options st)))
       (sendIfAny HwRequestLocalData (requestLocalData (hwModule st))) st.

(** The steady-state ['data'] listener. *)
Definition connect_onData (d : Frame) (st : State) : Outcome :=
  if accepted (hwModule st) d then
    do st <- markConnected st; Returned (forwardFrame d st)
  else Returned st.

(** The ['disconnect'] listener. *)
Definition connect_onDisconnect (st : State) : Outcome :=
  _sendState "disconnected" (close st).

(** [if (!this.received) { this.connected = false; this._sendState('lost') }] *)
Definition declareLost (st : State) : Outcome :=
  if negb (received st) then _sendState "lost" (set_connected false st)
  else Returned st.

(** The callback of the [connectionLostTimer] interval. *)
Definition connectionLostTimer_tick (st : State) : Outcome :=
  if connected st then
    do st <- declareLost st; Returned (set_received false st)
  else Returned st.

(** The callback of the [requestLocalDataInterval] interval. *)
Definition requestLocalDataInterval_tick (st : State) : State :=
  let st := sendIfAny HwRequestLocalData (requestLocalData (hwModule st)) st in
  sendIfAny HwGetProperty (getProperty (hwModule st)) st.

(** The callback of the [advertiseInterval] interval. *)
Definition advertiseInterval_tick (st : State) : State :=
  effect RouterSendEncodedDataToServer st.

(** [serialPort.set({ dtr: false }); setTimeout(..., 1000)] *)
Definition resetBySoftware (st : State) : State :=
  snd (setTimeout DtrRestore 1000 (effect (PortSet false) st)).

(** [serialPort.parser ? serialPort.pipe(serialPort.parser) : serialPort] *)
Definition pipeParser (st : State) : State :=
  match portObject (serialPort st) with
  | Some p => match parser p with
              | Some ps => effect (Pipe (kind ps)) st
              | None => st
              end
  | None => st
  end.

(** Loss detection: left to the module, or [this.connectionLostTimer]. *)
Definition armLossDetection (st : State) : State :=
  if lostController (hwModule st) then effect HwLostController st
  else
    let '(h, st) := setInterval LostTick (lostTimer st) st in
    set_connectionLostTimer (Some h) st.

(** [if (duration && control !== 'master') this.requestLocalDataInterval = ...] *)
Definition armLocalPoll (st : State) : State :=
  let duration := with_default (duration (options st))
                               DEFAULT_SLAVE_DURATION in
  if negb (Z.eqb duration 0) && negb (is_master (control (options st))) then
    let '(h, st) := setInterval LocalPoll duration st in
    set_requestLocalDataInterval (Some h) st
  else st.

(** [if (advertise) this.advertiseInterval = setInterval(..., advertise)] *)
Definition armAdvertise (st : State) : State :=
  match advertise (options st) with
  | Some ms =>
      if Z.eqb ms 0 then st
      else
        let '(h, st) := setInterval Advertise ms st in
        set_advertiseInterval (Some h) st
  | None => st
  end.

(** [connect()] after the [connect] state has been announced. *)
Definition connect_wire (st : State) : State :=
  let st := when (softwareReset (options st)) resetBySoftware st in
  let st := callHook (afterConnect (hwModule st)) HwAfterConnect st in
  let st := pipeParser st in
  let st := updatePort (onReadStream (on ev_data SteadyData)) st in
  let st := updatePort (onPort (on ev_disconnect Disconnected)) st in
  let st := armLossDetection st in
  let st := armLocalPoll st in
  armAdvertise st.

(** [connect()] *)
Definition connect (st : State) : Outcome :=
  match router st with
  | None => Threw (PlainError "router must be set") st
  | Some _ =>
      match serialPort st with
      | Held _ =>
          let st := set_connected false st in
          let st := set_received true st in
          let st := callHook (hw_connect (hwModule st)) HwConnect st in
          do st <- _sendState "connect" st;
          Returned (connect_wire st)
      | _ => Threw (PlainError "serialPort must be open") st
      end
  end.

(** ** The event loop *)

(** What an emitter emits. *)
Inductive Emitted :=
| EmData (d : Frame)
| EmError (e : JsError)
| EmOpen (err : option JsError)
| EmDisconnect.

Definition eventOf (em : Emitted) : EventName :=
  match em with
  | EmData _ => ev_data
  | EmError _ => ev_error
  | EmOpen _ => ev_open
  | EmDisconnect => ev_disconnect
  end.

(** The ['open'] listener of [open]. *)
Definition open_onOpen (pid : nat) (err : option JsError) (st : State) : State :=
  let st := updatePort (onPort (removeAllListeners ev_open)) st in
  match err with
  | Some e => rejectOpen pid e st
  | None => resolveOpen pid st
  end.

Definition runListener (l : Listener) (em : Emitted) (st : State) : Outcome :=
  match l, em with
  | OpenReject pid, EmError e => Returned (rejectOpen pid e st)
  | OpenOpened pid, EmOpen err => Returned (open_onOpen pid err st)
  | MasterData pid, EmData d => runAsMaster_onData pid d st
  | SlaveData pid, EmData d => runAsSlave_onData pid d st
  | SteadyData, EmData d => connect_onData d st
  | Disconnected, EmDisconnect => connect_onDisconnect st
  | _, _ => Returned st
  end.

(** [emit]: the listeners registered when the event is emitted are called in
    order; an exception ends the round. *)
Fixpoint emit (ls : list Listener) (em : Emitted) (st : State) : Outcome :=
  match ls with
  | [] => Returned st
  | l :: rest => do st <- runListener l em st; emit rest em st
  end.

Definition runTimer (cb : TimerCallback) (st : State) : Outcome :=
  match cb with
  | FlashDeadline pid => Returned (flashFirmware_fire pid st)
  | SlavePoll => slaveTimer_tick st
  | DtrRestore => Returned (effect (PortSet true) st)
  | LostTick => connectionLostTimer_tick st
  | LocalPoll => Returned (requestLocalDataInterval_tick st)
  | Advertise => Returned (advertiseInterval_tick st)
  end.

(** One turn of the event loop: a method called by the host, or a callback
    run by the runtime. *)
Inductive Event :=
| CallSetRouter
| CallOpen (port : string)
| CallInitialize
| CallConnect
| CallClear
| CallClose
| CallSend (d : Payload) (cb : bool)
| PortEmits (em : Emitted)       (* the serial port emits an event *)
| ParserEmits (d : Frame)        (* the parser emits a frame *)
| TimerFires (h : nat)
| WriteCallback
| DrainCallback
| CloseCallback.

(** A timeout fires once; an interval stays armed. *)
Definition fire (h : nat) (st : State) : Outcome :=
  match timers st !! h with
  | Some t =>
      if active t then
        runTimer (callback t) (when (negb (periodic t)) (clearTimer h) st)
      else Returned st
  | None => Returned st
  end.

(** The port reports [isOpen] once it emits ['open'] without an error. *)
Definition noteOpen (em : Emitted) (st : State) : State :=
  match em with
  | EmOpen None => updatePort (setOpen true) st
  | _ => st
  end.

Definition portEmits (em : Emitted) (st : State) : Outcome :=
  let st := noteOpen em st in
  emit (portListeners (eventOf em) (serialPort st)) em st.

Definition parserEmits (d : Frame) (st : State) : Outcome :=
  emit (parserListeners ev_data (serialPort st)) (EmData d) st.

Definition writeCallback (st : State) : State :=
  match inflight st with
  | WritePending cb :: rest => onWritten cb (set_inflight rest st)
  | _ => st
  end.

Definition drainCallback (st : State) : State :=
  match inflight st with
  | DrainPending cb :: rest => onDrained cb (set_inflight rest st)
  | _ => st
  end.

Definition closeCallback (st : State) : State :=
  match closing st with
  | S n => onClosed (set_closing n st)
  | O => st
  end.

Definition run_event (ev : Event) (st : State) : Outcome :=
  match ev with
  | CallSetRouter => Returned (setRouter TheRouter st)
  | CallOpen port => Returned (open port st)
  | CallInitialize => Returned (initialize st)
  | CallConnect => connect st
  | CallClear => Returned (clear st)
  | CallClose => Returned (close st)
  | CallSend d cb => Returned (send d cb st)
  | PortEmits em => portEmits em st
  | ParserEmits d => parserEmits d st
  | TimerFires h => fire h st
  | WriteCallback => Returned (writeCallback st)
  | DrainCallback => Returned (drainCallback st)
  | CloseCallback => Returned (closeCallback st)
  end.

Definition step (st : State) (ev : Event) : State := settled (run_event ev st).

Definition run (st : State) (evs : list Event) : State := fold_left step evs st.

(** The states a connector can be in: those the event loop reaches from a
    freshly constructed instance. *)
Definition reachable (st : State) : Prop :=
  exists hw cfg evs, st = run (new hw cfg) evs.

(** ** Concrete modules and configurations used to run the model *)

(** A module with the two handshake hooks: the peer answers "ok", "no", or
    something the module cannot judge yet. *)
Definition handshakeModule : HardwareModule :=
  {| checkInitialData :=
       Some (fun d => if String.eqb d "ok" then JBool true
                      else if String.eqb d "no" then JBool false
                      else JUndefined);
     requestInitialData := Some (PBytes [1%Z]);
     validateLocalData := None; handleLocalData := false;
     requestLocalData := None; getProperty := None; resetProperty := None;
     setSerialPort := false; hw_connect := false; afterConnect := false;
     lostController := false; eventController := false |}.

(** A module with no hook at all. *)
Definition bareModule : HardwareModule :=
  {| checkInitialData := None; requestInitialData := None;
     validateLocalData := None; handleLocalData := false;
     requestLocalData := None; getProperty := None; resetProperty := None;
     setSerialPort := false; hw_connect := false; afterConnect := false;
     lostController := false; eventController := false |}.

(** Only [requestInitialData] is present. *)
Definition halfModule : HardwareModule :=
  {| checkInitialData := None; requestInitialData := Some (PBytes [1%Z]);
     validateLocalData := None; handleLocalData := false;
     requestLocalData := None; getProperty := None; resetProperty := None;
     setSerialPort := false; hw_connect := false; afterConnect := false;
     lostController := false; eventController := false |}.

Definition noSerialOptions : SerialPortOptions :=
  {| autoOpen := None; baudRate := None; parity := None; dataBits := None;
     stopBits := None; rtscts := None; xon := None; xoff := None;
     flowControl := None |}.

(** [{}]: every option left out (so the role is slave). *)
Definition plainConfig : HardwareConfig :=
  {| control := None; duration := None; firmwarecheck := false;
     cfg_lostTimer := None; advertise := None; softwareReset := false;
     stream := None; delimiter := None; byteDelimiter := None;
     serial := noSerialOptions |}.

(** [{ firmwarecheck: true }] *)
Definition firmwareConfig : HardwareConfig :=
  {| control := None; duration := None; firmwarecheck := true;
     cfg_lostTimer := None; advertise := None; softwareReset := false;
     stream := None; delimiter := None; byteDelimiter := None;
     serial := noSerialOptions |}.

(** [{ control: 'master' }] *)
Definition masterConfig : HardwareConfig :=
  {| control := Some "master"; duration := None; firmwarecheck := false;
     cfg_lostTimer := None; advertise := None; softwareReset := false;
     stream := None; delimiter := None; byteDelimiter := None;
     serial := noSerialOptions |}.

(** [{ lostTimer: 0, baudRate: 0 }] *)
Definition zeroConfig : HardwareConfig :=
  {| control := None; duration := None; firmwarecheck := false;
     cfg_lostTimer := Some 0%Z; advertise := None; softwareReset := false;
     stream := None; delimiter := None; byteDelimiter := None;
     serial := {| autoOpen := None; baudRate := Some 0%Z; parity := None;
                  dataBits := None; stopBits := None; rtscts := None;
                  xon := None; xoff := None; flowControl := None |} |}.

(** A connector whose port has been opened, before [initialize]. *)
Definition opened (hw : HardwareModule) (cfg : HardwareConfig) : State :=
  run (new hw cfg) [CallOpen "COM3"; PortEmits (EmOpen None)].

(** The transport exists and is open: [this.serialPort && this.serialPort.isOpen]. *)
Definition transport_open (st : State) : bool :=
  match serialPort st with
  | Held p => isOpen p
  | _ => false
  end.

(** The transport object is held: [this.serialPort] is set. *)
Definition transport_held (st : State) : bool :=
  match serialPort st with
  | Held _ => true
  | _ => false
  end.


(** A master handshake waiting for its first frame. *)
Definition awaiting : State :=
  initialize (opened handshakeModule masterConfig).

(** A connected link on which one loss window has passed since the last
    frame. *)
Definition silenced : State :=
  run (new bareModule plainConfig)
    [CallSetRouter; CallOpen "COM3"; PortEmits (EmOpen None); CallConnect;
     PortEmits (EmData "x"); TimerFires 0].

(** A module that polls in steady state with both [requestLocalData] and
    [getProperty]. *)
Definition pollingModule : HardwareModule :=
  {| checkInitialData := None; requestInitialData := None;
     validateLocalData := None; handleLocalData := true;
     requestLocalData := Some (PBytes [2%Z]);
     getProperty := Some (PBytes [3%Z]); resetProperty := None;
     setSerialPort := false; hw_connect := false; afterConnect := false;
     lostController := false; eventController := false |}.

(** A connector with a router whose port is open, before [connect]. *)
Definition routed (hw : HardwareModule) (cfg : HardwareConfig) : State :=
  run (new hw cfg) [CallSetRouter; CallOpen "COM3"; PortEmits (EmOpen None)].

(** ** Views of the state and the invariants stated on them *)

(** The state an outcome ends in, thrown or not. *)
Definition final (o : Outcome) : State :=
  match o with
  | Returned st => st
  | Threw _ st => st
  end.

(** The send gate: the flag and the pending write or drain. *)
Definition gate (st : State) : bool * list IoOp := (isSending st, inflight st).

(** At most one write or drain is pending, and only while [isSending]. *)
Definition gate_ok (st : State) : Prop :=
  (isSending st = false -> inflight st = []) /\ length (inflight st) <= 1.

(** The flag is up. *)
Definition sending (st : State) : Prop := isSending st = true.

(** The handshake a ['data'] listener belongs to. *)
Definition handshake_of (l : Listener) : option nat :=
  match l with
  | MasterData pid | SlaveData pid => Some pid
  | _ => None
  end.

(** The ['data'] listeners on the port object, on its parser, and all. *)
Definition portData (p : SerialPort) : list Listener :=
  listenersOf ev_data (listeners p).

Definition parserData (p : SerialPort) : list Listener :=
  match parser p with
  | Some ps => listenersOf ev_data (parser_listeners ps)
  | None => []
  end.

Definition dataOf (p : SerialPort) : list Listener := portData p ++ parserData p.

(** With a parser, the ['data'] listeners are on the parser. *)
Definition framed (p : SerialPort) : Prop :=
  is_some (parser p) = true -> portData p = [].

(** A change to the port object that adds no ['data'] listener but the
    steady-state one and keeps the ['data'] listeners where they belong. *)
Definition tame (f : SerialPort -> SerialPort) : Prop :=
  forall p,
    (framed p -> framed (f p)) /\
    (forall l, In l (dataOf (f p)) -> In l (dataOf p) \/ l = SteadyData).

(** The closures that listen to ['data']. *)
Definition data_listener (l : Listener) : bool :=
  match l with
  | MasterData _ | SlaveData _ | SteadyData => true
  | _ => false
  end.

(** What the wiring invariant looks at. *)
Definition wiring (st : State) : PortRef * list PState :=
  (serialPort st, handshakes st).

(** The ['data'] listeners are on the read stream and are the closures of
    [initialize] and [connect]; on a held port every handshake listener
    belongs to a handshake that is still pending. *)
Definition wiring_ok (st : State) : Prop :=
  (forall p, portObject (serialPort st) = Some p ->
     framed p /\ forall l, In l (dataOf p) -> data_listener l = true) /\
  (forall p, serialPort st = Held p ->
     forall l pid, In l (dataOf p) -> handshake_of l = Some pid ->
                   handshakes st !! pid = Some Pending).

(** A change to an emitter that adds no ['data'] listener. *)
Definition shrinks (g : Emitter -> Emitter) : Prop :=
  forall e l, In l (listenersOf ev_data (g e)) -> In l (listenersOf ev_data e).


(** The timer table knows handle [h] as a timer that calls [cb]. *)
Definition known_timer (h : nat) (cb : TimerCallback) (st : State) : Prop :=
  exists t, timers st !! h = Some t /\ callback t = cb.

(** The listeners are gone from a held port and from its parser. *)
Definition detached (st : State) : Prop :=
  forall p, serialPort st = Held p ->
    listeners p = [] /\
    forall ps, parser p = Some ps -> parser_listeners ps = [].

(** *** Loss detection *)

(** A [lost] state handed to the router. *)
Definition is_lost (e : Effect) : bool :=
  match e with
  | RouterSendState s => String.eqb s "lost"
  | _ => false
  end.

Definition lost_emissions (st : State) : nat :=
  length (List.filter is_lost (log st)).

Definition is_steady (l : Listener) : bool :=
  match l with SteadyData => true | _ => false end.

(** The event hands a frame to the steady-state listener, which takes it. *)
Definition accepts (st : State) (ev : Event) : bool :=
  match ev with
  | PortEmits (EmData d) =>
      existsb is_steady (portListeners ev_data (serialPort st)) &&
      accepted (hwModule st) d
  | ParserEmits d =>
      existsb is_steady (parserListeners ev_data (serialPort st)) &&
      accepted (hwModule st) d
  | _ => false
  end.

(** A run in which no frame is accepted. *)
Fixpoint silent (st : State) (evs : list Event) : Prop :=
  match evs with
  | [] => True
  | ev :: rest => accepts st ev = false /\ silent (step st ev) rest
  end.

(** What loss detection looks at. *)
Definition link (st : State) : HardwareModule * bool * nat :=
  (hwModule st, connected st, lost_emissions st).

(** Not connected, with [n] losses reported so far. *)
Definition unlinked (hw : HardwareModule) (n : nat) (st : State) : Prop :=
  hwModule st = hw /\ connected st = false /\ lost_emissions st = n.

(** The module and the timer table. *)
Definition clockwork (st : State) : HardwareModule * list Timer :=
  (hwModule st, timers st).

(** A module with [lostController] has no loss timer. *)
Definition delegated (st : State) : Prop :=
  lostController (hwModule st) = true ->
  forall h t, timers st !! h = Some t -> callback t <> LostTick.

(** The timer table holds [t] under handle [h]. *)
Definition has_timer (h : nat) (t : Timer) (st : State) : Prop :=
  timers st !! h = Some t.

(** The collaborator call [e] has been made. *)
Definition called (e : Effect) (st : State) : Prop := In e (log st).





(** *** Views used by the further properties *)

(** The timer with handle [h], if there is one, is not armed. *)
Definition stopped (h : nat) (st : State) : Prop :=
  forall t, timers st !! h = Some t -> active t = false.

(** The send gate is jammed: the flag is up and no write or drain is pending
    whose callback could lower it. *)
Definition jammed (st : State) : Prop :=
  isSending st = true /\ inflight st = [].

(** *** Listeners, by what they are registered for *)


(** Every registration on the port object and on its parser satisfies [Q]. *)
Definition registered (Q : EventName * Listener -> Prop) (p : SerialPort)
  : Prop :=
  Forall Q (listeners p) /\
  forall ps, parser p = Some ps -> Forall Q (parser_listeners ps).

Definition every_listener (Q : EventName * Listener -> Prop) (r : PortRef)
  : Prop :=
  forall p, portObject r = Some p -> registered Q p.

(** Changes to an emitter, and to the port object, that keep [Q]. *)
Definition keeps (Q : EventName * Listener -> Prop) (g : Emitter -> Emitter)
  : Prop :=
  forall e, Forall Q e -> Forall Q (g e).

Definition gentle (Q : EventName * Listener -> Prop)
    (f : SerialPort -> SerialPort) : Prop :=
  forall p, registered Q p -> registered Q (f p).



(** The closures that call [_sendState], and those that call the handshake
    hooks. *)
Definition needs_router (l : Listener) : bool :=
  match l with SteadyData | Disconnected => true | _ => false end.

Definition needs_handshake (l : Listener) : bool :=
  match l with MasterData _ | SlaveData _ => true | _ => false end.

Definition no_router_call (el : EventName * Listener) : Prop :=
  needs_router (snd el) = false.

Definition no_handshake_call (el : EventName * Listener) : Prop :=
  needs_handshake (snd el) = false.

(** Without a router nothing is registered or armed that reports a state. *)
Definition unrouted (st : State) : Prop :=
  router st = None ->
  every_listener no_router_call (serialPort st) /\
  forall h t, timers st !! h = Some t -> callback t <> LostTick.

(** Without the two handshake hooks nothing is registered or armed that
    calls them. *)
Definition unshaken (st : State) : Prop :=
  has_handshake (hwModule st) = false ->
  every_listener no_handshake_call (serialPort st) /\
  forall h t, timers st !! h = Some t -> callback t <> SlavePoll.

(** The code ran to its end. *)
Definition returns (o : Outcome) : Prop :=
  match o with
  | Returned _ => True
  | Threw _ _ => False
  end.

(** What the router and module invariants look at. *)
Definition staff (st : State)
  : option Router * HardwareModule * PortRef * list Timer :=
  (router st, hwModule st, serialPort st, timers st).

(** The closures that settle the promise [pid] of [open]. *)
Definition settles_open (pid : nat) (l : Listener) : bool :=
  match l with
  | OpenReject p | OpenOpened p => Nat.eqb p pid
  | _ => false
  end.

Definition not_for_open (pid : nat) (el : EventName * Listener) : Prop :=
  settles_open pid (snd el) = false.

(** The promise [pid] of [open] is pending and no listener is left that
    would settle it. *)
Definition orphaned (pid : nat) (st : State) : Prop :=
  opens st !! pid = Some Pending /\
  every_listener (not_for_open pid) (serialPort st).

(** What [orphaned] looks at. *)
Definition doorway (st : State) : PortRef * list PState :=
  (serialPort st, opens st).







(** The timer handles the connector keeps, and the size of the timer
    table. *)
Definition handles (st : State)
  : option nat * option nat * option nat * option nat * option nat * nat :=
  (flashFirmware st, slaveTimer st, connectionLostTimer st,
   requestLocalDataInterval st, advertiseInterval st, length (timers st)).

Definition kept (h : nat) (st : State) : Prop :=
  flashFirmware st = Some h \/ slaveTimer st = Some h \/
  connectionLostTimer st = Some h \/ requestLocalDataInterval st = Some h \/
  advertiseInterval st = Some h.

(** Every handle the connector keeps is a handle of the timer table. *)
Definition ranged (st : State) : Prop :=
  forall h, kept h st -> h < length (timers st).

(** * Properties *)

(** ** Proof steps shared by the invariants *)

Lemma final_andThen (P : State -> Prop) (o : Outcome) (k : State -> Outcome) :
  P (final o) -> (forall st, P st -> P (final (k st))) ->
  P (final (andThen o k)).
Proof. destruct o; simpl; auto. Qed.

Lemma when_pres (P : State -> Prop) (c : bool) (f : State -> State) st :
  (forall s, P s -> P (f s)) -> P st -> P (when c f st).
Proof. destruct c; simpl; auto. Qed.

Ltac head_of t :=
  lazymatch t with
  | ?f _ => head_of f
  | _ => t
  end.

(** Expose the next statement of a method body. *)
Ltac expose :=
  cbv beta zeta iota delta [setInterval setTimeout setTimer fst snd].

(** [same]: a goal [v (T) = v s], where [T] is what a method makes of the
    state [s] and [v] is a view the method does not write to.  The method is
    followed statement by statement; each statement is dealt with once,
    whatever the branches taken before it. *)
Ltac same :=
  expose;
  lazymatch goal with
  | |- ?v ?s = ?v ?s => reflexivity
  | |- ?v (final (Returned ?t)) = _ =>
      change (final (Returned t)) with t; same
  | |- ?v (final (Threw ?e ?t)) = _ =>
      change (final (Threw e t)) with t; same
  | |- ?v (final (andThen ?o ?k)) = ?v ?s =>
      apply (final_andThen (fun x => v x = v s) o k);
      [ same
      | let x := fresh "s" in
        let H := fresh in
        intros x H; rewrite <- H; clear H; same ]
  | |- ?v (final (match ?c with _ => _ end)) = _ => destruct c; same
  | |- ?v (match ?c with _ => _ end) = _ => destruct c; same
  | |- ?v (final (?g ?t)) = ?v ?s =>
      transitivity (v t); [ same_call | same ]
  | |- ?v (?g ?t) = ?v ?s =>
      transitivity (v t); [ same_call | same ]
  end
with same_call :=
  lazymatch goal with
  | |- ?v (final (?g ?t)) = _ =>
      let x := fresh "s" in
      generalize t; intros x;
      lazymatch goal with
      | |- _ (final (?g' _)) = _ =>
          let h := head_of g' in unfold h; same
      end
  | |- ?v (?g ?t) = _ =>
      let x := fresh "s" in
      generalize t; intros x;
      first
        [ reflexivity
        | lazymatch goal with
          | |- _ (?g' _) = _ => let h := head_of g' in unfold h; same
          end ]
  end.

(** [walk frame known]: a goal [P T], with [P s] among the hypotheses.
    [known] applies the lemmas about the statements that matter for [P];
    [frame] says which view of the state [P] depends on, and a statement
    that leaves this view alone is stepped over.  Any other statement is
    entered, after the state it starts from has been given a name, so that
    each statement is dealt with once. *)
Ltac enter g :=
  let h := head_of g in unfold h.

Ltac walk frame known :=
  expose;
  first
    [ assumption
    | lazymatch goal with
      | |- forall _, _ => intro; walk frame known
      | |- ?P (final (Returned ?t)) =>
          change (final (Returned t)) with t; walk frame known
      | |- ?P (final (Threw ?e ?t)) =>
          change (final (Threw e t)) with t; walk frame known
      | |- ?P (final (andThen ?o ?k)) =>
          apply (final_andThen P o k); walk frame known
      | |- ?P (when ?c ?f ?t) =>
          apply (when_pres P c f t); walk frame known
      | |- ?P (final (match ?c with _ => _ end)) =>
          destruct c eqn:?; walk frame known
      | |- ?P (match ?c with _ => _ end) =>
          destruct c eqn:?; walk frame known
      | |- _ =>
          first
            [ known; walk frame known
            | lazymatch goal with
              | |- _ (final (?g ?t)) =>
                  apply (frame t (final (g t))); [ same_call | ]
              | |- _ (?g ?t) =>
                  apply (frame t (g t)); [ same_call | ]
              end; walk frame known
            | lazymatch goal with
              | |- ?P (final (?g ?t)) =>
                  tryif is_var t then enter g
                  else (cut (P t);
                        [ let x := fresh "s" in
                          generalize t; intros x ?;
                          lazymatch goal with
                          | |- _ (final (?g' _)) => enter g'
                          end
                        | ])
              | |- ?P (?g ?t) =>
                  tryif is_var t then enter g
                  else (cut (P t);
                        [ let x := fresh "s" in
                          generalize t; intros x ?;
                          lazymatch goal with
                          | |- _ (?g' _) => enter g'
                          end
                        | ])
              end; walk frame known ]
      end ].

(** ** open() *)

Lemma or_default_falsy (a : option Z) (d : Z) :
  truthy_num a = false -> or_default a d = d.
Proof.
  destruct a as [z|]; simpl; [|reflexivity].
  destruct (Z.eqb z 0); [reflexivity|discriminate].
Qed.

Lemma lostTimer_open (port : string) (st : State) :
  lostTimer (open port st) =
  or_default (cfg_lostTimer (options st)) DEFAULT_CONNECT_LOST_MILLS.
Proof. unfold open. destruct (makeParser _); reflexivity. Qed.

Lemma makeSerialPortOptions_baudRate (o : SerialPortOptions) (z : Z) :
  baudRate o = Some z -> baudRate (_makeSerialPortOptions o) = Some z.
Proof. intros H. unfold _makeSerialPortOptions. simpl. rewrite H. reflexivity. Qed.

(** C10.  [open] stores the default loss window of 1000 ms whenever the
    configured [lostTimer] is falsy, that is left out or [0]: a supplied [0]
    does not win.  A serial-port option is different: a supplied
    [baudRate] of [0] overrides the default 9600. *)
Theorem open_falsy_lostTimer_takes_default (port : string) (st : State) :
  truthy_num (cfg_lostTimer (options st)) = false ->
  lostTimer (open port st) = 1000%Z /\
  (baudRate (serial (options st)) = Some 0%Z ->
   baudRate (_makeSerialPortOptions (serial (options st))) = Some 0%Z).
Proof.
  intros Hfalsy. split.
  - rewrite lostTimer_open. now apply or_default_falsy.
  - apply makeSerialPortOptions_baudRate.
Qed.

Lemma open_falsy_lostTimer_takes_default_witness :
  lostTimer (open "COM3" (new bareModule zeroConfig)) = 1000%Z /\
  baudRate (_makeSerialPortOptions (serial zeroConfig)) = Some 0%Z.
Proof.
  destruct (open_falsy_lostTimer_takes_default "COM3"
              (new bareModule zeroConfig)) as [H1 H2].
  - vm_compute. reflexivity.
  - split; [exact H1 | apply H2; vm_compute; reflexivity].
Defined.

(** ** initialize() without a handshake *)

Lemma settle_fresh (s : PState) (l : list PState) :
  settle s (length l) (l ++ [Pending]) = l ++ [s].
Proof.
  unfold settle.
  rewrite lookup_app_r by lia. rewrite Nat.sub_diag. simpl.
  rewrite insert_app_r_alt by lia. rewrite Nat.sub_diag. reflexivity.
Qed.

(** C9.  When at least one of [checkInitialData] and [requestInitialData]
    is missing (also when exactly one is present), [initialize] on a held
    port resolves its promise at once, registers no listener and arms no
    poll timer: the only timer it may add is the firmware deadline. *)
Theorem initialize_without_both_hooks_resolves (st : State) (p : SerialPort) :
  serialPort st = Held p ->
  checkInitialData (hwModule st) = None \/
  requestInitialData (hwModule st) = None ->
  let st' := initialize st in
  handshakes st' = handshakes st ++ [Resolved] /\
  serialPort st' = serialPort st /\
  slaveTimer st' = slaveTimer st /\
  timers st' =
    timers st ++
      (if firmwarecheck (options st)
       then [{| callback := FlashDeadline (length (handshakes st));
                delay := 3000; periodic := false; active := true |}]
       else []).
Proof.
  intros Hp Hhook. unfold initialize. cbv zeta.
  change (serialPort (set_handshakes _ st)) with (serialPort st). rewrite Hp.
  assert (Hno : has_handshake (hwModule st) = false).
  { unfold has_handshake.
    destruct Hhook as [-> | ->]; simpl; [reflexivity | apply andb_false_r]. }
  set (s1 := when _ _ _).
  assert (Hs1 : hwModule s1 = hwModule st)
    by (unfold s1, when; destruct (firmwarecheck _); reflexivity).
  unfold startHandshake. rewrite Hs1, Hno.
  unfold s1, when, armFlashFirmware, resolveHandshake.
  cbn -[settle]. destruct (firmwarecheck (options st)); cbn -[settle];
    rewrite settle_fresh; repeat split; try reflexivity; try assumption.
  symmetry; apply app_nil_r.
Qed.

Lemma initialize_without_both_hooks_resolves_witness :
  handshakes (initialize (opened halfModule plainConfig)) = [Resolved] /\
  timers (initialize (opened halfModule plainConfig)) = [].
Proof.
  destruct (initialize_without_both_hooks_resolves
              (opened halfModule plainConfig)
              {| isOpen := true; listeners := [(ev_error, OpenReject 0)];
                 parser := None |})
    as (H1 & _ & _ & H2).
  - vm_compute. reflexivity.
  - left. vm_compute. reflexivity.
  - split; [exact H1 | exact H2].
Defined.

(** ** connect(): the precondition *)

Lemma router_callHook b e st : router (callHook b e st) = router st.
Proof. destruct b; reflexivity. Qed.

Lemma sendState_returns (s : string) (st : State) (r : Router) :
  router st = Some r ->
  _sendState s st =
  Returned (effect (RouterSendState s)
              (callHook (eventController (hwModule st))
                        (HwEventController s) st)).
Proof.
  intros Hr. unfold _sendState. cbv zeta.
  now rewrite router_callHook, Hr.
Qed.

Lemma connect_held_returns (st : State) (r : Router) (p : SerialPort) :
  router st = Some r -> serialPort st = Held p ->
  exists st', connect st = Returned st'.
Proof.
  intros Hr Hp. unfold connect. rewrite Hr, Hp. cbv zeta.
  erewrite sendState_returns; [|rewrite router_callHook; exact Hr].
  eexists. reflexivity.
Qed.

(** C6, as stated, fails: a port that is held but not open passes the
    check.  After [open] and before the port's ['open'] event,
    [connect] goes ahead. *)
Lemma connect_not_open_counterexample :
  ~ (forall st : State,
       reachable st ->
       router st = None \/ transport_open st = false ->
       exists e, connect st = Threw e st).
Proof.
  intros claim.
  destruct (claim (run (new bareModule plainConfig)
                       [CallSetRouter; CallOpen "COM3"])) as [e He].
  - exists bareModule, plainConfig. eexists. reflexivity.
  - right. vm_compute. reflexivity.
  - vm_compute in He. discriminate He.
Qed.

(** C6, amended.  [connect] throws synchronously when no router is set or
    when no port object is held ([this.serialPort] unset); the state at the
    throw is the state at the call, so nothing was changed and nothing was
    attempted. *)
Theorem connect_precondition (st : State) :
  router st = None \/ transport_held st = false ->
  exists msg, connect st = Threw (PlainError msg) st.
Proof.
  intros [Hr | Hp]; unfold connect.
  - rewrite Hr. eexists. reflexivity.
  - destruct (router st); [|eexists; reflexivity].
    unfold transport_held in Hp.
    destruct (serialPort st); [eexists; reflexivity | discriminate
                              | eexists; reflexivity].
Qed.

Lemma connect_precondition_witness :
  exists msg,
    connect (opened bareModule plainConfig) =
    Threw (PlainError msg) (opened bareModule plainConfig).
Proof.
  apply (connect_precondition (opened bareModule plainConfig)).
  left. vm_compute. reflexivity.
Defined.

(** ** clear() and the timers *)

Lemma slaveTimer_clear (st : State) : slaveTimer (clear st) = slaveTimer st.
Proof. unfold clear. same. Qed.

Lemma cancel_resets (get : State -> option nat)
    (set : option nat -> State -> State) st :
  (forall v s, get (set v s) = v) -> get (cancel get set st) = None.
Proof.
  intros Hset. unfold cancel. destruct (get st) eqn:E; [apply Hset | exact E].
Qed.

(** [clear] resets the four handles it knows. *)
Lemma clear_resets_handles (st : State) :
  connectionLostTimer (clear st) = None /\
  requestLocalDataInterval (clear st) = None /\
  advertiseInterval (clear st) = None /\
  flashFirmware (clear st) = None.
Proof.
  unfold clear. cbv zeta. repeat split.
  - transitivity (connectionLostTimer
                    (cancel connectionLostTimer set_connectionLostTimer
                       (set_connected false st))); [same|].
    now apply cancel_resets.
  - match goal with
    | |- _ (cancel _ _ (detachAll (cancel _ _ ?s))) = _ =>
        transitivity (requestLocalDataInterval s); [same|]
    end.
    now apply cancel_resets.
  - match goal with
    | |- _ (cancel _ _ (detachAll ?s)) = _ =>
        transitivity (advertiseInterval s); [same|]
    end.
    now apply cancel_resets.
  - now apply cancel_resets.
Qed.

(** A timer whose handle [clear] knows is stopped by it. *)
Lemma clearTimer_stops h st t :
  timers (clearTimer h st) !! h = Some t -> active t = false.
Proof.
  unfold clearTimer. cbn. rewrite list_lookup_alter. intros H.
  destruct (timers st !! h); simpl in H; case_decide; try congruence.
  injection H as <-. reflexivity.
Qed.

Lemma cancel_idle (get : State -> option nat)
    (set : option nat -> State -> State) st :
  get st = None -> cancel get set st = st.
Proof. intros H. unfold cancel. now rewrite H. Qed.

Lemma detachAll_idle st : detached st -> detachAll st = st.
Proof.
  intros H. unfold detachAll, updateHeld.
  destruct (serialPort st) as [|p|p] eqn:Hsp; try reflexivity.
  destruct (H p Hsp) as [Hl Hps].
  assert (Hp : onParser removeEveryListener (onPort removeEveryListener p) = p).
  { destruct p as [o ls [[k pl]|]]; cbn in *; subst ls.
    - specialize (Hps _ eq_refl). cbn in Hps. now subst pl.
    - reflexivity. }
  rewrite Hp, <- Hsp. now destruct st.
Qed.

Lemma detached_detachAll st : detached (detachAll st).
Proof.
  unfold detachAll, updateHeld, detached.
  destruct (serialPort st) as [|p|p] eqn:Hsp; cbn; intros p' Hp';
    rewrite ?Hsp in Hp'; try discriminate.
  injection Hp' as <-. split; [reflexivity|].
  destruct p as [o ls [[k pl]|]]; cbn; intros ps Hps; [|discriminate].
  now injection Hps as <-.
Qed.

(** A state [clear] has nothing to do on. *)
Lemma clear_idle st :
  connected st = false -> connectionLostTimer st = None ->
  requestLocalDataInterval st = None -> advertiseInterval st = None ->
  flashFirmware st = None -> detached st ->
  clear st = st.
Proof.
  intros Hc H1 H2 H3 H4 Hd. unfold clear. cbv zeta.
  assert (E : set_connected false st = st)
    by (rewrite <- Hc; now destruct st).
  rewrite E.
  rewrite (cancel_idle connectionLostTimer) by exact H1.
  rewrite (cancel_idle requestLocalDataInterval) by exact H2.
  rewrite (cancel_idle advertiseInterval) by exact H3.
  rewrite detachAll_idle by exact Hd.
  now apply cancel_idle.
Qed.

Lemma clear_idempotent (st : State) : clear (clear st) = clear st.
Proof.
  destruct (clear_resets_handles st) as (H1 & H2 & H3 & H4).
  apply clear_idle; auto.
  - unfold clear. cbv zeta.
    transitivity (connected (set_connected false st)); [same | reflexivity].
  - unfold clear. cbv zeta. unfold detached.
    match goal with
    | |- forall p, serialPort (cancel _ _ ?s) = _ -> _ =>
        assert (Hs : serialPort (cancel flashFirmware set_flashFirmware s) =
                     serialPort s) by same;
        rewrite Hs; apply detached_detachAll
    end.
Qed.

(** C1, on the code.  After a slave handshake has started, [clear] leaves
    [slaveTimer] set and its interval running: the next tick still asks the
    module for [requestInitialData] and writes it to the port. *)
Theorem clear_leaves_slaveTimer_running :
  let st := initialize (opened handshakeModule plainConfig) in
  let poll := {| callback := SlavePoll; delay := 1000; periodic := true;
                 active := true |} in
  slaveTimer st = Some 0 /\ timers st !! 0 = Some poll /\
  slaveTimer (clear st) = Some 0 /\ timers (clear st) !! 0 = Some poll /\
  log (step (clear st) (TimerFires 0)) =
    PortWrite (PBytes [1%Z]) :: HwRequestInitialData :: log (clear st).
Proof. vm_compute. repeat split. Qed.

(** ** The slave poll timer and the firmware deadline *)

(** C2, on the code.  In a slave handshake with [firmwarecheck], the
    deadline callback resolves the promise and leaves [slaveTimer] running:
    the tick after resolution still sends [requestInitialData]. *)
Theorem flash_deadline_leaves_slave_polling :
  let st0 := initialize (opened handshakeModule firmwareConfig) in
  let st1 := step st0 (TimerFires 0) in
  let poll := {| callback := SlavePoll; delay := 1000; periodic := true;
                 active := true |} in
  handshakes st0 = [Pending] /\ handshakes st1 = [Resolved] /\
  slaveTimer st1 = Some 1 /\ timers st1 !! 1 = Some poll /\
  log (step st1 (TimerFires 1)) =
    PortWrite (PBytes [1%Z]) :: HwRequestInitialData :: log st1.
Proof. vm_compute. repeat split. Qed.

(** The sibling path: a slave listener that settles the handshake on a frame
    does cancel the poll timer. *)
Lemma slave_frame_cancels_poll st pid d check h t st' :
  checkInitialData (hwModule st) = Some check ->
  is_undefined (check d) = false ->
  slaveTimer st = Some h ->
  runAsSlave_onData pid d st = Returned st' ->
  timers st' !! h = Some t -> active t = false.
Proof.
  intros Hcheck Hres Hh. unfold runAsSlave_onData.
  rewrite Hcheck, Hres. cbv zeta. cbn [negb]. intros Hst'.
  injection Hst' as <-.
  match goal with
  | |- timers (slaveVerdict _ _ (clearIfSet (slaveTimer ?s) ?s)) !! _ = _ -> _ =>
      assert (Hs : slaveTimer s = slaveTimer st) by same;
      assert (Ht : timers (slaveVerdict pid (check d)
                             (clearIfSet (slaveTimer s) s)) =
                   timers (clearIfSet (slaveTimer s) s)) by same;
      rewrite Ht, Hs, Hh
  end.
  apply clearTimer_stops.
Qed.

(** ** The send gate *)

Lemma gate_ok_frame (st st' : State) :
  gate st' = gate st -> gate_ok st -> gate_ok st'.
Proof.
  unfold gate, gate_ok. intros H; injection H as H1 H2. now rewrite H1, H2.
Qed.

Lemma gate_ok_new hw cfg : gate_ok (new hw cfg).
Proof. split; simpl; auto. Qed.

(** A send that passes the guard finds the gate empty. *)
Lemma gate_ok_send d cb st : gate_ok st -> gate_ok (send d cb st).
Proof.
  intros [Hidle Hlen]. unfold send, may_send.
  destruct (serialPort st) as [|p|p]; try (split; assumption).
  destruct (isOpen p && truthy d && negb (isSending st)) eqn:Hg;
    [|split; assumption].
  apply andb_prop in Hg as [_ Hs]. apply negb_true_iff in Hs.
  split; cbn; [discriminate|]. rewrite (Hidle Hs). simpl. lia.
Qed.

Lemma gate_ok_single st op rest :
  gate_ok st -> inflight st = op :: rest -> isSending st = true /\ rest = [].
Proof.
  intros [Hidle Hlen] Hin. split.
  - destruct (isSending st); [reflexivity|].
    rewrite Hidle in Hin by reflexivity. discriminate.
  - rewrite Hin in Hlen. destruct rest; [reflexivity|simpl in Hlen; lia].
Qed.

Lemma gate_ok_writeCallback st : gate_ok st -> gate_ok (writeCallback st).
Proof.
  intros Hok. unfold writeCallback, onWritten.
  destruct (inflight st) as [|[cb|cb] rest] eqn:Hin; try assumption.
  destruct (gate_ok_single _ _ _ Hok Hin) as [Hs ->].
  cbn. destruct (serialPort st); split; cbn; intros; try congruence; lia.
Qed.

Lemma gate_ok_drainCallback st : gate_ok st -> gate_ok (drainCallback st).
Proof.
  intros Hok. unfold drainCallback, onDrained.
  destruct (inflight st) as [|[cb|cb] rest] eqn:Hin; try assumption.
  destruct (gate_ok_single _ _ _ Hok Hin) as [Hs ->].
  destruct cb; split; cbn; auto.
Qed.

Ltac gate_known :=
  idtac;
  lazymatch goal with
  | |- gate_ok (send _ _ _) => apply gate_ok_send
  | |- gate_ok (writeCallback _) => apply gate_ok_writeCallback
  | |- gate_ok (drainCallback _) => apply gate_ok_drainCallback
  end.

Ltac gate_walk := intros; walk gate_ok_frame gate_known.

Lemma gate_ok_runListener l em st :
  gate_ok st -> gate_ok (final (runListener l em st)).
Proof. destruct l, em; gate_walk. Qed.

Lemma gate_ok_emit ls em st : gate_ok st -> gate_ok (final (emit ls em st)).
Proof.
  revert st. induction ls as [|l ls IH]; intros st H; simpl; [exact H|].
  apply final_andThen; [now apply gate_ok_runListener | exact IH].
Qed.

Lemma gate_ok_run_event ev st :
  gate_ok st -> gate_ok (final (run_event ev st)).
Proof.
  destruct ev; try solve [gate_walk]; intros H; simpl.
  - unfold portEmits. apply gate_ok_emit. gate_walk.
  - unfold parserEmits. now apply gate_ok_emit.
Qed.

Lemma gate_ok_step st ev : gate_ok st -> gate_ok (step st ev).
Proof.
  intros H. apply (gate_ok_run_event ev) in H. unfold step.
  destruct (run_event ev st); [exact H|]. simpl in *. gate_walk.
Qed.

Lemma gate_ok_run evs st : gate_ok st -> gate_ok (run st evs).
Proof.
  revert st. induction evs as [|ev evs IH]; intros st H; simpl; [exact H|].
  apply IH. now apply gate_ok_step.
Qed.

(** In every reachable state at most one write or drain is outstanding, and
    [isSending] is set while it is. *)
Lemma gate_ok_reachable st : reachable st -> gate_ok st.
Proof.
  intros (hw & cfg & evs & ->). apply gate_ok_run, gate_ok_new.
Qed.

(** *** The flag stays up until the drain callback *)

Lemma sending_frame (st st' : State) :
  isSending st' = isSending st -> sending st -> sending st'.
Proof. unfold sending. congruence. Qed.

Lemma send_dropped d cb st : isSending st = true -> send d cb st = st.
Proof.
  intros H. unfold send, may_send. rewrite H.
  destruct (serialPort st); try reflexivity.
  now rewrite andb_false_r.
Qed.

Lemma sending_send d cb st : sending st -> sending (send d cb st).
Proof. intros H. now rewrite send_dropped. Qed.

Ltac sending_known :=
  idtac;
  lazymatch goal with
  | |- sending (send _ _ _) => apply sending_send
  end.

Ltac sending_walk := intros; walk sending_frame sending_known.

Lemma sending_runListener l em st :
  sending st -> sending (final (runListener l em st)).
Proof. destruct l, em; sending_walk. Qed.

Lemma sending_emit ls em st : sending st -> sending (final (emit ls em st)).
Proof.
  revert st. induction ls as [|l ls IH]; intros st H; simpl; [exact H|].
  apply final_andThen; [now apply sending_runListener | exact IH].
Qed.

Lemma sending_step st ev :
  ev <> DrainCallback -> sending st -> sending (step st ev).
Proof.
  intros Hev H. unfold step.
  assert (Hf : sending (final (run_event ev st))).
  { destruct ev; try congruence; try solve [revert H; sending_walk]; simpl.
    - unfold portEmits. apply sending_emit. revert H. sending_walk.
    - unfold parserEmits. now apply sending_emit. }
  destruct (run_event ev st); exact Hf.
Qed.

Lemma sending_run evs st :
  ~ In DrainCallback evs -> sending st -> sending (run st evs).
Proof.
  revert st. induction evs as [|ev evs IH]; intros st Hno H; simpl; [exact H|].
  apply IH; [intros Hin; apply Hno; now right|].
  apply sending_step; [|exact H]. intros ->. apply Hno. now left.
Qed.

(** *** send() *)

(** C3, as stated, fails: an empty byte array is an empty payload, but it is
    truthy, so [send] takes it, raises [isSending] and writes. *)
Lemma send_empty_bytes_counterexample :
  ~ (forall (st : State) (d : Payload) (cb : bool),
       reachable st ->
       transport_open st && non_empty d && negb (isSending st) = false ->
       send d cb st = st).
Proof.
  intros claim.
  specialize (claim (opened bareModule plainConfig) (PBytes []) false).
  assert (H : isSending (send (PBytes []) false (opened bareModule plainConfig))
              = isSending (opened bareModule plainConfig)).
  { f_equal. apply claim; [|vm_compute; reflexivity].
    exists bareModule, plainConfig. eexists. reflexivity. }
  vm_compute in H. discriminate H.
Qed.

Lemma may_send_eq d st :
  may_send d st = transport_open st && truthy d && negb (isSending st).
Proof. unfold may_send, transport_open. destruct (serialPort st); reflexivity. Qed.

(** C3, amended: "non-empty" is JavaScript truthiness (an empty byte array
    passes).  Unless the port is held and open, the payload is truthy and no
    send is in flight, [send] changes nothing.  Otherwise it raises
    [isSending], writes once and waits for the write callback.  While
    [isSending] is up every further [send] changes nothing, and the flag
    stays up whatever happens until the drain callback runs; that callback
    lowers it, after which a truthy payload is written again.  In every
    reachable state at most one write or drain is pending. *)
Theorem send_gate (st : State) (d : Payload) (cb : bool) :
  reachable st ->
  (transport_open st && truthy d && negb (isSending st) = false ->
   send d cb st = st) /\
  (transport_open st && truthy d && negb (isSending st) = true ->
   isSending (send d cb st) = true /\
   log (send d cb st) = PortWrite (encode (options st) d) :: log st /\
   inflight (send d cb st) = [WritePending cb]) /\
  (isSending st = true ->
   forall evs, ~ In DrainCallback evs ->
     isSending (run st evs) = true /\
     forall d' cb', send d' cb' (run st evs) = run st evs) /\
  (forall cb0, inflight st = [DrainPending cb0] ->
     isSending (step st DrainCallback) = false /\
     inflight (step st DrainCallback) = [] /\
     forall d', may_send d' (step st DrainCallback) =
                transport_open st && truthy d') /\
  length (inflight st) <= 1 /\
  (isSending st = false -> inflight st = []).
Proof.
  intros Hreach. pose proof (gate_ok_reachable st Hreach) as [Hidle Hlen].
  repeat split; try assumption.
  - intros Hg. unfold send. rewrite may_send_eq, Hg. reflexivity.
  - unfold send. rewrite may_send_eq, H. reflexivity.
  - unfold send. rewrite may_send_eq, H. reflexivity.
  - unfold send. rewrite may_send_eq, H. cbn.
    apply andb_prop in H as [_ Hs]. apply negb_true_iff in Hs.
    now rewrite (Hidle Hs).
  - now apply sending_run.
  - intros d' cb'. apply send_dropped. now apply sending_run.
  - unfold step. cbn. unfold drainCallback. rewrite H. now destruct cb0.
  - unfold step. cbn. unfold drainCallback. rewrite H. now destruct cb0.
  - intros d'. rewrite may_send_eq. unfold step. cbn. unfold drainCallback.
    rewrite H. unfold transport_open. destruct cb0; cbn;
      destruct (serialPort st); cbn; now rewrite ?andb_true_r.
Qed.

(** ** Listeners and handshakes *)

Lemma listenersOf_on ev ev' l e :
  listenersOf ev (on ev' l e) =
  listenersOf ev e ++ (if EventName_eqb ev' ev then [l] else []).
Proof.
  unfold listenersOf, on. rewrite List.filter_app, List.map_app. simpl.
  destruct (EventName_eqb ev' ev); reflexivity.
Qed.

Lemma listenersOf_removeAll_same ev e :
  listenersOf ev (removeAllListeners ev e) = [].
Proof.
  unfold listenersOf, removeAllListeners.
  induction e as [|[a l] e IH]; simpl; [reflexivity|].
  destruct (EventName_eqb a ev) eqn:E; simpl; [exact IH|].
  rewrite E. exact IH.
Qed.

Lemma listenersOf_removeAll_incl ev ev' e l :
  In l (listenersOf ev (removeAllListeners ev' e)) -> In l (listenersOf ev e).
Proof.
  unfold listenersOf, removeAllListeners.
  rewrite !List.in_map_iff. intros ([a l'] & Hl & Hin).
  exists (a, l'). split; [exact Hl|].
  rewrite !List.filter_In in *. tauto.
Qed.

Lemma no_member_nil {A} (l : list A) : (forall x, ~ In x l) -> l = [].
Proof.
  destruct l as [|a l]; [reflexivity|]. intros H. destruct (H a). now left.
Qed.

Lemma shrinks_removeAll ev : shrinks (removeAllListeners ev).
Proof. intros e l. apply listenersOf_removeAll_incl. Qed.

Lemma shrinks_removeEvery : shrinks removeEveryListener.
Proof. intros e l []. Qed.

Lemma shrinks_nil g : shrinks g -> forall e,
  listenersOf ev_data e = [] -> listenersOf ev_data (g e) = [].
Proof.
  intros Hg e He. apply no_member_nil. intros l Hl.
  apply Hg in Hl. now rewrite He in Hl.
Qed.

Lemma tame_setOpen b : tame (setOpen b).
Proof. intros p. split; auto. Qed.

Lemma tame_onPort g : shrinks g -> tame (onPort g).
Proof.
  intros Hg p. split.
  - unfold framed, portData. simpl. intros Hf Hp. now apply shrinks_nil, Hf.
  - intros l Hl. left. unfold dataOf, portData, parserData in *. simpl in *.
    rewrite in_app_iff in *.
    destruct Hl as [Hl|Hl]; [left; now apply Hg | now right].
Qed.

Lemma tame_onParser g : shrinks g -> tame (onParser g).
Proof.
  intros Hg p. split.
  - unfold framed, portData. simpl. destruct (parser p); auto.
  - intros l Hl. left. unfold dataOf, portData, parserData in *. simpl in *.
    rewrite in_app_iff in *. destruct Hl as [Hl|Hl]; [now left | right].
    destruct (parser p); simpl in *; [now apply Hg | exact Hl].
Qed.

Lemma tame_onReadStream g : shrinks g -> tame (onReadStream g).
Proof.
  intros Hg p. unfold onReadStream.
  destruct (parser p); [now apply tame_onParser | now apply tame_onPort].
Qed.

Lemma tame_compose f g : tame f -> tame g -> tame (fun p => f (g p)).
Proof.
  intros Hf Hg p. destruct (Hf (g p)) as [F1 F2], (Hg p) as [G1 G2].
  split; [auto|]. intros l Hl.
  destruct (F2 l Hl) as [Hl' | ->]; [now apply G2 | now right].
Qed.

Lemma framed_attach L p :
  framed p -> framed (onReadStream (on ev_data L) p).
Proof.
  unfold framed, onReadStream, portData.
  destruct p as [o ls [ps|]]; simpl; [auto | discriminate].
Qed.

Lemma dataOf_attach L p l :
  In l (dataOf (onReadStream (on ev_data L) p)) -> In l (dataOf p) \/ l = L.
Proof.
  unfold dataOf, onReadStream, portData, parserData.
  destruct p as [o ls [ps|]]; simpl; rewrite listenersOf_on; simpl;
    rewrite ?app_nil_r, !in_app_iff; simpl; intuition.
Qed.

(** Attaching the steady-state listener, on the read stream. *)
Lemma tame_attach_steady : tame (onReadStream (on ev_data SteadyData)).
Proof. intros p. split; [apply framed_attach | apply dataOf_attach]. Qed.

Lemma tame_attach_disconnect : tame (onPort (on ev_disconnect Disconnected)).
Proof.
  apply tame_onPort. intros e l. rewrite listenersOf_on. simpl.
  now rewrite app_nil_r.
Qed.

Ltac tame_tac :=
  repeat first
    [ apply tame_setOpen | apply tame_attach_steady
    | apply tame_attach_disconnect | apply tame_onPort | apply tame_onParser
    | apply tame_onReadStream
    | apply (tame_compose (onParser _) (onPort _))
    | apply shrinks_removeAll | apply shrinks_removeEvery ].

Lemma wiring_ok_frame (st st' : State) :
  wiring st' = wiring st -> wiring_ok st -> wiring_ok st'.
Proof.
  unfold wiring, wiring_ok. intros H; injection H as H1 H2. now rewrite H1, H2.
Qed.

Lemma wiring_ok_new hw cfg : wiring_ok (new hw cfg).
Proof. split; simpl; intros; discriminate. Qed.

(** What a tame change does to a port object that is wired as it should. *)
Lemma tame_shape f p :
  tame f ->
  framed p /\ (forall l, In l (dataOf p) -> data_listener l = true) ->
  framed (f p) /\ (forall l, In l (dataOf (f p)) -> data_listener l = true).
Proof.
  intros Hf [Hfr Hk]. destruct (Hf p) as [F1 F2]. split; [auto|].
  intros l Hl. destruct (F2 l Hl) as [Hl' | ->]; [auto | reflexivity].
Qed.

Lemma tame_pending f p (hs : list PState) :
  tame f ->
  (forall l pid, In l (dataOf p) -> handshake_of l = Some pid ->
                 hs !! pid = Some Pending) ->
  forall l pid, In l (dataOf (f p)) -> handshake_of l = Some pid ->
                hs !! pid = Some Pending.
Proof.
  intros Hf Hb l pid Hl Hh. destruct (Hf p) as [_ F2].
  destruct (F2 l Hl) as [Hl' | ->]; [eauto | discriminate].
Qed.

Lemma wiring_ok_updatePort f st :
  tame f -> wiring_ok st -> wiring_ok (updatePort f st).
Proof.
  intros Hf [Hc Hb]. split; simpl.
  - intros p' Hp'. destruct (serialPort st) as [|p|p]; simpl in Hp';
      try discriminate; injection Hp' as <-; apply (tame_shape f p Hf); auto.
  - intros p' Hp'.
    destruct (serialPort st) as [|p|p]; simpl in Hp'; try discriminate.
    injection Hp' as <-. apply (tame_pending f p _ Hf). now apply Hb.
Qed.

Lemma wiring_ok_updateHeld f st :
  tame f -> wiring_ok st -> wiring_ok (updateHeld f st).
Proof.
  intros Hf [Hc Hb]. unfold updateHeld.
  destruct (serialPort st) as [|p|p] eqn:Hsp;
    try (split; rewrite ?Hsp; assumption).
  split; simpl.
  - intros p' Hp'. injection Hp' as <-. apply (tame_shape f p Hf). auto.
  - intros p' Hp'. injection Hp' as <-. apply (tame_pending f p _ Hf).
    now apply Hb.
Qed.

Lemma wiring_ok_onClosed st : wiring_ok st -> wiring_ok (onClosed st).
Proof.
  intros [Hc Hb]. unfold onClosed.
  destruct (serialPort st) as [|p|p] eqn:Hsp;
    try (split; rewrite ?Hsp; assumption).
  split; simpl; [|discriminate].
  intros p' Hp'. injection Hp' as <-. now apply Hc.
Qed.

Lemma makeParser_fresh o ps :
  makeParser o = Some ps -> parser_listeners ps = [].
Proof.
  unfold makeParser.
  destruct (truthy_str (delimiter o)), (delimiter o), (byteDelimiter o);
    intros H; try discriminate; now injection H as <-.
Qed.

Lemma dataOf_open pid ps :
  (forall p, ps = Some p -> parser_listeners p = []) ->
  dataOf {| isOpen := false;
            listeners := on ev_open (OpenOpened pid)
                           (on ev_error (OpenReject pid) []);
            parser := ps |} = [].
Proof.
  intros H. unfold dataOf, portData, parserData. cbn.
  destruct ps as [p|]; [|reflexivity]. now rewrite (H p eq_refl).
Qed.

Lemma serialPort_open port st :
  serialPort (open port st) =
  Held {| isOpen := false;
          listeners := on ev_open (OpenOpened (length (opens st)))
                         (on ev_error (OpenReject (length (opens st))) []);
          parser := makeParser (options st) |}.
Proof. reflexivity. Qed.

Lemma wiring_ok_open port st : wiring_ok st -> wiring_ok (open port st).
Proof.
  intros _.
  assert (Hd := dataOf_open (length (opens st)) (makeParser (options st))
                  (makeParser_fresh (options st))).
  split; rewrite serialPort_open; intros p Hp; injection Hp as <-.
  - split; [intros _; reflexivity|]. rewrite Hd. intros l [].
  - rewrite Hd. intros l pid [].
Qed.

(** Once the ['data'] listeners of a held port are gone, the handshakes may
    be settled at will. *)
Lemma wiring_ok_silent (st st' : State) :
  serialPort st' = serialPort st -> wiring_ok st ->
  (forall p, serialPort st = Held p -> dataOf p = []) ->
  wiring_ok st'.
Proof.
  intros Hsp [Hc _] Hnone. split; rewrite Hsp; [exact Hc|].
  intros p Hp l pid Hl. rewrite (Hnone p Hp) in Hl. destruct Hl.
Qed.

Lemma dataOf_removed p :
  dataOf (onReadStream (removeAllListeners ev_data)
            (onPort (removeAllListeners ev_data) p)) = [].
Proof.
  unfold dataOf, portData, parserData, onReadStream.
  destruct p as [o ls [ps|]]; simpl;
    now rewrite !listenersOf_removeAll_same.
Qed.

Lemma dataOf_removed_framed p :
  framed p -> dataOf (onReadStream (removeAllListeners ev_data) p) = [].
Proof.
  unfold framed, dataOf, portData, parserData, onReadStream.
  destruct p as [o ls [ps|]]; simpl; intros Hf.
  - now rewrite Hf, listenersOf_removeAll_same.
  - now rewrite listenersOf_removeAll_same.
Qed.

Ltac wiring_base :=
  idtac;
  lazymatch goal with
  | |- wiring_ok (updatePort _ _) =>
      apply wiring_ok_updatePort; [solve [tame_tac] | ]
  | |- wiring_ok (updateHeld _ _) =>
      apply wiring_ok_updateHeld; [solve [tame_tac] | ]
  | |- wiring_ok (onClosed _) => apply wiring_ok_onClosed
  | |- wiring_ok (open _ _) => apply wiring_ok_open
  end.

Lemma wiring_ok_runAsMaster_onData pid d st :
  wiring_ok st -> wiring_ok (final (runAsMaster_onData pid d st)).
Proof.
  intros H. unfold runAsMaster_onData.
  destruct (checkInitialData (hwModule st)) as [check|]; [|exact H].
  cbv zeta.
  assert (H1 : wiring_ok (effect (HwCheckInitialData d) st))
    by (revert H; now apply wiring_ok_frame).
  revert H1. generalize (effect (HwCheckInitialData d) st). clear H.
  intros s H. destruct (is_undefined (check d)).
  - revert H. intros; walk wiring_ok_frame wiring_base.
  - change (final (Returned ?s)) with s.
    eapply wiring_ok_silent with
      (st := updatePort (onReadStream (removeAllListeners ev_data))
               (updatePort (onPort (removeAllListeners ev_data)) s)).
    + same.
    + now repeat wiring_base.
    + intros p Hp. cbn in Hp.
      destruct (serialPort s) as [|p0|p0]; cbn in Hp; try discriminate.
      injection Hp as <-. apply dataOf_removed.
Qed.

Lemma wiring_ok_runAsSlave_onData pid d st :
  wiring_ok st -> wiring_ok (final (runAsSlave_onData pid d st)).
Proof.
  intros H. unfold runAsSlave_onData.
  destruct (checkInitialData (hwModule st)) as [check|]; [|exact H].
  cbv zeta.
  assert (H1 : wiring_ok (effect (HwCheckInitialData d) st))
    by (revert H; now apply wiring_ok_frame).
  revert H1. generalize (effect (HwCheckInitialData d) st). clear H.
  intros s H. destruct (negb (is_undefined (check d))); [|exact H].
  change (final (Returned ?s)) with s.
  eapply wiring_ok_silent with
    (st := updatePort (onReadStream (removeAllListeners ev_data))
             (detachHeldData s)).
  - same.
  - unfold detachHeldData. now repeat wiring_base.
  - unfold detachHeldData, updateHeld. intros p Hp.
    destruct (serialPort s) as [|p0|p0] eqn:Hs; cbn in Hp; rewrite ?Hs in Hp;
      try discriminate.
    injection Hp as <-. apply dataOf_removed.
Qed.

Lemma wiring_ok_flashFirmware_fire pid st :
  wiring_ok st -> wiring_ok (flashFirmware_fire pid st).
Proof.
  intros H. unfold flashFirmware_fire.
  eapply wiring_ok_silent with
    (st := updateHeld (onReadStream (removeAllListeners ev_data)) st).
  - unfold requestFlash, updateHeld. destruct (serialPort st); reflexivity.
  - now wiring_base.
  - unfold updateHeld. intros p Hp.
    destruct (serialPort st) as [|p0|p0] eqn:Hsp; cbn in Hp;
      rewrite ?Hsp in Hp; try discriminate.
    injection Hp as <-. apply dataOf_removed_framed.
    apply H. now rewrite Hsp.
Qed.

(** [initialize] registers its listener for a handshake that is pending. *)
Lemma wiring_ok_attach L pid st :
  handshake_of L = Some pid -> handshakes st !! pid = Some Pending ->
  wiring_ok st -> wiring_ok (updatePort (onReadStream (on ev_data L)) st).
Proof.
  intros HL Hpid [Hc Hb].
  assert (HLk : data_listener L = true) by (destruct L; try discriminate; reflexivity).
  split; cbn.
  - intros p' Hp'. destruct (serialPort st) as [|p|p]; cbn in Hp';
      try discriminate; injection Hp' as <-;
      (split; [apply framed_attach; now apply Hc|]);
      intros l Hl; apply dataOf_attach in Hl as [Hl | ->];
      try exact HLk; now apply (Hc p).
  - intros p' Hp' l pid' Hl Hh.
    destruct (serialPort st) as [|p|p]; cbn in Hp'; try discriminate.
    injection Hp' as <-. apply dataOf_attach in Hl as [Hl | ->].
    + eapply Hb; eauto.
    + congruence.
Qed.

Lemma wiring_ok_push st :
  wiring_ok st -> wiring_ok (set_handshakes (handshakes st ++ [Pending]) st).
Proof.
  intros [Hc Hb]. split; cbn; [exact Hc|].
  intros p Hp l pid Hl Hh. apply lookup_app_l_Some. eapply Hb; eauto.
Qed.

Lemma settle_other s pid pid' (l : list PState) :
  pid' <> pid -> settle s pid l !! pid' = l !! pid'.
Proof.
  intros Hne. unfold settle. destruct (l !! pid) as [[| |e]|]; try reflexivity.
  now apply list_lookup_insert_ne.
Qed.

Lemma wiring_ok_settle_fresh s st :
  wiring_ok st ->
  wiring_ok (set_handshakes
               (settle s (length (handshakes st)) (handshakes st ++ [Pending]))
               st).
Proof.
  intros [Hc Hb]. split; cbn; [exact Hc|].
  intros p Hp l pid Hl Hh. specialize (Hb p Hp l pid Hl Hh).
  rewrite settle_other; [now apply lookup_app_l_Some|].
  apply lookup_lt_Some in Hb. lia.
Qed.

Lemma lookup_fresh (l : list PState) :
  (l ++ [Pending]) !! length l = Some Pending.
Proof. rewrite lookup_app_r by lia. now rewrite Nat.sub_diag. Qed.

Lemma wiring_ok_initialize st : wiring_ok st -> wiring_ok (initialize st).
Proof.
  intros H. unfold initialize. cbv zeta.
  change (serialPort (set_handshakes _ st)) with (serialPort st).
  destruct (serialPort st) as [|p|p] eqn:Hsp;
    try exact (wiring_ok_settle_fresh _ st H).
  unfold startHandshake.
  set (pid := length (handshakes st)).
  set (s1 := when _ _ _).
  assert (Hw : wiring s1 = wiring (set_handshakes (handshakes st ++ [Pending]) st)).
  { unfold s1, when, armFlashFirmware.
    destruct (firmwarecheck _); reflexivity. }
  assert (H1 : wiring_ok s1)
    by (eapply wiring_ok_frame; [exact Hw | now apply wiring_ok_push]).
  assert (Hp : handshakes s1 !! pid = Some Pending).
  { replace (handshakes s1) with (snd (wiring s1)) by reflexivity.
    rewrite Hw. apply lookup_fresh. }
  destruct (has_handshake (hwModule s1)).
  - destruct (is_master (control (options s1))).
    + unfold runAsMaster. now apply (wiring_ok_attach _ pid).
    + unfold runAsSlave. expose.
      eapply wiring_ok_frame;
        [|apply (wiring_ok_attach (SlaveData pid) pid); eauto].
      reflexivity.
  - unfold resolveHandshake.
    eapply wiring_ok_frame with
      (st := set_handshakes
               (settle Resolved (length (handshakes st))
                  (handshakes st ++ [Pending])) st);
      [|now apply wiring_ok_settle_fresh].
    unfold wiring. cbn.
    replace (serialPort s1) with (fst (wiring s1)) by reflexivity.
    replace (handshakes s1) with (snd (wiring s1)) by reflexivity.
    rewrite Hw. reflexivity.
Qed.

Ltac wiring_known :=
  idtac;
  first
    [ wiring_base
    | lazymatch goal with
      | |- wiring_ok (initialize _) => apply wiring_ok_initialize
      | |- wiring_ok (final (runAsMaster_onData _ _ _)) =>
          apply wiring_ok_runAsMaster_onData
      | |- wiring_ok (final (runAsSlave_onData _ _ _)) =>
          apply wiring_ok_runAsSlave_onData
      | |- wiring_ok (flashFirmware_fire _ _) =>
          apply wiring_ok_flashFirmware_fire
      end ].

Ltac wiring_walk := intros; walk wiring_ok_frame wiring_known.

Lemma wiring_ok_runListener l em st :
  wiring_ok st -> wiring_ok (final (runListener l em st)).
Proof. destruct l, em; wiring_walk. Qed.

Lemma wiring_ok_emit ls em st :
  wiring_ok st -> wiring_ok (final (emit ls em st)).
Proof.
  revert st. induction ls as [|l ls IH]; intros st H; simpl; [exact H|].
  apply final_andThen; [now apply wiring_ok_runListener | exact IH].
Qed.

Lemma wiring_ok_run_event ev st :
  wiring_ok st -> wiring_ok (final (run_event ev st)).
Proof.
  destruct ev; try solve [wiring_walk]; intros H; simpl.
  - unfold portEmits. apply wiring_ok_emit. revert H. wiring_walk.
  - unfold parserEmits. now apply wiring_ok_emit.
Qed.

Lemma wiring_ok_step st ev : wiring_ok st -> wiring_ok (step st ev).
Proof.
  intros H. apply (wiring_ok_run_event ev) in H. unfold step.
  destruct (run_event ev st); [exact H|]. revert H. now apply wiring_ok_frame.
Qed.

Lemma wiring_ok_run evs st : wiring_ok st -> wiring_ok (run st evs).
Proof.
  revert st. induction evs as [|ev evs IH]; intros st H; simpl; [exact H|].
  apply IH. now apply wiring_ok_step.
Qed.

(** In every reachable state the listeners are wired as [wiring_ok] says. *)
Lemma wiring_ok_reachable st : reachable st -> wiring_ok st.
Proof.
  intros (hw & cfg & evs & ->). apply wiring_ok_run, wiring_ok_new.
Qed.

(** *** No listener is added in steady state *)




















(** ** Reachability *)

Lemma run_app st evs evs' : run st (evs ++ evs') = run (run st evs) evs'.
Proof. unfold run. apply fold_left_app. Qed.

Lemma reachable_run st evs : reachable st -> reachable (run st evs).
Proof.
  intros (hw & cfg & evs0 & ->). exists hw, cfg, (evs0 ++ evs).
  now rewrite run_app.
Qed.

Lemma reachable_step st ev : reachable st -> reachable (step st ev).
Proof. apply (reachable_run st [ev]). Qed.

(** ** connect() after the handshake *)

Lemma serialPort_connect st r p :
  router st = Some r -> serialPort st = Held p ->
  exists st',
    connect st = Returned st' /\
    serialPort st' =
      Held (onPort (on ev_disconnect Disconnected)
              (onReadStream (on ev_data SteadyData) p)).
Proof.
  intros Hr Hp. unfold connect. rewrite Hr, Hp. cbv zeta.
  erewrite sendState_returns; [|rewrite router_callHook; exact Hr].
  eexists. split; [reflexivity|].
  unfold connect_wire. cbv zeta.
  match goal with
  | |- serialPort (armAdvertise (armLocalPoll (armLossDetection
         (updatePort ?f (updatePort ?g ?s))))) = _ =>
      transitivity (serialPort (updatePort f (updatePort g s)));
      [same|];
      transitivity (mapPort f (mapPort g (serialPort st)))
  end.
  - cbn. do 2 f_equal. same.
  - now rewrite Hp.
Qed.

Lemma dataOf_steady p :
  dataOf (onPort (on ev_disconnect Disconnected)
            (onReadStream (on ev_data SteadyData) p)) =
  match parser p with
  | Some _ => portData p ++ parserData p ++ [SteadyData]
  | None => (portData p ++ [SteadyData]) ++ []
  end.
Proof.
  unfold dataOf, portData, parserData, onReadStream.
  destruct p as [o ls [ps|]]; simpl; rewrite !listenersOf_on; simpl;
    now rewrite ?app_nil_r.
Qed.


(** ** The firmware deadline *)

(** The timer table only grows, and an entry only ever loses its [active]
    flag. *)
Lemma known_timer_frame h cb (st st' : State) :
  timers st' = timers st -> known_timer h cb st -> known_timer h cb st'.
Proof. unfold known_timer. now intros ->. Qed.

Lemma known_timer_added h cb t st :
  known_timer h cb st -> known_timer h cb (set_timers (timers st ++ [t]) st).
Proof.
  intros (t0 & Ht & Hcb). exists t0. split; [|exact Hcb].
  cbn. now apply lookup_app_l_Some.
Qed.

Lemma known_timer_cleared h cb h' st :
  known_timer h cb st -> known_timer h cb (clearTimer h' st).
Proof.
  intros (t0 & Ht & Hcb). unfold known_timer, clearTimer. cbn.
  rewrite list_lookup_alter. case_decide.
  - subst h'. rewrite Ht. exists (deactivate t0). split; [reflexivity | exact Hcb].
  - exists t0. split; [exact Ht | exact Hcb].
Qed.

Ltac timer_known :=
  idtac;
  lazymatch goal with
  | |- known_timer _ _ (set_timers (timers ?s ++ [_]) ?s) =>
      apply known_timer_added
  | |- known_timer _ _ (clearTimer _ _) => apply known_timer_cleared
  end.

Ltac timer_walk h cb := intros; walk (known_timer_frame h cb) timer_known.

Lemma known_timer_runListener h cb l em st :
  known_timer h cb st -> known_timer h cb (final (runListener l em st)).
Proof. destruct l, em; timer_walk h cb. Qed.

Lemma known_timer_emit h cb ls em st :
  known_timer h cb st -> known_timer h cb (final (emit ls em st)).
Proof.
  revert st. induction ls as [|l ls IH]; intros st H; simpl; [exact H|].
  apply final_andThen; [now apply known_timer_runListener | exact IH].
Qed.

Lemma known_timer_step h cb st ev :
  known_timer h cb st -> known_timer h cb (step st ev).
Proof.
  intros H. unfold step.
  assert (Hf : known_timer h cb (final (run_event ev st))).
  { destruct ev; try solve [revert H; timer_walk h cb]; simpl.
    - unfold portEmits. apply known_timer_emit. revert H. timer_walk h cb.
    - unfold parserEmits. now apply known_timer_emit. }
  destruct (run_event ev st); [exact Hf|].
  revert Hf. now apply known_timer_frame.
Qed.

Lemma known_timer_run h cb evs st :
  known_timer h cb st -> known_timer h cb (run st evs).
Proof.
  revert st. induction evs as [|ev evs IH]; intros st H; simpl; [exact H|].
  apply IH. now apply known_timer_step.
Qed.

Lemma settle_pending s pid (l : list PState) :
  l !! pid = Some Pending -> settle s pid l !! pid = Some s.
Proof.
  intros H. unfold settle. rewrite H.
  apply list_lookup_insert_eq. now apply lookup_lt_Some in H.
Qed.

(** What [initialize] arms when [firmwarecheck] is set. *)
Lemma initialize_arms_deadline st p :
  serialPort st = Held p -> firmwarecheck (options st) = true ->
  flashFirmware (initialize st) = Some (length (timers st)) /\
  timers (initialize st) !! length (timers st) =
    Some {| callback := FlashDeadline (length (handshakes st));
            delay := 3000; periodic := false; active := true |}.
Proof.
  intros Hp Hfw. unfold initialize. cbv zeta.
  change (serialPort (set_handshakes _ st)) with (serialPort st).
  change (options (set_handshakes _ st)) with (options st).
  rewrite Hp, Hfw. unfold when.
  set (s1 := armFlashFirmware _ _).
  assert (Hff : flashFirmware s1 = Some (length (timers st))) by reflexivity.
  assert (Ht : timers s1 !! length (timers st) =
               Some {| callback := FlashDeadline (length (handshakes st));
                       delay := 3000; periodic := false; active := true |}).
  { unfold s1, armFlashFirmware. cbn.
    rewrite lookup_app_r by lia. now rewrite Nat.sub_diag. }
  clearbody s1. unfold startHandshake.
  destruct (has_handshake _); [destruct (is_master _)|].
  - split; [exact Hff | exact Ht].
  - unfold runAsSlave. expose. cbn. split; [exact Hff|].
    now apply lookup_app_l_Some.
  - split; [exact Hff | exact Ht].
Qed.

(** The deadline callback on a held port. *)
Lemma flashFirmware_fire_held st p pid :
  wiring_ok st -> serialPort st = Held p ->
  handshakes st !! pid = Some Pending ->
  serialPort (flashFirmware_fire pid st) =
    Held (onReadStream (removeAllListeners ev_data) p) /\
  dataOf (onReadStream (removeAllListeners ev_data) p) = [] /\
  executeFlash (flashFirmware_fire pid st) = true /\
  handshakes (flashFirmware_fire pid st) !! pid = Some Resolved /\
  log (flashFirmware_fire pid st) = log st.
Proof.
  intros [Hc _] Hp Hpid.
  unfold flashFirmware_fire, requestFlash, updateHeld, resolveHandshake.
  rewrite Hp. cbn. repeat split.
  - apply dataOf_removed_framed. apply (Hc p). now rewrite Hp.
  - now apply settle_pending.
Qed.

(** C7.  With [firmwarecheck] set, [initialize] arms a one-shot timer of
    3000 ms and keeps its handle in [flashFirmware].  Whatever happens next,
    if that timer fires while it is still armed, the handshake is still
    pending and the port is still held, then its callback leaves no ['data']
    listener on the port or the parser, sets [executeFlash], resolves the
    promise of [initialize], and raises no error. *)
Theorem firmware_deadline (st : State) (p : SerialPort) :
  reachable st ->
  serialPort st = Held p -> firmwarecheck (options st) = true ->
  let pid := length (handshakes st) in
  let h := length (timers st) in
  flashFirmware (initialize st) = Some h /\
  timers (initialize st) !! h =
    Some {| callback := FlashDeadline pid; delay := 3000; periodic := false;
            active := true |} /\
  forall evs t p2,
    let st2 := run (initialize st) evs in
    timers st2 !! h = Some t -> active t = true ->
    handshakes st2 !! pid = Some Pending ->
    serialPort st2 = Held p2 ->
    let st3 := step st2 (TimerFires h) in
    exists p3,
      serialPort st3 = Held p3 /\ dataOf p3 = [] /\
      executeFlash st3 = true /\
      handshakes st3 !! pid = Some Resolved /\
      log st3 = log st2.
Proof.
  intros Hreach Hp Hfw pid h.
  destruct (initialize_arms_deadline st p Hp Hfw) as [Hff Harm].
  split; [exact Hff|]. split; [exact Harm|].
  intros evs t p2 st2 Ht Hact Hpend Hp2 st3.
  assert (Hk : known_timer h (FlashDeadline pid) st2).
  { apply known_timer_run. eexists. split; [exact Harm | reflexivity]. }
  destruct Hk as (t' & Ht' & Hcb). rewrite Ht in Ht'. injection Ht' as <-.
  assert (Hw : wiring_ok st2).
  { apply wiring_ok_reachable, reachable_run.
    now apply (reachable_step st CallInitialize). }
  set (s := when (negb (periodic t)) (clearTimer h) st2).
  assert (Hst3 : st3 = flashFirmware_fire pid s).
  { unfold st3, step. cbn. unfold fire. now rewrite Ht, Hact, Hcb. }
  assert (Hs : wiring s = wiring st2 /\ log s = log st2)
    by (unfold s, when; destruct (negb _); split; reflexivity).
  destruct Hs as [Hs Hlog].
  assert (Hsp : serialPort s = Held p2)
    by (change (serialPort s) with (fst (wiring s)); now rewrite Hs).
  assert (Hhs : handshakes s !! pid = Some Pending)
    by (change (handshakes s) with (snd (wiring s)); now rewrite Hs).
  destruct (flashFirmware_fire_held s p2 pid
              (wiring_ok_frame _ _ Hs Hw) Hsp Hhs)
    as (H1 & H2 & H3 & H4 & H5).
  rewrite Hst3. eexists. repeat split; eauto. congruence.
Qed.

(** ** The master handshake *)

Lemma andThen_Returned o : andThen o Returned = o.
Proof. now destruct o. Qed.

(** With one listener registered, [emit] is that listener. *)
Lemma emit_single l em st : emit [l] em st = runListener l em st.
Proof. simpl. unfold andThen. now destruct (runListener l em st). Qed.

(** What [initialize] registers in the master role. *)
Lemma initialize_master st p :
  serialPort st = Held p -> has_handshake (hwModule st) = true ->
  is_master (control (options st)) = true ->
  serialPort (initialize st) =
    Held (onReadStream (on ev_data (MasterData (length (handshakes st)))) p).
Proof.
  intros Hp Hh Hm. unfold initialize. cbv zeta.
  change (serialPort (set_handshakes _ st)) with (serialPort st). rewrite Hp.
  set (s1 := when _ _ _).
  assert (Hs1 : hwModule s1 = hwModule st /\ options s1 = options st /\
                serialPort s1 = serialPort st).
  { unfold s1, when. destruct (firmwarecheck _); repeat split. }
  destruct Hs1 as (H1 & H2 & H3).
  unfold startHandshake. rewrite H1, H2, Hh, Hm.
  unfold runAsMaster. cbn. now rewrite H3, Hp.
Qed.

(** The state in which a master or slave listener settles the handshake:
    the ['data'] listeners are gone and the deadline is cancelled. *)
Lemma master_detached st :
  let s := clearIfSet
             (flashFirmware
                (updatePort (onReadStream (removeAllListeners ev_data))
                   (updatePort (onPort (removeAllListeners ev_data)) st)))
             (updatePort (onReadStream (removeAllListeners ev_data))
                (updatePort (onPort (removeAllListeners ev_data)) st)) in
  (forall p, portObject (serialPort s) = Some p -> dataOf p = []) /\
  (forall h t, flashFirmware st = Some h -> timers s !! h = Some t ->
               active t = false) /\
  handshakes s = handshakes st /\ log s = log st /\
  hwModule s = hwModule st.
Proof.
  cbv zeta. set (s2 := updatePort _ (updatePort _ st)).
  assert (Hsp : serialPort s2 =
                mapPort (onReadStream (removeAllListeners ev_data))
                  (mapPort (onPort (removeAllListeners ev_data))
                     (serialPort st))) by reflexivity.
  assert (Hff : flashFirmware s2 = flashFirmware st) by reflexivity.
  rewrite Hff. repeat split.
  - intros p Hp.
    assert (Hs : serialPort (clearIfSet (flashFirmware st) s2) = serialPort s2)
      by (destruct (flashFirmware st); reflexivity).
    rewrite Hs, Hsp in Hp.
    destruct (serialPort st) as [|p0|p0]; cbn in Hp; try discriminate;
      injection Hp as <-; apply dataOf_removed.
  - intros h t Hh. rewrite Hh. apply clearTimer_stops.
  - destruct (flashFirmware st); reflexivity.
  - destruct (flashFirmware st); reflexivity.
  - destruct (flashFirmware st); reflexivity.
Qed.

Lemma masterVerdict_facts pid r s :
  serialPort (masterVerdict pid r s) = serialPort s /\
  timers (masterVerdict pid r s) = timers s /\
  log (masterVerdict pid r s) =
    (if is_true r && setSerialPort (hwModule s) then [HwSetSerialPort]
     else []) ++ log s /\
  handshakes (masterVerdict pid r s) =
    settle (if is_true r then Resolved
            else Rejected (PlainError "Invalid hardware")) pid (handshakes s).
Proof.
  unfold masterVerdict, resolveHandshake, rejectHandshake, callHook, when.
  destruct (is_true r), (setSerialPort (hwModule s)); repeat split.
Qed.

(** C4.  The master listener calls [checkInitialData] on the frame and then
    does exactly one of three things.  On [undefined] it sends
    [requestInitialData()] through [send] and leaves listeners and promise
    alone.  On [true] it removes the ['data'] listeners, cancels the
    deadline timer, calls [setSerialPort] when the module has it, and
    resolves the promise.  On anything else it rejects the promise with
    [Error('Invalid hardware')].  When it is the only ['data'] listener, a
    frame emitted by the port or the parser runs it once. *)
Theorem master_handshake_outcomes (st : State) (pid : nat) (d : Frame)
    (check : Frame -> JsVal) (rq : Payload) :
  checkInitialData (hwModule st) = Some check ->
  requestInitialData (hwModule st) = Some rq ->
  handshakes st !! pid = Some Pending ->
  let st0 := effect (HwCheckInitialData d) st in
  (exists st',
     runAsMaster_onData pid d st = Returned st' /\
     match check d with
     | JUndefined =>
         st' = send rq false (effect HwRequestInitialData st0) /\
         serialPort st' = serialPort st /\ handshakes st' = handshakes st
     | JBool true =>
         (forall p, portObject (serialPort st') = Some p -> dataOf p = []) /\
         (forall h t, flashFirmware st = Some h -> timers st' !! h = Some t ->
                      active t = false) /\
         log st' = (if setSerialPort (hwModule st) then [HwSetSerialPort]
                    else []) ++ log st0 /\
         handshakes st' !! pid = Some Resolved
     | _ =>
         (forall p, portObject (serialPort st') = Some p -> dataOf p = []) /\
         (forall h t, flashFirmware st = Some h -> timers st' !! h = Some t ->
                      active t = false) /\
         log st' = log st0 /\
         handshakes st' !! pid =
           Some (Rejected (PlainError "Invalid hardware"))
     end) /\
  (portListeners ev_data (serialPort st) = [MasterData pid] ->
   run_event (PortEmits (EmData d)) st = runAsMaster_onData pid d st) /\
  (parserListeners ev_data (serialPort st) = [MasterData pid] ->
   run_event (ParserEmits d) st = runAsMaster_onData pid d st).
Proof.
  intros Hcheck Hrq Hpend st0. split.
  - unfold runAsMaster_onData. rewrite Hcheck. cbv zeta. fold st0.
    pose proof (master_detached st0) as Hm. cbv zeta in Hm.
    set (s := clearIfSet _ _) in *.
    destruct Hm as (Hd & Ht & Hhs & Hlog & Hhw). clearbody s.
    change (hwModule st0) with (hwModule st) in Hhw.
    change (handshakes st0) with (handshakes st) in Hhs.
    change (flashFirmware st0) with (flashFirmware st) in Ht.
    destruct (masterVerdict_facts pid (check d) s) as (F1 & F2 & F3 & F4).
    rewrite Hhw, Hlog in F3. rewrite Hhs in F4.
    assert (Hsettle : forall v, settle v pid (handshakes st) !! pid = Some v)
      by (intros v; now apply settle_pending).
    destruct (check d) as [| |[|]| |] eqn:Hres; cbn [is_undefined];
      try (eexists; split; [reflexivity|];
           rewrite F1, F2, F3, F4; cbn [is_true andb app];
           repeat split; [exact Hd | exact Ht | apply Hsettle]).
    unfold callRequestInitialData.
    change (requestInitialData (hwModule st0)) with
      (requestInitialData (hwModule st)).
    rewrite Hrq. eexists. split; [reflexivity|]. repeat split.
    + transitivity (serialPort st0); [same | reflexivity].
    + transitivity (handshakes st0); [same | reflexivity].
  - split; intros Hl; cbn; unfold portEmits, parserEmits;
      cbn [noteOpen eventOf]; rewrite Hl; apply emit_single.
Qed.

(** ** Loss detection *)

Lemma unlinked_frame hw n (st st' : State) :
  link st' = link st -> unlinked hw n st -> unlinked hw n st'.
Proof.
  unfold link, unlinked. intros H; injection H as H1 H2 H3.
  now rewrite H1, H2, H3.
Qed.

Lemma unlinked_disconnect hw n st :
  unlinked hw n st -> unlinked hw n (set_connected false st).
Proof. intros (H1 & H2 & H3). repeat split; assumption. Qed.

(** While not connected, the loss timer does nothing. *)
Lemma unlinked_tick hw n st :
  unlinked hw n st -> unlinked hw n (final (connectionLostTimer_tick st)).
Proof.
  intros H. unfold connectionLostTimer_tick.
  destruct H as (H1 & H2 & H3). rewrite H2. repeat split; assumption.
Qed.

Ltac link_known :=
  idtac;
  lazymatch goal with
  | |- unlinked _ _ (set_connected false _) => apply unlinked_disconnect
  | |- unlinked _ _ (final (connectionLostTimer_tick _)) =>
      apply unlinked_tick
  end.

Ltac link_walk hw n := intros; walk (unlinked_frame hw n) link_known.

Lemma unlinked_runListener hw n l em st :
  (forall d, em = EmData d -> is_steady l = true -> accepted hw d = false) ->
  unlinked hw n st -> unlinked hw n (final (runListener l em st)).
Proof.
  intros Hacc. destruct l, em; try solve [link_walk hw n].
  intros H. simpl. unfold connect_onData.
  destruct H as (H1 & H2 & H3). rewrite H1, (Hacc d eq_refl eq_refl).
  repeat split; assumption.
Qed.

Lemma unlinked_emit hw n ls em st :
  (forall d, em = EmData d -> existsb is_steady ls = true ->
             accepted hw d = false) ->
  unlinked hw n st -> unlinked hw n (final (emit ls em st)).
Proof.
  revert st. induction ls as [|l ls IH]; intros st Hacc H; simpl; [exact H|].
  apply final_andThen.
  - apply unlinked_runListener; [|exact H].
    intros d Hd Hl. apply (Hacc d Hd). simpl. now rewrite Hl.
  - intros s Hs. apply IH; [|exact Hs].
    intros d Hd Hl. apply (Hacc d Hd). simpl. rewrite Hl. apply orb_true_r.
Qed.

Lemma unlinked_step hw n st ev :
  accepts st ev = false -> unlinked hw n st -> unlinked hw n (step st ev).
Proof.
  intros Hacc H. unfold step.
  assert (Hf : unlinked hw n (final (run_event ev st))).
  { destruct ev; try solve [revert H; link_walk hw n]; simpl.
    - unfold portEmits. apply unlinked_emit.
      + intros d ->. cbn [noteOpen eventOf]. intros Hl.
        simpl in Hacc. rewrite Hl in Hacc. destruct H as (<- & _). exact Hacc.
      + revert H. link_walk hw n.
    - unfold parserEmits. apply unlinked_emit; [|exact H].
      intros d0 Hd Hl. injection Hd as <-.
      simpl in Hacc. rewrite Hl in Hacc. destruct H as (<- & _). exact Hacc. }
  destruct (run_event ev st); [exact Hf|].
  revert Hf. now apply unlinked_frame.
Qed.

Lemma unlinked_run hw n evs st :
  silent st evs -> unlinked hw n st -> unlinked hw n (run st evs).
Proof.
  revert st. induction evs as [|ev evs IH]; intros st Hs H; simpl; [exact H|].
  destruct Hs as [Hacc Hs]. apply IH; [exact Hs|]. now apply unlinked_step.
Qed.

(** *** The built-in monitor is armed by [connect] only, and only without
    [lostController] *)

Lemma delegated_frame (st st' : State) :
  clockwork st' = clockwork st -> delegated st -> delegated st'.
Proof.
  unfold clockwork, delegated. intros H; injection H as H1 H2.
  now rewrite H1, H2.
Qed.

Lemma delegated_added t st :
  delegated st ->
  (callback t = LostTick -> lostController (hwModule st) = false) ->
  delegated (set_timers (timers st ++ [t]) st).
Proof.
  intros Hd Ht Hlc h t' Hl. cbn in Hlc, Hl.
  apply lookup_app_Some in Hl as [Hl | [_ Hl]]; [now apply (Hd Hlc h)|].
  apply list_lookup_singleton_Some in Hl as [_ <-].
  intros Hcb. specialize (Ht Hcb). congruence.
Qed.

Lemma delegated_cleared h st : delegated st -> delegated (clearTimer h st).
Proof.
  intros Hd Hlc h' t Hl. unfold clearTimer in Hl. cbn in Hl, Hlc.
  rewrite list_lookup_alter in Hl. case_decide.
  - subst h'. destruct (timers st !! h) as [t0|] eqn:Ht0; [|discriminate].
    injection Hl as <-. exact (Hd Hlc h t0 Ht0).
  - exact (Hd Hlc h' t Hl).
Qed.

Ltac delegated_known :=
  idtac;
  lazymatch goal with
  | |- delegated (set_timers (timers ?s ++ [?t]) ?s) =>
      apply (delegated_added t s);
      [ | solve [ intros; assumption | cbn; intros; discriminate ] ]
  | |- delegated (clearTimer _ _) => apply delegated_cleared
  end.

Ltac delegated_walk := intros; walk delegated_frame delegated_known.

Lemma delegated_runListener l em st :
  delegated st -> delegated (final (runListener l em st)).
Proof. destruct l, em; delegated_walk. Qed.

Lemma delegated_emit ls em st :
  delegated st -> delegated (final (emit ls em st)).
Proof.
  revert st. induction ls as [|l ls IH]; intros st H; simpl; [exact H|].
  apply final_andThen; [now apply delegated_runListener | exact IH].
Qed.

Lemma delegated_step st ev : delegated st -> delegated (step st ev).
Proof.
  intros H. unfold step.
  assert (Hf : delegated (final (run_event ev st))).
  { destruct ev; try solve [revert H; delegated_walk]; simpl.
    - unfold portEmits. apply delegated_emit. revert H. delegated_walk.
    - unfold parserEmits. now apply delegated_emit. }
  destruct (run_event ev st); [exact Hf|].
  revert Hf. now apply delegated_frame.
Qed.

Lemma delegated_reachable st : reachable st -> delegated st.
Proof.
  intros (hw & cfg & evs & ->). revert evs.
  assert (H0 : delegated (new hw cfg)) by (intros _ h t Hl; discriminate).
  revert H0. generalize (new hw cfg). intros st H evs. revert st H.
  induction evs as [|ev evs IH]; intros st H; simpl; [exact H|].
  apply IH. now apply delegated_step.
Qed.

(** *** What [connect] arms *)

Lemma has_timer_frame h t (st st' : State) :
  timers st' = timers st -> has_timer h t st -> has_timer h t st'.
Proof. unfold has_timer. now intros ->. Qed.

Lemma has_timer_added h t t' st :
  has_timer h t st -> has_timer h t (set_timers (timers st ++ [t']) st).
Proof. unfold has_timer. cbn. apply lookup_app_l_Some. Qed.

Ltac has_timer_known :=
  idtac;
  lazymatch goal with
  | |- has_timer _ _ (set_timers (timers ?s ++ [_]) ?s) =>
      apply has_timer_added
  end.

Lemma called_frame e (st st' : State) :
  log st' = log st -> called e st -> called e st'.
Proof. unfold called. now intros ->. Qed.

Lemma called_effect e e' st : called e st -> called e (effect e' st).
Proof. unfold called. cbn. now right. Qed.

Ltac called_known :=
  idtac;
  lazymatch goal with
  | |- called _ (effect _ _) => apply called_effect
  end.

Lemma armLossDetection_own st :
  lostController (hwModule st) = false ->
  connectionLostTimer (armLossDetection st) = Some (length (timers st)) /\
  has_timer (length (timers st))
    {| callback := LostTick; delay := lostTimer st; periodic := true;
       active := true |} (armLossDetection st).
Proof.
  intros H. unfold armLossDetection. rewrite H. cbn. split; [reflexivity|].
  unfold has_timer. cbn. rewrite lookup_app_r by lia.
  now rewrite Nat.sub_diag.
Qed.

Lemma armLossDetection_delegated st :
  lostController (hwModule st) = true ->
  armLossDetection st = effect HwLostController st.
Proof. intros H. unfold armLossDetection. now rewrite H. Qed.

(** [connect] on a held port with a router: the loss timer it arms, or the
    call to [lostController] it makes instead. *)
Lemma connect_loss_detection st r p :
  router st = Some r -> serialPort st = Held p ->
  exists st',
    connect st = Returned st' /\
    if lostController (hwModule st) then
      connectionLostTimer st' = connectionLostTimer st /\
      called HwLostController st'
    else
      exists h,
        connectionLostTimer st' = Some h /\
        has_timer h {| callback := LostTick; delay := lostTimer st;
                       periodic := true; active := true |} st'.
Proof.
  intros Hr Hp. unfold connect. rewrite Hr, Hp. cbv zeta.
  erewrite sendState_returns; [|rewrite router_callHook; exact Hr].
  eexists. split; [reflexivity|].
  unfold connect_wire. cbv zeta.
  match goal with
  | |- context [armLossDetection ?x] => set (X := x)
  end.
  assert (Hhw : hwModule X = hwModule st) by (unfold X; same).
  assert (Hlt : lostTimer X = lostTimer st) by (unfold X; same).
  assert (Hclt : connectionLostTimer X = connectionLostTimer st)
    by (unfold X; same).
  clearbody X. rewrite <- Hhw, <- Hlt, <- Hclt.
  destruct (lostController (hwModule X)) eqn:Hlc.
  - rewrite (armLossDetection_delegated X Hlc). split.
    + same.
    + assert (H0 : called HwLostController (effect HwLostController X))
        by (now left).
      revert H0. generalize (effect HwLostController X).
      intros; walk (called_frame HwLostController) called_known.
  - destruct (armLossDetection_own X Hlc) as [H1 H2].
    exists (length (timers X)). split.
    + rewrite <- H1. same.
    + revert H2. generalize (armLossDetection X).
      intros; walk (has_timer_frame (length (timers X))
                      {| callback := LostTick; delay := lostTimer X;
                         periodic := true; active := true |})
                   has_timer_known.
Qed.

(** *** The tick *)

Lemma lost_emissions_effect e st :
  lost_emissions (effect e st) =
  (if is_lost e then 1 else 0) + lost_emissions st.
Proof. unfold lost_emissions. cbn. now destruct (is_lost e). Qed.

Lemma tick_lost st r :
  connected st = true -> received st = false -> router st = Some r ->
  exists st',
    connectionLostTimer_tick st = Returned st' /\
    connected st' = false /\ received st' = false /\
    lost_emissions st' = S (lost_emissions st).
Proof.
  intros Hc Hrc Hr. unfold connectionLostTimer_tick, declareLost.
  rewrite Hc, Hrc. cbn [negb].
  erewrite sendState_returns by exact Hr. cbn [andThen].
  eexists. split; [reflexivity|]. repeat split.
  - unfold callHook, when. now destruct (eventController _).
  - change (lost_emissions (set_received false ?s)) with (lost_emissions s).
    rewrite lost_emissions_effect. cbn.
    unfold callHook, when. now destruct (eventController _).
Qed.

(** C5.  On a held port with a router, [connect] arms the loss monitor when
    the module has no [lostController]: a repeating timer of [lostTimer]
    ms.  With [lostController] the module is called instead, and in no
    reachable state does the timer table hold a loss timer.  A tick does
    nothing while not connected; while connected it clears [received] when
    a frame came in the window, and otherwise marks the connection lost and
    hands [lost] to the router once.  After that, as long as no frame is
    accepted by the steady-state listener, the state stays not connected
    and [lost] is not handed out again. *)
Theorem loss_monitor (st : State) :
  (forall r p, router st = Some r -> serialPort st = Held p ->
     exists st',
       connect st = Returned st' /\
       if lostController (hwModule st) then
         connectionLostTimer st' = connectionLostTimer st /\
         called HwLostController st'
       else
         exists h,
           connectionLostTimer st' = Some h /\
           has_timer h {| callback := LostTick; delay := lostTimer st;
                          periodic := true; active := true |} st') /\
  (reachable st -> lostController (hwModule st) = true ->
   forall h t, timers st !! h = Some t -> callback t <> LostTick) /\
  (connected st = false -> connectionLostTimer_tick st = Returned st) /\
  (connected st = true -> received st = true ->
   connectionLostTimer_tick st = Returned (set_received false st)) /\
  (forall r, connected st = true -> received st = false ->
     router st = Some r ->
     exists st',
       connectionLostTimer_tick st = Returned st' /\
       connected st' = false /\ received st' = false /\
       lost_emissions st' = S (lost_emissions st)) /\
  (connected st = false ->
   forall evs, silent st evs ->
     connected (run st evs) = false /\
     lost_emissions (run st evs) = lost_emissions st).
Proof.
  repeat split.
  - intros r p. apply connect_loss_detection.
  - intros Hreach. now apply delegated_reachable.
  - intros Hc. unfold connectionLostTimer_tick. now rewrite Hc.
  - intros Hc Hrc. unfold connectionLostTimer_tick, declareLost.
    now rewrite Hc, Hrc.
  - intros r Hc Hrc Hr. now apply (tick_lost st r).
  - apply (unlinked_run (hwModule st) (lost_emissions st) evs st); auto.
    repeat split; assumption.
  - apply (unlinked_run (hwModule st) (lost_emissions st) evs st); auto.
    repeat split; assumption.
Qed.

(** ** The theorems at concrete connectors *)

Lemma opened_reachable hw cfg : reachable (opened hw cfg).
Proof. exists hw, cfg. eexists. reflexivity. Defined.

Lemma send_gate_witness :
  send PAbsent false (opened bareModule plainConfig) =
    opened bareModule plainConfig /\
  isSending (send (PBytes [1%Z]) false (opened bareModule plainConfig)) = true.
Proof.
  destruct (send_gate (opened bareModule plainConfig) PAbsent false
              (opened_reachable bareModule plainConfig)) as (H1 & _).
  destruct (send_gate (opened bareModule plainConfig) (PBytes [1%Z]) false
              (opened_reachable bareModule plainConfig)) as (_ & H2 & _).
  split; [apply H1 | apply H2]; vm_compute; reflexivity.
Defined.


Lemma firmware_deadline_witness :
  executeFlash
    (step (run (initialize (opened handshakeModule firmwareConfig)) [])
          (TimerFires (length (timers (opened handshakeModule firmwareConfig)))))
  = true.
Proof.
  destruct (firmware_deadline (opened handshakeModule firmwareConfig)
              {| isOpen := true; listeners := [(ev_error, OpenReject 0)];
                 parser := None |}) as (_ & _ & H).
  - apply opened_reachable.
  - vm_compute. reflexivity.
  - vm_compute. reflexivity.
  - destruct (H [] {| callback := FlashDeadline 0; delay := 3000;
                      periodic := false; active := true |}
                {| isOpen := true;
                   listeners := [(ev_error, OpenReject 0);
                                 (ev_data, SlaveData 0)];
                   parser := None |}) as (p3 & _ & _ & Hx & _).
    + vm_compute. reflexivity.
    + reflexivity.
    + vm_compute. reflexivity.
    + vm_compute. reflexivity.
    + exact Hx.
Defined.

Lemma master_handshake_outcomes_witness :
  exists st',
    runAsMaster_onData 0 "ok" awaiting = Returned st' /\
    handshakes st' !! 0 = Some Resolved.
Proof.
  destruct (master_handshake_outcomes awaiting 0 "ok"
              (fun d => if String.eqb d "ok" then JBool true
                        else if String.eqb d "no" then JBool false
                        else JUndefined)
              (PBytes [1%Z]))
    as ((st' & H1 & H2) & _).
  - vm_compute. reflexivity.
  - vm_compute. reflexivity.
  - vm_compute. reflexivity.
  - vm_compute in H2. destruct H2 as (_ & _ & _ & H2).
    exists st'. split; [exact H1 | exact H2].
Defined.

Lemma loss_monitor_witness :
  exists st',
    connectionLostTimer_tick silenced = Returned st' /\
    connected st' = false /\
    lost_emissions st' = S (lost_emissions silenced).
Proof.
  destruct (loss_monitor silenced) as (_ & _ & _ & _ & H & _).
  destruct (H TheRouter) as (st' & H1 & H2 & _ & H3).
  - vm_compute. reflexivity.
  - vm_compute. reflexivity.
  - vm_compute. reflexivity.
  - exists st'. repeat split; assumption.
Defined.

(** * Further properties of the code *)

(** ** Serial-port options *)


(** ** open(): the parser and the promise *)

(** X2.  The port [open] creates is held, not open yet, and carries the
    parser chosen from the configuration: a [Readline] parser when
    [delimiter] is a non-empty string, whatever [byteDelimiter] is;
    otherwise (no [delimiter], or the empty string) a [Delimiter] parser
    that keeps the delimiter when [byteDelimiter] is given; otherwise none.
    The port is piped into the parser exactly when there is one. *)
Theorem open_parser_choice (port : string) (st : State) :
  let ps :=
    match delimiter (options st), byteDelimiter (options st) with
    | Some s, bs =>
        if String.eqb s "" then
          match bs with
          | Some b => Some (Delimiter b true)
          | None => None
          end
        else Some (Readline s)
    | None, Some b => Some (Delimiter b true)
    | None, None => None
    end in
  exists p,
    serialPort (open port st) = Held p /\ isOpen p = false /\
    parser p =
      match ps with
      | Some k => Some {| kind := k; parser_listeners := [] |}
      | None => None
      end /\
    log (open port st) =
      match ps with
      | Some k => [Pipe k]
      | None => []
      end ++
      NewSerialPort port (_makeSerialPortOptions (serial (options st))) ::
      log st.
Proof.
  cbv zeta. eexists. split; [apply serialPort_open|]. cbn [isOpen parser].
  split; [reflexivity|]. unfold open, makeParser, truthy_str, logPipe. cbn.
  destruct (delimiter (options st)) as [s|], (byteDelimiter (options st));
    try destruct (String.eqb s ""); cbn; split; reflexivity.
Qed.

(** X3.  The promise of [open] is settled by the first of the port's
    ['open'] and ['error'] events.  ['open'] without an error resolves it
    and the port is open; the ['open'] listener is then gone, the ['error']
    listener stays.  ['open'] with an error, or ['error'], rejects it with
    that error.  After a rejection by ['error'] the port may still open:
    the promise stays rejected. *)
Theorem open_promise_settles (port : string) (st : State) :
  let pid := length (opens st) in
  let st1 := open port st in
  opens st1 = opens st ++ [Pending] /\
  (let st2 := step st1 (PortEmits (EmOpen None)) in
   opens st2 = opens st ++ [Resolved] /\ transport_open st2 = true /\
   portListeners ev_open (serialPort st2) = [] /\
   portListeners ev_error (serialPort st2) = [OpenReject pid]) /\
  (forall e,
     let st2 := step st1 (PortEmits (EmOpen (Some e))) in
     opens st2 = opens st ++ [Rejected e] /\ transport_open st2 = false) /\
  (forall e,
     let st2 := step st1 (PortEmits (EmError e)) in
     opens st2 = opens st ++ [Rejected e] /\
     let st3 := step st2 (PortEmits (EmOpen None)) in
     opens st3 = opens st ++ [Rejected e] /\ transport_open st3 = true).
Proof.
  cbv zeta.
  assert (Ho : opens (open port st) = opens st ++ [Pending])
    by (unfold open; cbv zeta; destruct (makeParser _); reflexivity).
  pose proof (serialPort_open port st) as Hsp.
  assert (Hsettled : forall s s',
             settle s' (length (opens st)) (opens st ++ [s]) =
             opens st ++ [match s with Pending => s' | _ => s end]).
  { intros s s'. unfold settle. rewrite lookup_app_r by lia.
    rewrite Nat.sub_diag. cbn. destruct s; try reflexivity.
    rewrite insert_app_r_alt by lia. now rewrite Nat.sub_diag. }
  revert Ho Hsp. generalize (open port st). intros s1 Ho Hsp.
  split; [exact Ho|].
  unfold step, run_event, portEmits, transport_open, portListeners.
  cbn [noteOpen eventOf]. unfold updatePort. rewrite Hsp.
  repeat split;
    repeat (progress (cbn -[settle]; rewrite ?Hsp, ?Ho, ?Hsettled));
    reflexivity.
Qed.

(** ** initialize() *)

Lemma initialize_unheld (st : State) :
  transport_held st = false ->
  initialize st =
  set_handshakes
    (handshakes st ++
     [Rejected (JsTypeError "Cannot read property 'parser' of undefined")])
    st.
Proof.
  intros Hp. unfold initialize, transport_held in *. cbv zeta.
  change (serialPort (set_handshakes _ st)) with (serialPort st).
  destruct (serialPort st); try discriminate;
    unfold rejectHandshake; cbn -[settle];
    rewrite settle_fresh; reflexivity.
Qed.

(** X4.  [initialize] without a held port (before [open], or after [close]
    has released the port) rejects its promise with a [TypeError] and does
    nothing else: no timer is armed and no listener registered. *)
Theorem initialize_without_port_rejects (st : State) :
  transport_held st = false ->
  exists msg,
    initialize st =
    set_handshakes (handshakes st ++ [Rejected (JsTypeError msg)]) st.
Proof.
  intros Hp. eexists. now apply initialize_unheld.
Qed.

Lemma initialize_without_port_rejects_witness :
  exists msg,
    initialize (new bareModule plainConfig) =
    set_handshakes
      (handshakes (new bareModule plainConfig) ++ [Rejected (JsTypeError msg)])
      (new bareModule plainConfig).
Proof.
  apply (initialize_without_port_rejects (new bareModule plainConfig)).
  reflexivity.
Defined.

(** ** The slave handshake *)

(** X5.  In the slave role (any [control] other than ['master']), with both
    handshake hooks and a held port, [initialize] registers its ['data']
    listener on the read stream, leaves the promise pending, sends nothing
    yet, and arms the repeating poll timer kept in [slaveTimer].  The
    interval is the configured [duration], 1000 ms when it is left out; a
    [duration] of [0] is kept. *)
Theorem initialize_slave_starts_polling (st : State) (p : SerialPort) :
  serialPort st = Held p -> has_handshake (hwModule st) = true ->
  is_master (control (options st)) = false ->
  let pid := length (handshakes st) in
  let st' := initialize st in
  serialPort st' = Held (onReadStream (on ev_data (SlaveData pid)) p) /\
  handshakes st' = handshakes st ++ [Pending] /\
  log st' = log st /\ inflight st' = inflight st /\
  exists h,
    slaveTimer st' = Some h /\
    timers st' !! h =
      Some {| callback := SlavePoll;
              delay := match duration (options st) with
                       | Some ms => ms
                       | None => 1000%Z
                       end;
              periodic := true; active := true |}.
Proof.
  intros Hp Hh Hm. cbv zeta. unfold initialize. cbv zeta.
  change (serialPort (set_handshakes _ st)) with (serialPort st). rewrite Hp.
  set (s1 := when _ _ _).
  assert (Hs1 : hwModule s1 = hwModule st /\ options s1 = options st /\
                serialPort s1 = serialPort st /\
                handshakes s1 = handshakes st ++ [Pending] /\
                log s1 = log st /\ inflight s1 = inflight st).
  { unfold s1, when. destruct (firmwarecheck _); repeat split. }
  destruct Hs1 as (H1 & H2 & H3 & H4 & H5 & H6). clearbody s1.
  unfold startHandshake. rewrite H1, H2, Hh, Hm.
  unfold runAsSlave. expose. cbn. rewrite H3, Hp, H4, H5, H6.
  repeat split. exists (length (timers s1)). split; [reflexivity|].
  rewrite lookup_app_r by lia. now rewrite Nat.sub_diag.
Qed.

Lemma initialize_slave_starts_polling_witness :
  handshakes (initialize (opened handshakeModule plainConfig)) =
    handshakes (opened handshakeModule plainConfig) ++ [Pending] /\
  log (initialize (opened handshakeModule plainConfig)) =
    log (opened handshakeModule plainConfig).
Proof.
  destruct (initialize_slave_starts_polling
              (opened handshakeModule plainConfig)
              {| isOpen := true; listeners := [(ev_error, OpenReject 0)];
                 parser := None |})
    as (_ & H1 & H2 & _).
  - vm_compute. reflexivity.
  - vm_compute. reflexivity.
  - vm_compute. reflexivity.
  - split; [exact H1 | exact H2].
Defined.

(** A stopped timer stays stopped when another is cleared. *)
Lemma clearTimer_keeps_stopped h h' st :
  (forall t, timers st !! h = Some t -> active t = false) ->
  forall t, timers (clearTimer h' st) !! h = Some t -> active t = false.
Proof.
  intros H t. unfold clearTimer. cbn. rewrite list_lookup_alter.
  case_decide.
  - destruct (timers st !! h'); cbn; intros E; [|discriminate].
    now injection E as <-.
  - apply H.
Qed.

Lemma clearIfSet_keeps_stopped h o st :
  (forall t, timers st !! h = Some t -> active t = false) ->
  forall t, timers (clearIfSet o st) !! h = Some t -> active t = false.
Proof.
  destruct o; [apply clearTimer_keeps_stopped | auto].
Qed.

Lemma slaveVerdict_facts pid r s :
  serialPort (slaveVerdict pid r s) = serialPort s /\
  timers (slaveVerdict pid r s) = timers s /\
  handshakes (slaveVerdict pid r s) =
    settle (if is_true r then Resolved
            else Rejected (PlainError "Invalid hardware")) pid (handshakes s) /\
  log (slaveVerdict pid r s) =
    (if is_true r then
       match resetProperty (hwModule s) with
       | Some rp =>
           (if may_send rp s then [PortWrite (encode (options s) rp)] else [])
           ++ [HwResetProperty]
       | None => []
       end ++
       (if setSerialPort (hwModule s) then [HwSetSerialPort] else [])
     else []) ++ log s.
Proof.
  unfold slaveVerdict, resolveHandshake, rejectHandshake, sendResetProperty,
    callHook, when.
  destruct (is_true r); [|repeat split].
  destruct (setSerialPort (hwModule s)); cbn;
    destruct (resetProperty (hwModule s)) as [rp|]; cbn;
    try (repeat split; fail);
    unfold send, may_send; cbn;
    destruct (serialPort s) as [|q|q] eqn:Hsp; cbn;
    try (repeat split; assumption);
    match goal with
    | |- context [isOpen ?q && ?a && ?b] => destruct (isOpen q && a && b)
    end; repeat split; assumption.
Qed.

(** X6.  The slave listener calls [checkInitialData] on the frame.  On
    [undefined] it does nothing more: nothing is sent, asking again is left
    to the poll timer.  On any other result it removes the ['data']
    listeners and stops both the deadline timer and the poll timer; the
    handles stay in [flashFirmware] and [slaveTimer].  On [true] it then
    calls [setSerialPort] when the module has it, sends [resetProperty()]
    through [send] when the module has it, and resolves the promise; on
    anything else it rejects the promise with [Error('Invalid hardware')]. *)
Theorem slave_handshake_outcomes (st : State) (p : SerialPort) (pid : nat)
    (d : Frame) (check : Frame -> JsVal) :
  checkInitialData (hwModule st) = Some check ->
  serialPort st = Held p ->
  handshakes st !! pid = Some Pending ->
  let st0 := effect (HwCheckInitialData d) st in
  exists st',
    runAsSlave_onData pid d st = Returned st' /\
    match check d with
    | JUndefined => st' = st0
    | result =>
        (exists p',
           serialPort st' = Held p' /\ dataOf p' = [] /\
           isOpen p' = isOpen p) /\
        (forall h t,
           flashFirmware st = Some h \/ slaveTimer st = Some h ->
           timers st' !! h = Some t -> active t = false) /\
        flashFirmware st' = flashFirmware st /\
        slaveTimer st' = slaveTimer st /\
        handshakes st' !! pid =
          Some (if is_true result then Resolved
                else Rejected (PlainError "Invalid hardware")) /\
        log st' =
          (if is_true result then
             match resetProperty (hwModule st) with
             | Some rp =>
                 (if isOpen p && truthy rp && negb (isSending st)
                  then [PortWrite (encode (options st) rp)] else [])
                 ++ [HwResetProperty]
             | None => []
             end ++
             (if setSerialPort (hwModule st) then [HwSetSerialPort] else [])
           else []) ++ log st0
    end.
Proof.
  intros Hcheck Hp Hpend st0. unfold runAsSlave_onData. rewrite Hcheck.
  cbv zeta. fold st0.
  assert (Hgo : is_undefined (check d) = false ->
    exists st',
      Returned
        (slaveVerdict pid (check d)
           (clearIfSet
              (slaveTimer
                 (clearIfSet
                    (flashFirmware
                       (updatePort (onReadStream (removeAllListeners ev_data))
                          (detachHeldData st0)))
                    (updatePort (onReadStream (removeAllListeners ev_data))
                       (detachHeldData st0))))
              (clearIfSet
                 (flashFirmware
                    (updatePort (onReadStream (removeAllListeners ev_data))
                       (detachHeldData st0)))
                 (updatePort (onReadStream (removeAllListeners ev_data))
                    (detachHeldData st0))))) = Returned st' /\
      (exists p',
         serialPort st' = Held p' /\ dataOf p' = [] /\ isOpen p' = isOpen p) /\
      (forall h t,
         flashFirmware st = Some h \/ slaveTimer st = Some h ->
         timers st' !! h = Some t -> active t = false) /\
      flashFirmware st' = flashFirmware st /\
      slaveTimer st' = slaveTimer st /\
      handshakes st' !! pid =
        Some (if is_true (check d) then Resolved
              else Rejected (PlainError "Invalid hardware")) /\
      log st' =
        (if is_true (check d) then
           match resetProperty (hwModule st) with
           | Some rp =>
               (if isOpen p && truthy rp && negb (isSending st)
                then [PortWrite (encode (options st) rp)] else [])
               ++ [HwResetProperty]
           | None => []
           end ++
           (if setSerialPort (hwModule st) then [HwSetSerialPort] else [])
         else []) ++ log st0).
  { intros _. eexists. split; [reflexivity|].
    set (s3 := updatePort _ (detachHeldData st0)).
    assert (Hs3 : serialPort s3 =
                  Held (onReadStream (removeAllListeners ev_data)
                          (onPort (removeAllListeners ev_data) p)) /\
                  flashFirmware s3 = flashFirmware st /\
                  slaveTimer s3 = slaveTimer st /\ timers s3 = timers st /\
                  handshakes s3 = handshakes st /\ log s3 = log st0 /\
                  hwModule s3 = hwModule st /\ options s3 = options st /\
                  isSending s3 = isSending st).
    { unfold s3, detachHeldData, updateHeld, updatePort.
      change (serialPort st0) with (serialPort st). rewrite Hp. cbn.
      repeat split. }
    destruct Hs3 as (A1 & A2 & A3 & A4 & A5 & A6 & A7 & A8 & A9).
    clearbody s3. rewrite A2.
    set (s4 := clearIfSet (flashFirmware st) s3).
    assert (Hs4 : serialPort s4 = serialPort s3 /\
                  flashFirmware s4 = flashFirmware s3 /\
                  slaveTimer s4 = slaveTimer s3 /\
                  handshakes s4 = handshakes s3 /\ log s4 = log s3 /\
                  hwModule s4 = hwModule s3 /\ options s4 = options s3 /\
                  isSending s4 = isSending s3)
      by (unfold s4; destruct (flashFirmware st); repeat split).
    destruct Hs4 as (B1 & B2 & B3 & B4 & B5 & B6 & B7 & B8).
    assert (Hstop4 : forall h t, flashFirmware st = Some h ->
                       timers s4 !! h = Some t -> active t = false).
    { intros h t Hh. unfold s4. rewrite Hh. apply clearTimer_stops. }
    clearbody s4. rewrite B3, A3.
    set (s5 := clearIfSet (slaveTimer st) s4).
    assert (Hs5 : serialPort s5 = serialPort s4 /\
                  flashFirmware s5 = flashFirmware s4 /\
                  slaveTimer s5 = slaveTimer s4 /\
                  handshakes s5 = handshakes s4 /\ log s5 = log s4 /\
                  hwModule s5 = hwModule s4 /\ options s5 = options s4 /\
                  isSending s5 = isSending s4)
      by (unfold s5; destruct (slaveTimer st); repeat split).
    destruct Hs5 as (C1 & C2 & C3 & C4 & C5 & C6 & C7 & C8).
    assert (Hstop5 : forall h t,
               flashFirmware st = Some h \/ slaveTimer st = Some h ->
               timers s5 !! h = Some t -> active t = false).
    { intros h t [Hh | Hh].
      - unfold s5. apply clearIfSet_keeps_stopped. intros t'. now apply Hstop4.
      - unfold s5. rewrite Hh. apply clearTimer_stops. }
    clearbody s5.
    destruct (slaveVerdict_facts pid (check d) s5) as (F1 & F2 & F3 & F4).
    assert (Hff : flashFirmware (slaveVerdict pid (check d) s5) =
                  flashFirmware s5) by (unfold slaveVerdict; same).
    assert (Hsl : slaveTimer (slaveVerdict pid (check d) s5) =
                  slaveTimer s5) by (unfold slaveVerdict; same).
    repeat split.
    - eexists. rewrite F1, C1, B1, A1. split; [reflexivity|].
      split; [apply dataOf_removed|].
      unfold onReadStream, onParser, onPort. now destruct (parser _).
    - intros h t Hh. rewrite F2. now apply Hstop5.
    - congruence.
    - congruence.
    - rewrite F3, C4, B4, A5.
      now apply settle_pending.
    - rewrite F4, C6, B6, A7, C7, B7, A8, C5, B5, A6.
      unfold may_send. rewrite C1, B1, A1, C8, B8, A9.
      assert (Ho : isOpen (onReadStream (removeAllListeners ev_data)
                             (onPort (removeAllListeners ev_data) p)) = isOpen p)
        by (unfold onReadStream, onParser, onPort; now destruct (parser _)).
      now rewrite Ho. }
  destruct (check d) as [| |b| |] eqn:Hres; cbn [is_undefined negb];
    try (apply Hgo; reflexivity).
  eexists. split; reflexivity.
Qed.

Lemma slave_handshake_outcomes_witness :
  exists st',
    runAsSlave_onData 0 "ok" (initialize (opened handshakeModule plainConfig))
      = Returned st' /\
    handshakes st' !! 0 = Some Resolved.
Proof.
  destruct (slave_handshake_outcomes
              (initialize (opened handshakeModule plainConfig))
              {| isOpen := true;
                 listeners := [(ev_error, OpenReject 0);
                               (ev_data, SlaveData 0)];
                 parser := None |} 0 "ok"
              (fun d => if String.eqb d "ok" then JBool true
                        else if String.eqb d "no" then JBool false
                        else JUndefined))
    as (st' & H1 & H2).
  - vm_compute. reflexivity.
  - vm_compute. reflexivity.
  - vm_compute. reflexivity.
  - vm_compute in H2. destruct H2 as (_ & _ & _ & _ & H2 & _).
    exists st'. split; [exact H1 | exact H2].
Defined.

(** ** Steady state *)

Lemma may_send_effect d e st : may_send d (effect e st) = may_send d st.
Proof. reflexivity. Qed.

Lemma send_log d cb st :
  log (send d cb st) =
  (if may_send d st then [PortWrite (encode (options st) d)] else []) ++ log st.
Proof. unfold send. now destruct (may_send d st). Qed.

Lemma may_send_after_send d d' cb st :
  may_send d st = true -> may_send d' (send d cb st) = false.
Proof.
  intros H. unfold send. rewrite H. unfold may_send in *. cbn.
  destruct (serialPort st); try reflexivity. apply andb_false_r.
Qed.

(** X7.  One tick of the steady-state poll timer asks the module for
    [requestLocalData()] and then for [getProperty()], but writes at most
    one payload.  When [requestLocalData()] returns a truthy payload, that
    payload is the only one that can be written: if the gate takes it, the
    gate is closed when [getProperty()]'s payload arrives, and if the gate
    refuses it, it refuses the other too.  [getProperty] is called all the
    same and its result is dropped. *)
Theorem poll_tick_writes_local_data_only (st : State) (d : Payload) :
  requestLocalData (hwModule st) = Some d -> truthy d = true ->
  log (requestLocalDataInterval_tick st) =
    (if is_some (getProperty (hwModule st)) then [HwGetProperty] else []) ++
    (if may_send d st then [PortWrite (encode (options st) d)] else []) ++
    HwRequestLocalData :: log st.
Proof.
  intros Hd Ht. unfold requestLocalDataInterval_tick. cbv zeta.
  rewrite Hd.
  assert (E : sendIfAny HwRequestLocalData (Some d) st =
              send d false (effect HwRequestLocalData st))
    by (unfold sendIfAny, when; now rewrite Ht).
  rewrite E. clear E.
  set (s1 := send d false (effect HwRequestLocalData st)).
  assert (Hhw : hwModule s1 = hwModule st) by (unfold s1, send; same).
  assert (Hlog : log s1 =
                 (if may_send d st then [PortWrite (encode (options st) d)]
                  else []) ++ HwRequestLocalData :: log st)
    by (unfold s1; now rewrite send_log).
  assert (Hgate : forall g, may_send g (effect HwGetProperty s1) = true ->
                            may_send d st = false /\ may_send g st = true).
  { intros g. rewrite may_send_effect. unfold s1.
    destruct (may_send d st) eqn:Hm.
    - rewrite may_send_after_send by exact Hm. discriminate.
    - unfold send. rewrite may_send_effect, Hm. rewrite may_send_effect. auto. }
  rewrite Hhw. unfold sendIfAny, when.
  destruct (getProperty (hwModule st)) as [g|]; cbn [is_some app];
    [|exact Hlog].
  destruct (truthy g) eqn:Hg; cbn; [|now rewrite Hlog].
  rewrite send_log.
  destruct (may_send g (effect HwGetProperty s1)) eqn:Hm; cbn;
    [|now rewrite Hlog].
  exfalso. destruct (Hgate g Hm) as [H1 H2].
  unfold may_send in H1, H2. destruct (serialPort st); try discriminate.
  rewrite Ht in H1. rewrite Hg in H2.
  destruct (isOpen p), (isSending st); cbn in *; congruence.
Qed.

Lemma poll_tick_writes_local_data_only_witness :
  firstn 3 (log (requestLocalDataInterval_tick (opened pollingModule plainConfig)))
  = [HwGetProperty; PortWrite (PBytes [2%Z]); HwRequestLocalData].
Proof.
  rewrite (poll_tick_writes_local_data_only
             (opened pollingModule plainConfig) (PBytes [2%Z]));
    [| vm_compute; reflexivity | reflexivity].
  vm_compute. reflexivity.
Defined.

(** *** What connect() arms *)

Lemma timers_armLossDetection st :
  timers (armLossDetection st) =
  timers st ++
    (if lostController (hwModule st) then []
     else [{| callback := LostTick; delay := lostTimer st; periodic := true;
              active := true |}]).
Proof.
  unfold armLossDetection. destruct (lostController _); cbn;
    [now rewrite app_nil_r | reflexivity].
Qed.

Lemma armLocalPoll_facts st :
  let dur := match duration (options st) with
             | Some ms => ms
             | None => 1000%Z
             end in
  if negb (Z.eqb dur 0) && negb (is_master (control (options st))) then
    (timers (armLocalPoll st) =
       timers st ++ [{| callback := LocalPoll; delay := dur; periodic := true;
                        active := true |}] /\
     requestLocalDataInterval (armLocalPoll st) = Some (length (timers st)))
  else armLocalPoll st = st.
Proof.
  cbv zeta. unfold armLocalPoll, with_default, DEFAULT_SLAVE_DURATION.
  cbv zeta.
  destruct (negb _ && negb _); [split|]; reflexivity.
Qed.

Lemma armAdvertise_facts st :
  match advertise (options st) with
  | Some ms =>
      if Z.eqb ms 0 then armAdvertise st = st
      else
        (timers (armAdvertise st) =
           timers st ++ [{| callback := Advertise; delay := ms;
                            periodic := true; active := true |}] /\
         advertiseInterval (armAdvertise st) = Some (length (timers st)) /\
         requestLocalDataInterval (armAdvertise st) =
           requestLocalDataInterval st)
  | None => armAdvertise st = st
  end.
Proof.
  unfold armAdvertise. destruct (advertise (options st)) as [ms|];
    [|reflexivity].
  destruct (Z.eqb ms 0); [reflexivity | repeat split].
Qed.

(** What the timers of [connect] depend on. *)
Lemma connect_wire_timers (s : State) :
  let cfg := options s in
  let dur := match duration cfg with Some ms => ms | None => 1000%Z end in
  let polls := negb (Z.eqb dur 0) && negb (is_master (control cfg)) in
  let every cb ms :=
    {| callback := cb; delay := ms; periodic := true; active := true |} in
  let st' := connect_wire s in
  timers st' =
    timers s ++
    (if softwareReset cfg
     then [{| callback := DtrRestore; delay := 1000; periodic := false;
              active := true |}]
     else []) ++
    (if lostController (hwModule s) then []
     else [every LostTick (lostTimer s)]) ++
    (if polls then [every LocalPoll dur] else []) ++
    match advertise cfg with
    | Some ms => if Z.eqb ms 0 then [] else [every Advertise ms]
    | None => []
    end /\
  (if polls then
     exists h, requestLocalDataInterval st' = Some h /\
               timers st' !! h = Some (every LocalPoll dur)
   else requestLocalDataInterval st' = requestLocalDataInterval s) /\
  match advertise cfg with
  | Some ms =>
      if Z.eqb ms 0 then advertiseInterval st' = advertiseInterval s
      else exists h, advertiseInterval st' = Some h /\
                     timers st' !! h = Some (every Advertise ms)
  | None => advertiseInterval st' = advertiseInterval s
  end.
Proof.
  cbv zeta. unfold connect_wire. cbv zeta.
  set (s1 := when (softwareReset (options s)) resetBySoftware s).
  assert (H1 : timers s1 =
               timers s ++
               (if softwareReset (options s)
                then [{| callback := DtrRestore; delay := 1000;
                         periodic := false; active := true |}]
                else []) /\
               options s1 = options s /\ hwModule s1 = hwModule s /\
               lostTimer s1 = lostTimer s /\
               requestLocalDataInterval s1 = requestLocalDataInterval s /\
               advertiseInterval s1 = advertiseInterval s).
  { unfold s1, when. destruct (softwareReset _); cbn; repeat split.
    now rewrite app_nil_r. }
  destruct H1 as (T1 & O1 & M1 & L1 & R1 & A1). clearbody s1.
  match goal with
  | |- context [armLossDetection ?x] => set (s5 := x)
  end.
  assert (T5 : timers s5 = timers s1) by (unfold s5; same).
  assert (O5 : options s5 = options s1) by (unfold s5; same).
  assert (M5 : hwModule s5 = hwModule s1) by (unfold s5; same).
  assert (L5 : lostTimer s5 = lostTimer s1) by (unfold s5; same).
  assert (R5 : requestLocalDataInterval s5 = requestLocalDataInterval s1)
    by (unfold s5; same).
  assert (A5 : advertiseInterval s5 = advertiseInterval s1)
    by (unfold s5; same).
  clearbody s5.
  set (s6 := armLossDetection s5).
  pose proof (timers_armLossDetection s5) as T6. fold s6 in T6.
  assert (H6 : options s6 = options s5 /\
               requestLocalDataInterval s6 = requestLocalDataInterval s5 /\
               advertiseInterval s6 = advertiseInterval s5)
    by (unfold s6, armLossDetection; destruct (lostController _);
        repeat split).
  destruct H6 as (O6 & R6 & A6). clearbody s6.
  set (s7 := armLocalPoll s6).
  pose proof (armLocalPoll_facts s6) as P7. cbv zeta in P7. fold s7 in P7.
  assert (H7 : options s7 = options s6 /\
               advertiseInterval s7 = advertiseInterval s6)
    by (unfold s7, armLocalPoll; cbv zeta; destruct (negb _ && negb _);
        repeat split).
  destruct H7 as (O7 & A7).
  pose proof (armAdvertise_facts s7) as P8.
  rewrite O7, O6, O5, O1 in P8. rewrite O6, O5, O1 in P7.
  rewrite M5, M1, L5, L1, T5, T1 in T6.
  clearbody s7.
  set (dur := match duration (options s) with
              | Some ms => ms
              | None => 1000%Z
              end) in *.
  destruct (negb (Z.eqb dur 0) && negb (is_master (control (options s))))
    eqn:Hpolls.
  - destruct P7 as [T7 R7].
    assert (Hpoll : timers s7 !! length (timers s6) =
                    Some {| callback := LocalPoll; delay := dur;
                            periodic := true; active := true |}).
    { rewrite T7. rewrite lookup_app_r by lia. now rewrite Nat.sub_diag. }
    destruct (advertise (options s)) as [ms|];
      [destruct (Z.eqb ms 0)|].
    + rewrite P8. split; [|split].
      * rewrite T7, T6. rewrite <- !app_assoc. now rewrite app_nil_r.
      * exists (length (timers s6)). split; [exact R7 | exact Hpoll].
      * congruence.
    + destruct P8 as (T8 & A8 & R8). split; [|split].
      * rewrite T8, T7, T6. now rewrite <- !app_assoc.
      * exists (length (timers s6)). split; [congruence|].
        rewrite T8. now apply lookup_app_l_Some.
      * exists (length (timers s7)). split; [exact A8|].
        rewrite T8. rewrite lookup_app_r by lia. now rewrite Nat.sub_diag.
    + rewrite P8. split; [|split].
      * rewrite T7, T6. rewrite <- !app_assoc. now rewrite app_nil_r.
      * exists (length (timers s6)). split; [exact R7 | exact Hpoll].
      * congruence.
  - rewrite P7 in *. clear P7.
    destruct (advertise (options s)) as [ms|];
      [destruct (Z.eqb ms 0)|].
    + rewrite P8. split; [|split].
      * rewrite T6. rewrite <- !app_assoc. now rewrite !app_nil_r.
      * congruence.
      * congruence.
    + destruct P8 as (T8 & A8 & R8). split; [|split].
      * rewrite T8, T6. now rewrite <- !app_assoc.
      * congruence.
      * exists (length (timers s6)). split; [exact A8|].
        rewrite T8. rewrite lookup_app_r by lia. now rewrite Nat.sub_diag.
    + rewrite P8. split; [|split].
      * rewrite T6. rewrite <- !app_assoc. now rewrite !app_nil_r.
      * congruence.
      * congruence.
Qed.

(** The state in which [connect] starts wiring. *)
Lemma connect_announces (st : State) (r : Router) (p : SerialPort) :
  router st = Some r -> serialPort st = Held p ->
  exists s,
    connect st = Returned (connect_wire s) /\
    timers s = timers st /\ options s = options st /\
    hwModule s = hwModule st /\ lostTimer s = lostTimer st /\
    requestLocalDataInterval s = requestLocalDataInterval st /\
    advertiseInterval s = advertiseInterval st /\
    serialPort s = serialPort st /\
    connected s = false /\ received s = true /\
    log s =
      RouterSendState "connect" ::
      (if eventController (hwModule st) then [HwEventController "connect"]
       else []) ++
      (if hw_connect (hwModule st) then [HwConnect] else []) ++ log st /\
    router s = router st /\ flashFirmware s = flashFirmware st /\
    slaveTimer s = slaveTimer st.
Proof.
  intros Hr Hp. unfold connect. rewrite Hr. cbv zeta.
  destruct (serialPort st) as [|q|q] eqn:Hsp; try discriminate.
  erewrite sendState_returns; [|rewrite router_callHook; exact Hr].
  unfold callHook, when.
  change (hwModule (set_received true (set_connected false st)))
    with (hwModule st).
  destruct (hw_connect (hwModule st)) eqn:E1;
    cbn [hwModule effect set_log set_received set_connected];
    destruct (eventController (hwModule st)) eqn:E2;
    eexists; (split; [reflexivity|]); cbn; rewrite ?E1, ?E2;
    repeat split; assumption.
Qed.

(** X8.  On a held port with a router, [connect] arms its timers in this
    order and no others: the one-shot DTR restore of 1000 ms when
    [softwareReset] is set; the loss timer unless the module has
    [lostController]; the repeating poll of [duration] ms (1000 when left
    out) unless the role is master or [duration] is [0]; the repeating
    advertise timer when [advertise] is given and not [0].  The handles of
    the poll and advertise timers are stored when they are armed and left
    as they were otherwise. *)
Theorem connect_arms_timers (st : State) (r : Router) (p : SerialPort) :
  router st = Some r -> serialPort st = Held p ->
  let cfg := options st in
  let dur := match duration cfg with Some ms => ms | None => 1000%Z end in
  let polls := negb (Z.eqb dur 0) && negb (is_master (control cfg)) in
  let every cb ms :=
    {| callback := cb; delay := ms; periodic := true; active := true |} in
  exists st',
    connect st = Returned st' /\
    timers st' =
      timers st ++
      (if softwareReset cfg
       then [{| callback := DtrRestore; delay := 1000; periodic := false;
                active := true |}]
       else []) ++
      (if lostController (hwModule st) then []
       else [every LostTick (lostTimer st)]) ++
      (if polls then [every LocalPoll dur] else []) ++
      match advertise cfg with
      | Some ms => if Z.eqb ms 0 then [] else [every Advertise ms]
      | None => []
      end /\
    (if polls then
       exists h, requestLocalDataInterval st' = Some h /\
                 timers st' !! h = Some (every LocalPoll dur)
     else requestLocalDataInterval st' = requestLocalDataInterval st) /\
    match advertise cfg with
    | Some ms =>
        if Z.eqb ms 0 then advertiseInterval st' = advertiseInterval st
        else exists h, advertiseInterval st' = Some h /\
                       timers st' !! h = Some (every Advertise ms)
    | None => advertiseInterval st' = advertiseInterval st
    end.
Proof.
  intros Hr Hp. cbv zeta.
  destruct (connect_announces st r p Hr Hp)
    as (s & Hc & T & O & M & L & R & A & _).
  exists (connect_wire s). split; [exact Hc|].
  pose proof (connect_wire_timers s) as H. cbv zeta in H.
  rewrite T, O, M, L, R, A in H. exact H.
Qed.

Lemma connect_arms_timers_witness :
  exists st',
    connect (routed pollingModule plainConfig) = Returned st' /\
    timers st' =
      [{| callback := LostTick; delay := 1000; periodic := true;
          active := true |};
       {| callback := LocalPoll; delay := 1000; periodic := true;
          active := true |}].
Proof.
  destruct (connect_arms_timers (routed pollingModule plainConfig) TheRouter
              {| isOpen := true; listeners := [(ev_error, OpenReject 0)];
                 parser := None |}) as (st' & H1 & H2 & _).
  - vm_compute. reflexivity.
  - vm_compute. reflexivity.
  - exists st'. split; [exact H1|]. rewrite H2. vm_compute. reflexivity.
Defined.

Lemma connect_wire_log (s : State) :
  log (connect_wire s) =
    (if lostController (hwModule s) then [HwLostController] else []) ++
    match portObject (serialPort s) with
    | Some q => match parser q with
                | Some ps => [Pipe (kind ps)]
                | None => []
                end
    | None => []
    end ++
    (if afterConnect (hwModule s) then [HwAfterConnect] else []) ++
    (if softwareReset (options s) then [PortSet false] else []) ++ log s.
Proof.
  unfold connect_wire. cbv zeta.
  set (s1 := when (softwareReset (options s)) resetBySoftware s).
  assert (H1 : log s1 =
               (if softwareReset (options s) then [PortSet false] else [])
               ++ log s /\
               hwModule s1 = hwModule s /\ serialPort s1 = serialPort s)
    by (unfold s1, when; destruct (softwareReset _); repeat split).
  destruct H1 as (G1 & M1 & P1). clearbody s1.
  set (s2 := callHook (afterConnect (hwModule s1)) HwAfterConnect s1).
  assert (H2 : log s2 =
               (if afterConnect (hwModule s1) then [HwAfterConnect] else [])
               ++ log s1 /\
               hwModule s2 = hwModule s1 /\ serialPort s2 = serialPort s1)
    by (unfold s2, callHook, when; destruct (afterConnect _); repeat split).
  destruct H2 as (G2 & M2 & P2). clearbody s2.
  set (s3 := pipeParser s2).
  assert (H3 : log s3 =
               match portObject (serialPort s2) with
               | Some q => match parser q with
                           | Some ps => [Pipe (kind ps)]
                           | None => []
                           end
               | None => []
               end ++ log s2 /\ hwModule s3 = hwModule s2).
  { unfold s3, pipeParser. destruct (portObject _) as [q|]; [|now split].
    destruct (parser q); now split. }
  destruct H3 as (G3 & M3). clearbody s3.
  match goal with
  | |- context [armLossDetection ?x] => set (s5 := x)
  end.
  assert (G5 : log s5 = log s3) by reflexivity.
  assert (M5 : hwModule s5 = hwModule s3) by reflexivity.
  clearbody s5.
  set (s6 := armLossDetection s5).
  assert (G6 : log s6 =
               (if lostController (hwModule s5) then [HwLostController]
                else []) ++ log s5)
    by (unfold s6, armLossDetection; now destruct (lostController _)).
  clearbody s6.
  assert (G8 : log (armAdvertise (armLocalPoll s6)) = log s6).
  { transitivity (log (armLocalPoll s6)).
    - unfold armAdvertise. destruct (advertise _) as [ms|]; [|reflexivity].
      now destruct (Z.eqb ms 0).
    - unfold armLocalPoll. cbv zeta. now destruct (negb _ && negb _). }
  rewrite G8, G6, G5, G3, G2, G1, M5, M3, M2, M1, P2, P1.
  reflexivity.
Qed.

(** X9.  On a held port with a router, [connect] marks the link as not
    connected with a frame received, and calls its collaborators in this
    order: the module's [connect] hook, the module's [eventController] and
    then the router with the state ['connect'], the DTR line lowered when
    [softwareReset] is set, the [afterConnect] hook, the pipe into the
    parser when there is one, and [lostController] when the module has
    it.  A missing hook is skipped. *)
Theorem connect_calls_in_order (st : State) (r : Router) (p : SerialPort) :
  router st = Some r -> serialPort st = Held p ->
  exists st',
    connect st = Returned st' /\
    connected st' = false /\ received st' = true /\
    log st' =
      (if lostController (hwModule st) then [HwLostController] else []) ++
      match parser p with
      | Some ps => [Pipe (kind ps)]
      | None => []
      end ++
      (if afterConnect (hwModule st) then [HwAfterConnect] else []) ++
      (if softwareReset (options st) then [PortSet false] else []) ++
      RouterSendState "connect" ::
      (if eventController (hwModule st) then [HwEventController "connect"]
       else []) ++
      (if hw_connect (hwModule st) then [HwConnect] else []) ++ log st.
Proof.
  intros Hr Hp.
  destruct (connect_announces st r p Hr Hp)
    as (s & Hc & T & O & M & L & R & A & P & C & Rc & G & _).
  exists (connect_wire s). split; [exact Hc|].
  split; [|split].
  - transitivity (connected s); [unfold connect_wire; same | exact C].
  - transitivity (received s); [unfold connect_wire; same | exact Rc].
  - rewrite connect_wire_log, M, O, P, Hp, G. reflexivity.
Qed.

Lemma connect_calls_in_order_witness :
  exists st',
    connect (routed pollingModule plainConfig) = Returned st' /\
    connected st' = false /\ received st' = true.
Proof.
  destruct (connect_calls_in_order (routed pollingModule plainConfig)
              TheRouter
              {| isOpen := true; listeners := [(ev_error, OpenReject 0)];
                 parser := None |}) as (st' & H1 & H2 & H3 & _).
  - vm_compute. reflexivity.
  - vm_compute. reflexivity.
  - exists st'. repeat split; assumption.
Defined.

(** *** Frames in steady state *)

Lemma markConnected_facts (st : State) (r : Router) :
  router st = Some r ->
  exists s,
    markConnected st = Returned s /\
    connected s = true /\ hwModule s = hwModule st /\
    options s = options st /\ serialPort s = serialPort st /\
    isSending s = isSending st /\
    log s =
      (if connected st then []
       else RouterSendState "connected" ::
            (if eventController (hwModule st)
             then [HwEventController "connected"] else [])) ++ log st.
Proof.
  intros Hr. unfold markConnected.
  destruct (connected st) eqn:Hc; cbn [negb].
  - exists st. repeat split. exact Hc.
  - erewrite sendState_returns by exact Hr.
    unfold callHook, when.
    change (hwModule (set_connected true st)) with (hwModule st).
    destruct (eventController (hwModule st)); eexists;
      (split; [reflexivity|]); repeat split.
Qed.

Lemma forwardFrame_facts (d : Frame) (s : State) :
  connected (forwardFrame d s) = connected s /\
  received (forwardFrame d s) = true /\
  log (forwardFrame d s) =
    (if is_master (control (options s)) then
       match requestLocalData (hwModule s) with
       | Some q =>
           (if may_send q s then [PortWrite (encode (options s) q)] else [])
           ++ [HwRequestLocalData]
       | None => []
       end
     else []) ++
    RouterSendEncodedDataToServer :: RouterSetHandlerData ::
    (if handleLocalData (hwModule s) then [HwHandleLocalData d] else []) ++
    log s.
Proof.
  unfold forwardFrame. cbv zeta.
  set (s1 := callHook _ _ (set_received true s)).
  assert (H1 : connected s1 = connected s /\ received s1 = true /\
               hwModule s1 = hwModule s /\ options s1 = options s /\
               serialPort s1 = serialPort s /\ isSending s1 = isSending s /\
               log s1 = (if handleLocalData (hwModule s)
                         then [HwHandleLocalData d] else []) ++ log s).
  { unfold s1, callHook, when.
    change (hwModule (set_received true s)) with (hwModule s).
    destruct (handleLocalData (hwModule s)); repeat split. }
  destruct H1 as (C1 & R1 & M1 & O1 & P1 & S1 & G1). clearbody s1.
  set (s3 := effect RouterSendEncodedDataToServer
               (effect RouterSetHandlerData s1)).
  assert (H3 : connected s3 = connected s1 /\ received s3 = received s1 /\
               hwModule s3 = hwModule s1 /\ options s3 = options s1 /\
               serialPort s3 = serialPort s1 /\ isSending s3 = isSending s1 /\
               log s3 = RouterSendEncodedDataToServer ::
                        RouterSetHandlerData :: log s1)
    by (repeat split).
  destruct H3 as (C3 & R3 & M3 & O3 & P3 & S3 & G3). clearbody s3.
  rewrite O3, O1, M3, M1. unfold when.
  assert (Hms : forall q, may_send q s3 = may_send q s)
    by (intros q; unfold may_send; now rewrite P3, P1, S3, S1).
  destruct (is_master (control (options s))); cbn [app];
    [|rewrite G3, G1; repeat split; congruence].
  unfold sendIfAny.
  destruct (requestLocalData (hwModule s)) as [q|]; cbn [app];
    [|rewrite G3, G1; repeat split; congruence].
  assert (Hq : when (truthy q) (send q false) (effect HwRequestLocalData s3) =
               send q false (effect HwRequestLocalData s3)).
  { unfold when. destruct (truthy q) eqn:Hq; [reflexivity|].
    unfold send, may_send. cbn. rewrite Hq.
    destruct (serialPort s3); try reflexivity.
    now rewrite andb_false_r. }
  rewrite Hq. rewrite send_log, may_send_effect, Hms.
  change (options (effect HwRequestLocalData s3)) with (options s3).
  change (log (effect HwRequestLocalData s3))
    with (HwRequestLocalData :: log s3).
  rewrite O3, O1, G3, G1. repeat split.
  - transitivity (connected s3); [unfold send; same | congruence].
  - transitivity (received s3); [unfold send; same | congruence].
  - now rewrite <- app_assoc.
Qed.

(** X10.  The steady-state ['data'] listener drops a frame the module's
    [validateLocalData] refuses: nothing changes, the frame does not count
    as received.  An accepted frame marks the link connected (announcing
    ['connected'] to the module and then the router only when it was not
    connected before) and marks a frame received; the frame goes to
    [handleLocalData] when the module has it; the router is told to set
    the handler data and to send the encoded data to the server; and in the
    master role only, [requestLocalData()] is called and its payload handed
    to [send]. *)
Theorem steady_frame_forwarded (st : State) (d : Frame) (r : Router) :
  router st = Some r ->
  (accepted (hwModule st) d = false -> connect_onData d st = Returned st) /\
  (accepted (hwModule st) d = true ->
   exists st',
     connect_onData d st = Returned st' /\
     connected st' = true /\ received st' = true /\
     log st' =
       (if is_master (control (options st)) then
          match requestLocalData (hwModule st) with
          | Some q =>
              (if may_send q st then [PortWrite (encode (options st) q)]
               else []) ++ [HwRequestLocalData]
          | None => []
          end
        else []) ++
       RouterSendEncodedDataToServer :: RouterSetHandlerData ::
       (if handleLocalData (hwModule st) then [HwHandleLocalData d] else []) ++
       (if connected st then []
        else RouterSendState "connected" ::
             (if eventController (hwModule st)
              then [HwEventController "connected"] else [])) ++
       log st).
Proof.
  intros Hr. unfold connect_onData. split; intros Hacc; rewrite Hacc;
    [reflexivity|].
  destruct (markConnected_facts st r Hr) as (s & Hm & C & M & O & P & S & G).
  rewrite Hm. cbn [andThen]. eexists. split; [reflexivity|].
  destruct (forwardFrame_facts d s) as (F1 & F2 & F3).
  split; [congruence|]. split; [exact F2|].
  rewrite F3, O, M, G.
  assert (Hms : forall q, may_send q s = may_send q st)
    by (intros q; unfold may_send; now rewrite P, S).
  destruct (requestLocalData (hwModule st)) as [q|]; rewrite ?Hms;
    reflexivity.
Qed.

Lemma steady_frame_forwarded_witness :
  exists st',
    connect_onData "x" (routed pollingModule plainConfig) = Returned st' /\
    connected st' = true /\ received st' = true.
Proof.
  destruct (steady_frame_forwarded (routed pollingModule plainConfig) "x"
              TheRouter) as [_ H].
  - vm_compute. reflexivity.
  - destruct H as (st' & H1 & H2 & H3 & _); [vm_compute; reflexivity|].
    exists st'. repeat split; assumption.
Defined.

(** ** clear() and close() *)

Lemma stopped_frame h (st st' : State) :
  timers st' = timers st -> stopped h st -> stopped h st'.
Proof. unfold stopped. now intros ->. Qed.

Lemma stopped_clearTimer h h' st : stopped h st -> stopped h (clearTimer h' st).
Proof. unfold stopped. apply clearTimer_keeps_stopped. Qed.

Lemma stopped_cleared h st : stopped h (clearTimer h st).
Proof. intros t. apply clearTimer_stops. Qed.

Ltac stopped_known :=
  idtac;
  lazymatch goal with
  | |- stopped _ (clearTimer _ _) => apply stopped_clearTimer
  end.

Ltac stopped_walk h := intros; walk (stopped_frame h) stopped_known.

Lemma stopped_cancel (get : State -> option nat)
    (set : option nat -> State -> State) h st :
  (forall v s, timers (set v s) = timers s) ->
  get st = Some h -> stopped h (cancel get set st).
Proof.
  intros Hset Hh. unfold cancel. rewrite Hh.
  eapply stopped_frame; [apply Hset | apply stopped_cleared].
Qed.

Lemma clear_facts (st : State) :
  connected (clear st) = false /\ detached (clear st) /\
  log (clear st) = log st /\ closing (clear st) = closing st /\
  router (clear st) = router st /\ hwModule (clear st) = hwModule st /\
  forall p, serialPort st = Held p ->
    serialPort (clear st) =
      Held (onParser removeEveryListener (onPort removeEveryListener p)).
Proof.
  unfold clear. cbv zeta.
  refine (conj _ (conj _ (conj _ (conj _ (conj _ (conj _ _)))))).
  - transitivity (connected (set_connected false st)); [same | reflexivity].
  - unfold detached.
    match goal with
    | |- forall p, serialPort (cancel _ _ ?s) = _ -> _ =>
        assert (Hs : serialPort (cancel flashFirmware set_flashFirmware s) =
                     serialPort s) by same;
        rewrite Hs; apply detached_detachAll
    end.
  - same.
  - same.
  - same.
  - same.
  - intros p Hp.
    match goal with
    | |- serialPort (cancel _ _ (detachAll ?s)) = _ =>
        assert (H1 : serialPort (cancel flashFirmware set_flashFirmware
                                   (detachAll s)) = serialPort (detachAll s))
          by same;
        assert (H2 : serialPort s = serialPort st) by same;
        rewrite H1; unfold detachAll, updateHeld; rewrite H2, Hp
    end.
    reflexivity.
Qed.

(** X11.  [clear] marks the link as not connected, stops the four timers
    whose handles it keeps (loss, poll, advertise, firmware deadline) and
    forgets the handles, and removes every listener from a held port and
    from its parser.  A second [clear] changes nothing.  It does not close
    the port, and it leaves the send gate, the pending write, the promises
    of [open] and [initialize] and the [received] and [executeFlash] flags
    as they are. *)
Theorem clear_stops_what_it_tracks (st : State) :
  let st' := clear st in
  connected st' = false /\
  (connectionLostTimer st' = None /\ requestLocalDataInterval st' = None /\
   advertiseInterval st' = None /\ flashFirmware st' = None) /\
  (forall h,
     connectionLostTimer st = Some h \/ requestLocalDataInterval st = Some h \/
     advertiseInterval st = Some h \/ flashFirmware st = Some h ->
     stopped h st') /\
  detached st' /\
  clear st' = st' /\
  transport_open st' = transport_open st /\
  isSending st' = isSending st /\ inflight st' = inflight st /\
  opens st' = opens st /\ handshakes st' = handshakes st /\
  received st' = received st /\ executeFlash st' = executeFlash st /\
  log st' = log st.
Proof.
  cbv zeta. destruct (clear_facts st) as (C & D & G & _ & _ & _ & P).
  split; [exact C|]. split; [apply clear_resets_handles|].
  split; [|split; [exact D|]]; [|split; [apply clear_idempotent|]].
  - intros h Hh. unfold clear. cbv zeta.
    set (s0 := set_connected false st).
    destruct Hh as [Hh | [Hh | [Hh | Hh]]].
    + assert (H1 : stopped h (cancel connectionLostTimer
                                set_connectionLostTimer s0))
        by (apply stopped_cancel; [reflexivity | exact Hh]).
      revert H1. generalize (cancel connectionLostTimer
                               set_connectionLostTimer s0).
      stopped_walk h.
    + set (s1 := cancel connectionLostTimer set_connectionLostTimer s0).
      assert (E : requestLocalDataInterval s1 = Some h)
        by (rewrite <- Hh; unfold s1, s0; same).
      assert (H1 : stopped h (cancel requestLocalDataInterval
                                set_requestLocalDataInterval s1))
        by (apply stopped_cancel; [reflexivity | exact E]).
      revert H1. generalize (cancel requestLocalDataInterval
                               set_requestLocalDataInterval s1).
      stopped_walk h.
    + set (s2 := cancel requestLocalDataInterval set_requestLocalDataInterval
                   (cancel connectionLostTimer set_connectionLostTimer s0)).
      assert (E : advertiseInterval s2 = Some h)
        by (rewrite <- Hh; unfold s2, s0; same).
      assert (H1 : stopped h (cancel advertiseInterval
                                set_advertiseInterval s2))
        by (apply stopped_cancel; [reflexivity | exact E]).
      revert H1. generalize (cancel advertiseInterval
                               set_advertiseInterval s2).
      stopped_walk h.
    + match goal with
      | |- stopped h (cancel _ _ ?s) =>
          apply stopped_cancel; [reflexivity|];
          rewrite <- Hh; unfold s0; same
      end.
  - unfold clear. cbv zeta. repeat split; try same.
    unfold transport_open.
    match goal with
    | |- match serialPort (cancel _ _ (detachAll ?s)) with _ => _ end = _ =>
        assert (H1 : serialPort (cancel flashFirmware set_flashFirmware
                                   (detachAll s)) = serialPort (detachAll s))
          by same;
        assert (H2 : serialPort s = serialPort st) by same;
        rewrite H1; unfold detachAll, updateHeld; rewrite H2
    end.
    destruct (serialPort st) as [|p|p] eqn:Hp; cbn; rewrite ?H2, ?Hp; cbn;
      reflexivity.
Qed.

Lemma closePort_held s p :
  serialPort s = Held p ->
  closePort s =
  if isOpen p then
    set_closing (S (closing s))
      (set_serialPort (Held (setOpen false p)) (effect PortClose s))
  else s.
Proof.
  intros Hp. unfold closePort, updateHeld. rewrite Hp. cbn. now rewrite Hp.
Qed.

Lemma closePort_not_open s :
  transport_open s = false -> closePort s = s.
Proof.
  unfold transport_open, closePort.
  destruct (serialPort s) as [|p|p]; try reflexivity. now intros ->.
Qed.

Lemma closePort_facts s :
  connected (closePort s) = connected s /\
  connectionLostTimer (closePort s) = connectionLostTimer s /\
  requestLocalDataInterval (closePort s) = requestLocalDataInterval s /\
  advertiseInterval (closePort s) = advertiseInterval s /\
  flashFirmware (closePort s) = flashFirmware s /\
  router (closePort s) = router s /\ hwModule (closePort s) = hwModule s /\
  transport_open (closePort s) = false /\
  transport_held (closePort s) = transport_held s /\
  (detached s -> detached (closePort s)).
Proof.
  destruct (transport_open s) eqn:Hopen;
    [|rewrite closePort_not_open by exact Hopen;
      refine (conj _ (conj _ (conj _ (conj _ (conj _ (conj _
          (conj _ (conj _ (conj _ _))))))))); auto].
  unfold transport_open in Hopen.
  destruct (serialPort s) as [|p|p] eqn:Hp; try discriminate.
  rewrite (closePort_held s p Hp), Hopen.
  unfold transport_open, transport_held. cbn. rewrite Hp.
  refine (conj _ (conj _ (conj _ (conj _ (conj _ (conj _ (conj _
           (conj _ (conj _ _))))))))); try reflexivity.
  intros Hd q Hq. injection Hq as <-. cbn. now apply Hd.
Qed.

Lemma closeCallback_facts s :
  connected (closeCallback s) = connected s /\
  connectionLostTimer (closeCallback s) = connectionLostTimer s /\
  requestLocalDataInterval (closeCallback s) = requestLocalDataInterval s /\
  advertiseInterval (closeCallback s) = advertiseInterval s /\
  flashFirmware (closeCallback s) = flashFirmware s /\
  (transport_open s = false -> transport_open (closeCallback s) = false) /\
  (detached s -> detached (closeCallback s)).
Proof.
  unfold closeCallback, onClosed, transport_open, detached.
  destruct (closing s) as [|n];
    [refine (conj _ (conj _ (conj _ (conj _ (conj _ (conj _ _)))))); auto|].
  cbn. destruct (serialPort s) as [|p|p] eqn:Hp; cbn; rewrite ?Hp;
    refine (conj _ (conj _ (conj _ (conj _ (conj _ (conj _ _))))));
    try reflexivity; auto; intros; discriminate.
Qed.

(** X12.  [close] is idempotent: a second [close] changes nothing, whether
    it comes right after the first or after the driver has confirmed the
    first; the port is asked to close once. *)
Theorem close_idempotent (st : State) :
  close (close st) = close st /\
  close (step (close st) CloseCallback) = step (close st) CloseCallback.
Proof.
  destruct (clear_facts st) as (C & D & _).
  destruct (clear_resets_handles st) as (H1 & H2 & H3 & H4).
  destruct (closePort_facts (clear st))
    as (F1 & F2 & F3 & F4 & F5 & _ & _ & F6 & _ & F7).
  fold (close st) in F1, F2, F3, F4, F5, F6, F7.
  split.
  - unfold close at 1.
    assert (E : clear (close st) = close st)
      by (apply clear_idle; try congruence; now apply F7).
    rewrite E. apply closePort_not_open. exact F6.
  - change (step (close st) CloseCallback) with (closeCallback (close st)).
    destruct (closeCallback_facts (close st))
      as (G1 & G2 & G3 & G4 & G5 & G6 & G7).
    unfold close at 1.
    assert (E : clear (closeCallback (close st)) = closeCallback (close st))
      by (apply clear_idle; try congruence; now apply G7, F7).
    rewrite E. apply closePort_not_open. now apply G6.
Qed.



(** X14.  The ['disconnect'] listener, on a held port with a router,
    closes the connector and then reports ['disconnected'] to the module's
    [eventController] and to the router.  Its listeners are gone with the
    rest, so a frame or a second ['disconnect'] from the port changes
    nothing: the state is reported once. *)
Theorem disconnect_closes_and_reports (st : State) (r : Router)
    (p : SerialPort) :
  router st = Some r -> serialPort st = Held p ->
  exists st',
    connect_onDisconnect st = Returned st' /\
    connected st' = false /\ detached st' /\ transport_open st' = false /\
    log st' =
      RouterSendState "disconnected" ::
      (if eventController (hwModule st) then [HwEventController "disconnected"]
       else []) ++
      (if isOpen p then [PortClose] else []) ++ log st /\
    step st' (PortEmits EmDisconnect) = st' /\
    forall d, step st' (PortEmits (EmData d)) = st' /\
              step st' (ParserEmits d) = st'.
Proof.
  intros Hr Hp. unfold connect_onDisconnect.
  destruct (clear_facts st) as (C & D & G & _ & R & M & P).
  specialize (P p Hp).
  set (q := onParser removeEveryListener (onPort removeEveryListener p)) in *.
  assert (Hq : isOpen q = isOpen p)
    by (unfold q, onParser; cbn; now destruct (parser p)).
  destruct (closePort_facts (clear st))
    as (F1 & _ & _ & _ & _ & F2 & F3 & F4 & _ & F5).
  assert (Hlog : log (close st) =
                 (if isOpen p then [PortClose] else []) ++ log st).
  { unfold close. rewrite (closePort_held _ q P), Hq.
    destruct (isOpen p); cbn; now rewrite G. }
  fold (close st) in F1, F2, F3, F4, F5.
  erewrite sendState_returns by (rewrite F2, R; exact Hr).
  rewrite F3, M. eexists. split; [reflexivity|].
  set (s := callHook _ _ (close st)).
  assert (Hs : connected s = connected (close st) /\
               serialPort s = serialPort (close st) /\
               log s = (if eventController (hwModule st)
                        then [HwEventController "disconnected"] else [])
                       ++ log (close st))
    by (unfold s, callHook, when; destruct (eventController _); repeat split).
  destruct Hs as (S1 & S2 & S3).
  assert (Hd : detached (effect (RouterSendState "disconnected") s)).
  { unfold detached. cbn. rewrite S2. now apply F5. }
  refine (conj _ (conj Hd (conj _ (conj _ _)))).
  - cbn. congruence.
  - unfold transport_open in *. cbn. now rewrite S2.
  - cbn. now rewrite S3, Hlog.
  - assert (Hnone : forall ev,
               portListeners ev (serialPort
                 (effect (RouterSendState "disconnected") s)) = [] /\
               parserListeners ev (serialPort
                 (effect (RouterSendState "disconnected") s)) = []).
    { intros ev. unfold portListeners, parserListeners.
      destruct (serialPort (effect (RouterSendState "disconnected") s))
        as [|p'|p'] eqn:Hp'; cbn; try (split; reflexivity).
      - destruct (Hd p' Hp') as [Hl Hps]. rewrite Hl. split; [reflexivity|].
        destruct (parser p') as [ps|]; [|reflexivity].
        now rewrite (Hps ps eq_refl).
      - exfalso. cbn in Hp'. rewrite S2 in Hp'.
        unfold close in Hp'. rewrite (closePort_held _ q P) in Hp'.
        destruct (isOpen q); cbn in Hp'; congruence. }
    generalize dependent (effect (RouterSendState "disconnected") s).
    intros s' _ Hnone. split; [|intros d; split].
    + unfold step, run_event, portEmits. cbn [noteOpen eventOf].
      now rewrite (proj1 (Hnone _)).
    + unfold step, run_event, portEmits. cbn [noteOpen eventOf].
      now rewrite (proj1 (Hnone _)).
    + unfold step, run_event, parserEmits.
      now rewrite (proj2 (Hnone _)).
Qed.

Lemma disconnect_closes_and_reports_witness :
  exists st',
    connect_onDisconnect (routed bareModule plainConfig) = Returned st' /\
    connected st' = false /\ transport_open st' = false.
Proof.
  destruct (disconnect_closes_and_reports (routed bareModule plainConfig)
              TheRouter
              {| isOpen := true; listeners := [(ev_error, OpenReject 0)];
                 parser := None |})
    as (st' & H1 & H2 & _ & H3 & _).
  - vm_compute. reflexivity.
  - vm_compute. reflexivity.
  - exists st'. repeat split; assumption.
Defined.

(** ** Invariants of the listeners: shared steps *)

Lemma run_pres (P : State -> Prop) :
  (forall st ev, P st -> P (step st ev)) ->
  forall evs st, P st -> P (run st evs).
Proof.
  intros Hstep evs. induction evs as [|ev evs IH]; intros st H; simpl;
    [exact H | apply IH, Hstep, H].
Qed.

Lemma emit_pres (P : State -> Prop) (R : Listener -> Prop) :
  (forall l em st, R l -> P st -> P (final (runListener l em st))) ->
  forall ls em st, Forall R ls -> P st -> P (final (emit ls em st)).
Proof.
  intros Hl ls em. induction ls as [|l ls IH]; intros st HR H; simpl;
    [exact H|].
  apply Forall_cons_1 in HR as [Hr HR].
  apply final_andThen; [now apply Hl | intros s Hs; now apply IH].
Qed.

Lemma keeps_on Q ev l : Q (ev, l) -> keeps Q (on ev l).
Proof.
  intros H e He. unfold on. apply Forall_app. split; [exact He|].
  now constructor.
Qed.

Lemma keeps_removeAll Q ev : keeps Q (removeAllListeners ev).
Proof.
  intros e He. unfold removeAllListeners.
  rewrite List.Forall_forall in *. intros x Hx.
  apply List.filter_In in Hx as [Hx _]. now apply He.
Qed.

Lemma keeps_removeEvery Q : keeps Q removeEveryListener.
Proof. intros e He. constructor. Qed.

Lemma gentle_setOpen Q b : gentle Q (setOpen b).
Proof. intros p H. exact H. Qed.

Lemma gentle_onPort Q g : keeps Q g -> gentle Q (onPort g).
Proof. intros Hg p [H1 H2]. split; [now apply Hg | exact H2]. Qed.

Lemma gentle_onParser Q g : keeps Q g -> gentle Q (onParser g).
Proof.
  intros Hg p [H1 H2]. split; [exact H1|]. cbn.
  destruct (parser p) as [ps|]; intros ps' E; [|discriminate].
  injection E as <-. cbn. apply Hg. now apply H2.
Qed.

Lemma gentle_onReadStream Q g : keeps Q g -> gentle Q (onReadStream g).
Proof.
  intros Hg p. unfold onReadStream.
  destruct (parser p); [now apply gentle_onParser | now apply gentle_onPort].
Qed.

Lemma gentle_compose Q f g :
  gentle Q f -> gentle Q g -> gentle Q (fun p => f (g p)).
Proof. intros Hf Hg p H. apply Hf, Hg, H. Qed.

Lemma every_listener_mapPort Q f r :
  gentle Q f -> every_listener Q r -> every_listener Q (mapPort f r).
Proof.
  intros Hf H p Hp. destruct r as [|q|q]; cbn in Hp; try discriminate;
    injection Hp as <-; apply Hf, H; reflexivity.
Qed.

Lemma every_listener_updateHeld Q f st :
  gentle Q f -> every_listener Q (serialPort st) ->
  every_listener Q (serialPort (updateHeld f st)).
Proof.
  intros Hf H. unfold updateHeld.
  destruct (serialPort st) as [|q|q] eqn:Hq; rewrite ?Hq; try exact H.
  cbn. intros p Hp. injection Hp as <-. apply Hf, H. reflexivity.
Qed.

Lemma every_listener_onClosed Q st :
  every_listener Q (serialPort st) ->
  every_listener Q (serialPort (onClosed st)).
Proof.
  intros H. unfold onClosed.
  destruct (serialPort st) as [|q|q] eqn:Hq; rewrite ?Hq; exact H.
Qed.

Lemma every_listener_open Q port st :
  Q (ev_error, OpenReject (length (opens st))) ->
  Q (ev_open, OpenOpened (length (opens st))) ->
  every_listener Q (serialPort (open port st)).
Proof.
  intros H1 H2. rewrite serialPort_open. intros p Hp. injection Hp as <-.
  split; cbn.
  - unfold on. cbn. repeat constructor; assumption.
  - intros ps Hps. rewrite (makeParser_fresh _ _ Hps). constructor.
Qed.

(** The listeners an event is handed to are among the registered ones. *)
Lemma every_listener_port Q ev r :
  every_listener Q r ->
  Forall (fun l => Q (ev, l)) (portListeners ev r).
Proof.
  intros H. unfold portListeners.
  destruct (portObject r) as [p|] eqn:Hp; [|constructor].
  destruct (H p Hp) as [H1 _]. unfold listenersOf.
  rewrite List.Forall_forall in *. intros l Hl.
  apply List.in_map_iff in Hl as ([a l'] & E & Hin). cbn in E. subst l'.
  apply List.filter_In in Hin as [Hin Ha].
  destruct a, ev; try discriminate; now apply (H1 _ Hin).
Qed.

Lemma every_listener_parser Q ev r :
  every_listener Q r ->
  Forall (fun l => Q (ev, l)) (parserListeners ev r).
Proof.
  intros H. unfold parserListeners.
  destruct (portObject r) as [p|] eqn:Hp; [|constructor].
  destruct (H p Hp) as [_ H2].
  destruct (parser p) as [ps|]; [|constructor].
  specialize (H2 ps eq_refl). unfold listenersOf.
  rewrite List.Forall_forall in *. intros l Hl.
  apply List.in_map_iff in Hl as ([a l'] & E & Hin). cbn in E. subst l'.
  apply List.filter_In in Hin as [Hin Ha].
  destruct a, ev; try discriminate; now apply (H2 _ Hin).
Qed.

Ltac gentle_tac :=
  repeat first
    [ apply gentle_setOpen | apply gentle_onPort | apply gentle_onParser
    | apply gentle_onReadStream
    | apply (gentle_compose _ (onParser _) (onPort _))
    | apply keeps_removeAll | apply keeps_removeEvery
    | apply keeps_on; reflexivity ].

(** ** The send gate when the port goes away *)

Lemma jammed_frame (st st' : State) :
  gate st' = gate st -> jammed st -> jammed st'.
Proof.
  unfold gate, jammed. intros H; injection H as H1 H2. now rewrite H1, H2.
Qed.

Lemma jammed_send d cb st : jammed st -> jammed (send d cb st).
Proof. intros H. rewrite send_dropped; [exact H | apply H]. Qed.

Lemma jammed_writeCallback st : jammed st -> jammed (writeCallback st).
Proof. intros H. unfold writeCallback. destruct H as [H1 H2]. rewrite H2. now split. Qed.

Lemma jammed_drainCallback st : jammed st -> jammed (drainCallback st).
Proof. intros H. unfold drainCallback. destruct H as [H1 H2]. rewrite H2. now split. Qed.

Ltac jammed_known :=
  idtac;
  lazymatch goal with
  | |- jammed (send _ _ _) => apply jammed_send
  | |- jammed (writeCallback _) => apply jammed_writeCallback
  | |- jammed (drainCallback _) => apply jammed_drainCallback
  end.

Ltac jammed_walk := intros; walk jammed_frame jammed_known.

Lemma jammed_runListener l em st :
  jammed st -> jammed (final (runListener l em st)).
Proof. destruct l, em; jammed_walk. Qed.

Lemma jammed_step st ev : jammed st -> jammed (step st ev).
Proof.
  intros H. unfold step.
  assert (Hf : jammed (final (run_event ev st))).
  { destruct ev; try solve [revert H; jammed_walk]; simpl.
    - unfold portEmits.
      apply (emit_pres jammed (fun _ => True));
        [intros; now apply jammed_runListener | now apply Forall_true |].
      revert H. jammed_walk.
    - unfold parserEmits.
      apply (emit_pres jammed (fun _ => True));
        [intros; now apply jammed_runListener | now apply Forall_true
        | exact H]. }
  destruct (run_event ev st); [exact Hf|].
  revert Hf. now apply jammed_frame.
Qed.

(** X15.  [send] raises [isSending] and relies on the write callback to
    ask for the drain whose callback lowers it again.  The write callback
    skips the drain when the port has been released in the meantime
    ([this.serialPort] unset), and nothing else lowers the flag.  So if the
    write callback of a send runs after the port was released, [isSending]
    stays up whatever happens afterwards, a new [open] included, and every
    later [send] is dropped. *)
Theorem write_callback_after_release_jams_gate (st : State) (cb : bool) :
  transport_held st = false -> isSending st = true ->
  inflight st = [WritePending cb] ->
  forall evs,
    let st' := run (step st WriteCallback) evs in
    isSending st' = true /\ inflight st' = [] /\
    forall d cb', send d cb' st' = st'.
Proof.
  intros Hp Hs Hin evs.
  assert (H0 : jammed (step st WriteCallback)).
  { unfold step, run_event, writeCallback, onWritten. rewrite Hin.
    unfold transport_held in Hp. cbn.
    destruct (serialPort st); try discriminate; now split. }
  pose proof (run_pres jammed jammed_step evs _ H0) as [H1 H2].
  cbv zeta. repeat split; try assumption.
  intros d cb'. now apply send_dropped.
Qed.

(** A send, then [close] and its confirmation, then the write callback; then
    the port is opened again. *)
Lemma write_callback_after_release_jams_gate_witness :
  isSending
    (run (step (run (opened bareModule plainConfig)
                  [CallSend (PBytes [1%Z]) false; CallClose; CloseCallback])
               WriteCallback)
         [CallOpen "COM3"; PortEmits (EmOpen None)]) = true.
Proof.
  apply (write_callback_after_release_jams_gate
           (run (opened bareModule plainConfig)
              [CallSend (PBytes [1%Z]) false; CallClose; CloseCallback])
           false); vm_compute; reflexivity.
Defined.

(** ** A promise of open() that nothing settles *)

Lemma orphaned_frame pid (st st' : State) :
  doorway st' = doorway st -> orphaned pid st -> orphaned pid st'.
Proof.
  unfold doorway, orphaned. intros H; injection H as H1 H2.
  now rewrite H1, H2.
Qed.

Lemma orphaned_updatePort pid f st :
  gentle (not_for_open pid) f -> orphaned pid st ->
  orphaned pid (updatePort f st).
Proof.
  intros Hf [H1 H2]. split; [exact H1|]. now apply every_listener_mapPort.
Qed.

Lemma orphaned_updateHeld pid f st :
  gentle (not_for_open pid) f -> orphaned pid st ->
  orphaned pid (updateHeld f st).
Proof.
  intros Hf [H1 H2]. split.
  - unfold updateHeld. now destruct (serialPort st).
  - now apply every_listener_updateHeld.
Qed.

Lemma orphaned_onClosed pid st : orphaned pid st -> orphaned pid (onClosed st).
Proof.
  intros [H1 H2]. split.
  - unfold onClosed. now destruct (serialPort st).
  - now apply every_listener_onClosed.
Qed.

Lemma opens_open port st : opens (open port st) = opens st ++ [Pending].
Proof. unfold open. cbv zeta. destruct (makeParser _); reflexivity. Qed.

Lemma orphaned_open pid port st :
  orphaned pid st -> orphaned pid (open port st).
Proof.
  intros [H1 H2].
  assert (Hlt : Nat.eqb (length (opens st)) pid = false).
  { apply Nat.eqb_neq. apply lookup_lt_Some in H1. lia. }
  split.
  - rewrite opens_open. now apply lookup_app_l_Some.
  - apply every_listener_open; exact Hlt.
Qed.

Lemma orphaned_settle pid pid' s st :
  pid' <> pid -> orphaned pid st ->
  orphaned pid (set_opens (settle s pid' (opens st)) st).
Proof.
  intros Hne [H1 H2]. split; [|exact H2]. cbn.
  rewrite settle_other by congruence. exact H1.
Qed.

Ltac orphaned_known :=
  idtac;
  lazymatch goal with
  | |- orphaned _ (updatePort _ _) =>
      apply orphaned_updatePort; [solve [gentle_tac] | ]
  | |- orphaned _ (updateHeld _ _) =>
      apply orphaned_updateHeld; [solve [gentle_tac] | ]
  | |- orphaned _ (onClosed _) => apply orphaned_onClosed
  | |- orphaned _ (open _ _) => apply orphaned_open
  end.

Ltac orphaned_walk pid := intros; walk (orphaned_frame pid) orphaned_known.

Lemma orphaned_runListener pid l em st :
  settles_open pid l = false ->
  orphaned pid st -> orphaned pid (final (runListener l em st)).
Proof.
  intros Hl. destruct l, em; try solve [orphaned_walk pid];
    cbn in Hl; apply Nat.eqb_neq in Hl; intros H; cbn.
  - now apply orphaned_settle.
  - unfold open_onOpen. cbv zeta.
    assert (H' : orphaned pid
                   (updatePort (onPort (removeAllListeners ev_open)) st))
      by (revert H; orphaned_walk pid).
    revert H'. generalize (updatePort (onPort (removeAllListeners ev_open)) st).
    intros s Hs. destruct err; now apply orphaned_settle.
Qed.

Lemma orphaned_listeners pid ev st :
  orphaned pid st ->
  Forall (fun l => settles_open pid l = false)
    (portListeners ev (serialPort st)) /\
  Forall (fun l => settles_open pid l = false)
    (parserListeners ev (serialPort st)).
Proof.
  intros [_ H]. split.
  - apply (every_listener_port (not_for_open pid) ev _ H).
  - apply (every_listener_parser (not_for_open pid) ev _ H).
Qed.

Lemma orphaned_step pid st ev : orphaned pid st -> orphaned pid (step st ev).
Proof.
  intros H. unfold step.
  assert (Hf : orphaned pid (final (run_event ev st))).
  { destruct ev; try solve [revert H; orphaned_walk pid]; simpl.
    - unfold portEmits.
      assert (H' : orphaned pid (noteOpen em st))
        by (revert H; orphaned_walk pid).
      apply (emit_pres (orphaned pid)
               (fun l => settles_open pid l = false));
        [intros; now apply orphaned_runListener | | exact H'].
      apply (orphaned_listeners pid _ _ H').
    - unfold parserEmits.
      apply (emit_pres (orphaned pid)
               (fun l => settles_open pid l = false));
        [intros; now apply orphaned_runListener | | exact H].
      apply (orphaned_listeners pid _ _ H). }
  destruct (run_event ev st); [exact Hf|].
  revert Hf. now apply orphaned_frame.
Qed.

(** X16.  [close] called after [open] and before the port has
    emitted ['open'] removes the listeners that settle the promise of
    [open], and the port, not being open, is neither closed nor released.
    Whatever happens afterwards, that promise stays pending: it is never
    resolved and never rejected. *)
Theorem close_before_open_leaves_promise_pending (port : string) (st : State)
    (evs : list Event) :
  transport_held (close (open port st)) = true /\
  log (close (open port st)) = log (open port st) /\
  closing (close (open port st)) = closing (open port st) /\
  opens (close (open port st)) = opens st ++ [Pending] /\
  opens (run (close (open port st)) evs) !! length (opens st) = Some Pending.
Proof.
  pose proof (serialPort_open port st) as Hp.
  pose proof (opens_open port st) as Ho.
  revert Hp Ho. generalize (open port st). intros s Hp Ho.
  destruct (clear_facts s) as (_ & D & G & Cl & _ & _ & P).
  specialize (P _ Hp).
  assert (Hclosed : transport_open (clear s) = false).
  { unfold transport_open. rewrite P. cbn.
    now destruct (makeParser (options st)). }
  assert (E : close s = clear s)
    by (unfold close; now apply closePort_not_open).
  assert (Hopens : opens (clear s) = opens s) by (unfold clear; same).
  rewrite E.
  refine (conj _ (conj G (conj Cl (conj _ _)))).
  - unfold transport_held. now rewrite P.
  - congruence.
  - assert (H0 : orphaned (length (opens st)) (clear s)).
    { split.
      - rewrite Hopens, Ho. apply lookup_fresh.
      - intros p' Hp'. rewrite P in Hp'. injection Hp' as <-.
        split; cbn; [constructor|].
        destruct (makeParser (options st)); intros ps Hps; [|discriminate].
        injection Hps as <-. constructor. }
    apply (run_pres (orphaned (length (opens st)))
             (orphaned_step (length (opens st))) evs _ H0).
Qed.

(** ** Listeners are registered under their own event *)














(** ** Callbacks do not throw *)

Lemma no_timer_added cb (ts : list Timer) (t : Timer) :
  (forall h t', ts !! h = Some t' -> callback t' <> cb) ->
  callback t <> cb ->
  forall h t', (ts ++ [t]) !! h = Some t' -> callback t' <> cb.
Proof.
  intros H Ht h t' Hl.
  apply lookup_app_Some in Hl as [Hl | [_ Hl]]; [now apply (H h)|].
  apply list_lookup_singleton_Some in Hl as [_ <-]. exact Ht.
Qed.

Lemma no_timer_cleared cb (ts : list Timer) h0 :
  (forall h t', ts !! h = Some t' -> callback t' <> cb) ->
  forall h t', alter deactivate h0 ts !! h = Some t' -> callback t' <> cb.
Proof.
  intros H h t' Hl. rewrite list_lookup_alter in Hl. case_decide.
  - subst h0. destruct (ts !! h) as [t0|] eqn:E; [|discriminate].
    injection Hl as <-. exact (H h t0 E).
  - exact (H h t' Hl).
Qed.

(** *** Without a router *)

Lemma unrouted_frame (st st' : State) :
  staff st' = staff st -> unrouted st -> unrouted st'.
Proof.
  unfold staff, unrouted. intros H; injection H as H1 _ H3 H4.
  now rewrite H1, H3, H4.
Qed.

Lemma unrouted_routed st : router st <> None -> unrouted st.
Proof. intros H Hr. contradiction. Qed.

Lemma unrouted_updatePort f st :
  gentle no_router_call f -> unrouted st -> unrouted (updatePort f st).
Proof.
  intros Hf H Hr. destruct (H Hr) as [H1 H2]. split; [|exact H2].
  now apply every_listener_mapPort.
Qed.

Lemma unrouted_updateHeld f st :
  gentle no_router_call f -> unrouted st -> unrouted (updateHeld f st).
Proof.
  intros Hf H Hr.
  assert (E : router (updateHeld f st) = router st /\
              timers (updateHeld f st) = timers st)
    by (unfold updateHeld; now destruct (serialPort st)).
  destruct E as [E1 E2]. rewrite E1 in Hr. destruct (H Hr) as [H1 H2].
  split; [now apply every_listener_updateHeld | now rewrite E2].
Qed.

Lemma unrouted_onClosed st : unrouted st -> unrouted (onClosed st).
Proof.
  intros H Hr.
  assert (E : router (onClosed st) = router st /\
              timers (onClosed st) = timers st)
    by (unfold onClosed; now destruct (serialPort st)).
  destruct E as [E1 E2]. rewrite E1 in Hr. destruct (H Hr) as [H1 H2].
  split; [now apply every_listener_onClosed | now rewrite E2].
Qed.

Lemma unrouted_open port st : unrouted st -> unrouted (open port st).
Proof.
  intros H Hr.
  assert (E : router (open port st) = router st /\
              timers (open port st) = timers st)
    by (unfold open; cbv zeta; now destruct (makeParser _)).
  destruct E as [E1 E2]. rewrite E1 in Hr. destruct (H Hr) as [H1 H2].
  split; [apply every_listener_open; reflexivity | now rewrite E2].
Qed.

Lemma unrouted_added t st :
  callback t <> LostTick -> unrouted st ->
  unrouted (set_timers (timers st ++ [t]) st).
Proof.
  intros Ht H Hr. destruct (H Hr) as [H1 H2]. split; [exact H1|].
  cbn. now apply no_timer_added.
Qed.

Lemma unrouted_cleared h st : unrouted st -> unrouted (clearTimer h st).
Proof.
  intros H Hr. destruct (H Hr) as [H1 H2]. split; [exact H1|].
  cbn. now apply no_timer_cleared.
Qed.

Lemma unrouted_connect st : unrouted st -> unrouted (final (connect st)).
Proof.
  intros H. unfold connect.
  destruct (router st) as [r|] eqn:Hr; [|exact H].
  destruct (serialPort st) as [|p|p] eqn:Hp; try exact H.
  apply unrouted_routed.
  match goal with
  | |- router ?s <> None =>
      assert (E : router s = router st) by same; rewrite E, Hr; discriminate
  end.
Qed.

Ltac unrouted_known :=
  idtac;
  lazymatch goal with
  | |- unrouted (updatePort _ _) =>
      apply unrouted_updatePort; [solve [gentle_tac] | ]
  | |- unrouted (updateHeld _ _) =>
      apply unrouted_updateHeld; [solve [gentle_tac] | ]
  | |- unrouted (onClosed _) => apply unrouted_onClosed
  | |- unrouted (open _ _) => apply unrouted_open
  | |- unrouted (set_timers (timers ?s ++ [?t]) ?s) =>
      apply (unrouted_added t s); [solve [cbn; discriminate] | ]
  | |- unrouted (clearTimer _ _) => apply unrouted_cleared
  | |- unrouted (setRouter _ _) =>
      apply unrouted_routed; cbn; discriminate
  | |- unrouted (final (connect _)) => apply unrouted_connect
  end.

Ltac unrouted_walk := intros; walk unrouted_frame unrouted_known.

Lemma unrouted_runListener l em st :
  unrouted st -> unrouted (final (runListener l em st)).
Proof. destruct l, em; unrouted_walk. Qed.

Lemma unrouted_step st ev : unrouted st -> unrouted (step st ev).
Proof.
  intros H. unfold step.
  assert (Hf : unrouted (final (run_event ev st))).
  { destruct ev; try solve [revert H; unrouted_walk]; simpl.
    - unfold portEmits.
      apply (emit_pres unrouted (fun _ => True));
        [intros; now apply unrouted_runListener | now apply Forall_true |].
      revert H. unrouted_walk.
    - unfold parserEmits.
      apply (emit_pres unrouted (fun _ => True));
        [intros; now apply unrouted_runListener | now apply Forall_true
        | exact H]. }
  destruct (run_event ev st); [exact Hf|].
  revert Hf. now apply unrouted_frame.
Qed.

Lemma unrouted_reachable st : reachable st -> unrouted st.
Proof.
  intros (hw & cfg & evs & ->). apply (run_pres unrouted unrouted_step).
  intros _. split; [intros p Hp; discriminate | intros h t Hl; discriminate].
Qed.

(** *** Without the handshake hooks *)

Lemma unshaken_frame (st st' : State) :
  staff st' = staff st -> unshaken st -> unshaken st'.
Proof.
  unfold staff, unshaken. intros H; injection H as _ H2 H3 H4.
  now rewrite H2, H3, H4.
Qed.

Lemma unshaken_shaken st : has_handshake (hwModule st) = true -> unshaken st.
Proof. intros H Hh. congruence. Qed.

Lemma unshaken_updatePort f st :
  gentle no_handshake_call f -> unshaken st -> unshaken (updatePort f st).
Proof.
  intros Hf H Hh. destruct (H Hh) as [H1 H2]. split; [|exact H2].
  now apply every_listener_mapPort.
Qed.

Lemma unshaken_updateHeld f st :
  gentle no_handshake_call f -> unshaken st -> unshaken (updateHeld f st).
Proof.
  intros Hf H Hh.
  assert (E : hwModule (updateHeld f st) = hwModule st /\
              timers (updateHeld f st) = timers st)
    by (unfold updateHeld; now destruct (serialPort st)).
  destruct E as [E1 E2]. rewrite E1 in Hh. destruct (H Hh) as [H1 H2].
  split; [now apply every_listener_updateHeld | now rewrite E2].
Qed.

Lemma unshaken_onClosed st : unshaken st -> unshaken (onClosed st).
Proof.
  intros H Hh.
  assert (E : hwModule (onClosed st) = hwModule st /\
              timers (onClosed st) = timers st)
    by (unfold onClosed; now destruct (serialPort st)).
  destruct E as [E1 E2]. rewrite E1 in Hh. destruct (H Hh) as [H1 H2].
  split; [now apply every_listener_onClosed | now rewrite E2].
Qed.

Lemma unshaken_open port st : unshaken st -> unshaken (open port st).
Proof.
  intros H Hh.
  assert (E : hwModule (open port st) = hwModule st /\
              timers (open port st) = timers st)
    by (unfold open; cbv zeta; now destruct (makeParser _)).
  destruct E as [E1 E2]. rewrite E1 in Hh. destruct (H Hh) as [H1 H2].
  split; [apply every_listener_open; reflexivity | now rewrite E2].
Qed.

Lemma unshaken_added t st :
  callback t <> SlavePoll -> unshaken st ->
  unshaken (set_timers (timers st ++ [t]) st).
Proof.
  intros Ht H Hh. destruct (H Hh) as [H1 H2]. split; [exact H1|].
  cbn. now apply no_timer_added.
Qed.

Lemma unshaken_cleared h st : unshaken st -> unshaken (clearTimer h st).
Proof.
  intros H Hh. destruct (H Hh) as [H1 H2]. split; [exact H1|].
  cbn. now apply no_timer_cleared.
Qed.

Ltac unshaken_known :=
  idtac;
  lazymatch goal with
  | |- unshaken (updatePort _ _) =>
      apply unshaken_updatePort; [solve [gentle_tac] | ]
  | |- unshaken (updateHeld _ _) =>
      apply unshaken_updateHeld; [solve [gentle_tac] | ]
  | |- unshaken (onClosed _) => apply unshaken_onClosed
  | |- unshaken (open _ _) => apply unshaken_open
  | |- unshaken (set_timers (timers ?s ++ [?t]) ?s) =>
      apply (unshaken_added t s); [solve [cbn; discriminate] | ]
  | |- unshaken (clearTimer _ _) => apply unshaken_cleared
  | H : has_handshake (hwModule ?x) = true |- unshaken (runAsMaster _ ?x) =>
      apply unshaken_shaken; exact H
  | H : has_handshake (hwModule ?x) = true |- unshaken (runAsSlave _ _ ?x) =>
      apply unshaken_shaken; exact H
  end.

Ltac unshaken_walk := intros; walk unshaken_frame unshaken_known.

Lemma unshaken_runListener l em st :
  unshaken st -> unshaken (final (runListener l em st)).
Proof. destruct l, em; unshaken_walk. Qed.

Lemma unshaken_step st ev : unshaken st -> unshaken (step st ev).
Proof.
  intros H. unfold step.
  assert (Hf : unshaken (final (run_event ev st))).
  { destruct ev; try solve [revert H; unshaken_walk]; simpl.
    - unfold portEmits.
      apply (emit_pres unshaken (fun _ => True));
        [intros; now apply unshaken_runListener | now apply Forall_true |].
      revert H. unshaken_walk.
    - unfold parserEmits.
      apply (emit_pres unshaken (fun _ => True));
        [intros; now apply unshaken_runListener | now apply Forall_true
        | exact H]. }
  destruct (run_event ev st); [exact Hf|].
  revert Hf. now apply unshaken_frame.
Qed.

Lemma unshaken_reachable st : reachable st -> unshaken st.
Proof.
  intros (hw & cfg & evs & ->). apply (run_pres unshaken unshaken_step).
  intros _. split; [intros p Hp; discriminate | intros h t Hl; discriminate].
Qed.

(** *** The theorem *)

Lemma returns_andThen o k :
  returns o -> (forall s, o = Returned s -> returns (k s)) ->
  returns (andThen o k).
Proof. destruct o; cbn; [intros _ H; now apply H | contradiction]. Qed.

Lemma sendState_ok s st :
  router st <> None -> returns (_sendState s st).
Proof.
  intros Hr. unfold _sendState. cbv zeta. rewrite router_callHook.
  now destruct (router st).
Qed.

Lemma callRequestInitialData_ok st :
  has_handshake (hwModule st) = true -> returns (callRequestInitialData st).
Proof.
  unfold has_handshake, callRequestInitialData. intros H.
  apply andb_prop in H as [_ H].
  now destruct (requestInitialData (hwModule st)).
Qed.

(** A listener leaves the router and the module alone. *)
Lemma runListener_staff l em st :
  router (final (runListener l em st)) = router st /\
  hwModule (final (runListener l em st)) = hwModule st.
Proof. destruct l, em; cbn [runListener]; split; same. Qed.

(** A listener whose hooks and router are there runs to its end. *)
Lemma runListener_returns l em st :
  (needs_router l = true -> router st <> None) ->
  (needs_handshake l = true -> has_handshake (hwModule st) = true) ->
  returns (runListener l em st).
Proof.
  intros Hr Hh. destruct l, em; cbn [runListener]; try exact I.
  - specialize (Hh eq_refl). unfold runAsMaster_onData.
    pose proof Hh as Hh'. unfold has_handshake in Hh'.
    apply andb_prop in Hh' as [Hc _].
    destruct (checkInitialData (hwModule st)) as [check|]; [|discriminate].
    cbv zeta. destruct (is_undefined (check d)); [|exact I].
    now apply callRequestInitialData_ok.
  - specialize (Hh eq_refl). unfold runAsSlave_onData.
    unfold has_handshake in Hh. apply andb_prop in Hh as [Hc _].
    destruct (checkInitialData (hwModule st)) as [check|]; [|discriminate].
    cbv zeta. now destruct (negb (is_undefined (check d))).
  - specialize (Hr eq_refl). unfold connect_onData.
    destruct (accepted (hwModule st) d); [|exact I].
    apply returns_andThen; [|intros; exact I].
    unfold markConnected. destruct (negb (connected st)); [|exact I].
    now apply sendState_ok.
  - specialize (Hr eq_refl). unfold connect_onDisconnect.
    apply sendState_ok.
    assert (E : router (close st) = router st) by (unfold close; same).
    now rewrite E.
Qed.

Lemma emit_returns (r : option Router) (hw : HardwareModule) ls em :
  Forall (fun l => (needs_router l = true -> r <> None) /\
                   (needs_handshake l = true -> has_handshake hw = true)) ls ->
  forall st, router st = r -> hwModule st = hw -> returns (emit ls em st).
Proof.
  induction ls as [|l ls IH]; intros Hls st Hr Hhw; cbn [emit]; [exact I|].
  apply Forall_cons_1 in Hls as [[H1 H2] Hls].
  apply returns_andThen.
  - apply runListener_returns; [rewrite Hr | rewrite Hhw]; assumption.
  - intros s Hs. destruct (runListener_staff l em st) as [E1 E2].
    rewrite Hs in E1, E2. cbn in E1, E2. apply (IH Hls); congruence.
Qed.

(** The listeners of a well-formed state have what they need. *)
Lemma listeners_equipped st :
  unrouted st -> unshaken st ->
  forall l (ev : EventName),
    In l (portListeners ev (serialPort st)) \/
    In l (parserListeners ev (serialPort st)) ->
    (needs_router l = true -> router st <> None) /\
    (needs_handshake l = true -> has_handshake (hwModule st) = true).
Proof.
  intros Hur Hus l ev Hl. split; intros Hneed.
  - intros Hr. destruct (Hur Hr) as [H _].
    pose proof (every_listener_port no_router_call ev _ H) as H1.
    pose proof (every_listener_parser no_router_call ev _ H) as H2.
    rewrite List.Forall_forall in H1, H2.
    destruct Hl as [Hl | Hl];
      [specialize (H1 l Hl) | specialize (H2 l Hl)];
      unfold no_router_call in *; cbn in *; congruence.
  - destruct (has_handshake (hwModule st)) eqn:Hh; [reflexivity|].
    destruct (Hus Hh) as [H _].
    pose proof (every_listener_port no_handshake_call ev _ H) as H1.
    pose proof (every_listener_parser no_handshake_call ev _ H) as H2.
    rewrite List.Forall_forall in H1, H2.
    destruct Hl as [Hl | Hl];
      [specialize (H1 l Hl) | specialize (H2 l Hl)];
      unfold no_handshake_call in *; cbn in *; congruence.
Qed.

Lemma fire_returns h st :
  unrouted st -> unshaken st -> returns (fire h st).
Proof.
  intros Hur Hus. unfold fire.
  destruct (timers st !! h) as [t|] eqn:Ht; [|exact I].
  destruct (active t); [|exact I].
  set (s := when (negb (periodic t)) (clearTimer h) st).
  assert (E : router s = router st /\ hwModule s = hwModule st)
    by (unfold s, when; destruct (negb _); split; reflexivity).
  destruct E as [E1 E2]. clearbody s.
  destruct (callback t) eqn:Hcb; cbn [runTimer]; try exact I.
  - unfold slaveTimer_tick. apply callRequestInitialData_ok. rewrite E2.
    destruct (has_handshake (hwModule st)) eqn:Hh; [reflexivity|].
    destruct (Hus Hh) as [_ H]. now destruct (H h t Ht).
  - unfold connectionLostTimer_tick. destruct (connected s); [|exact I].
    apply returns_andThen; [|intros; exact I].
    unfold declareLost. destruct (negb (received s)); [|exact I].
    apply sendState_ok. cbn. rewrite E1. intros Hr.
    destruct (Hur Hr) as [_ H]. now destruct (H h t Ht).
Qed.

(** X18.  In every reachable state, the only exception the connector itself
    raises is the precondition error of [connect]: it is thrown when no
    router is set or no port is held, by [connect] and by nothing else, and
    it leaves the state as it was.  No listener and no timer callback
    throws: whenever [_sendState] runs a router is set, and whenever a
    handshake hook is called the module has it. *)
Theorem only_connect_throws (st : State) (ev : Event) (e : JsError)
    (s : State) :
  reachable st -> run_event ev st = Threw e s ->
  ev = CallConnect /\ s = st /\
  (router st = None \/ transport_held st = false) /\
  exists msg, e = PlainError msg.
Proof.
  intros Hreach.
  pose proof (unrouted_reachable st Hreach) as Hur.
  pose proof (unshaken_reachable st Hreach) as Hus.
  assert (Hno : forall o, returns o -> o = Threw e s -> False)
    by (intros o Ho ->; exact Ho).
  destruct ev; cbn [run_event]; try discriminate.
  - unfold connect, transport_held.
    destruct (router st) as [r|] eqn:Hr.
    + destruct (serialPort st) as [|p|p] eqn:Hp.
      * intros H. injection H as <- <-. repeat split; eauto.
      * destruct (connect_held_returns st r p Hr Hp) as (st' & Hc).
        unfold connect in Hc. rewrite Hr, Hp in Hc. rewrite Hc.
        discriminate.
      * intros H. injection H as <- <-. repeat split; eauto.
    + intros H. injection H as <- <-. repeat split; eauto.
  - intros H. exfalso. revert H. apply Hno. unfold portEmits.
    assert (Hur' : unrouted (noteOpen em st)) by (revert Hur; unrouted_walk).
    assert (Hus' : unshaken (noteOpen em st)) by (revert Hus; unshaken_walk).
    apply (emit_returns (router (noteOpen em st))
             (hwModule (noteOpen em st))); try reflexivity.
    apply List.Forall_forall. intros l Hl.
    apply (listeners_equipped _ Hur' Hus' l (eventOf em)). now left.
  - intros H. exfalso. revert H. apply Hno. unfold parserEmits.
    apply (emit_returns (router st) (hwModule st)); try reflexivity.
    apply List.Forall_forall. intros l Hl.
    apply (listeners_equipped _ Hur Hus l ev_data). now right.
  - intros H. exfalso. revert H. apply Hno. now apply fire_returns.
Qed.

Lemma only_connect_throws_witness :
  CallConnect = CallConnect /\
  new bareModule plainConfig = new bareModule plainConfig /\
  (router (new bareModule plainConfig) = None \/
   transport_held (new bareModule plainConfig) = false) /\
  exists msg, PlainError "router must be set" = PlainError msg.
Proof.
  apply (only_connect_throws (new bareModule plainConfig) CallConnect
           (PlainError "router must be set") (new bareModule plainConfig)).
  - exists bareModule, plainConfig, []. reflexivity.
  - reflexivity.
Defined.

(** ** The firmware flag *)

Lemma executeFlash_runListener l em st :
  executeFlash (final (runListener l em st)) = executeFlash st.
Proof. destruct l, em; cbn [runListener]; same. Qed.

Lemma executeFlash_emit ls em st :
  executeFlash (final (emit ls em st)) = executeFlash st.
Proof.
  apply (emit_pres (fun s => executeFlash s = executeFlash st)
           (fun _ => True)); [| now apply Forall_true | reflexivity].
  intros l em' s _ Hs. now rewrite executeFlash_runListener.
Qed.

Lemma executeFlash_settled o :
  executeFlash (settled o) = executeFlash (final o).
Proof. now destruct o. Qed.

(** X19.  [executeFlash] is raised in one place only, the callback of the
    firmware deadline armed by [initialize], and only while the port is
    held; nothing lowers it again, [clear], [close] and a new [open] or
    [initialize] included. *)
Theorem executeFlash_only_by_deadline (st : State) (ev : Event) :
  (executeFlash st = true -> executeFlash (step st ev) = true) /\
  (executeFlash st = false -> executeFlash (step st ev) = true ->
   exists h t pid,
     ev = TimerFires h /\ timers st !! h = Some t /\ active t = true /\
     callback t = FlashDeadline pid /\ transport_held st = true).
Proof.
  unfold step. rewrite executeFlash_settled.
  assert (Hsame : forall ev', (forall h, ev' <> TimerFires h) ->
            executeFlash (final (run_event ev' st)) = executeFlash st).
  { intros ev' Hev. destruct ev'; cbn [run_event];
      try solve [same]; try (now destruct (Hev h)).
    - unfold portEmits. rewrite executeFlash_emit. now destruct em as [| |[]|].
    - unfold parserEmits. apply executeFlash_emit. }
  assert (Hfire : forall h,
            executeFlash (final (fire h st)) = executeFlash st \/
            exists t pid,
              timers st !! h = Some t /\ active t = true /\
              callback t = FlashDeadline pid /\ transport_held st = true /\
              executeFlash (final (fire h st)) = true).
  { intros h. unfold fire.
    destruct (timers st !! h) as [t|] eqn:Ht; [|now left].
    destruct (active t) eqn:Ha; [|now left].
    set (s := when (negb (periodic t)) (clearTimer h) st).
    assert (E : executeFlash s = executeFlash st /\
                serialPort s = serialPort st)
      by (unfold s, when; destruct (negb _); split; reflexivity).
    destruct E as [E1 E2]. clearbody s.
    destruct (callback t) eqn:Hcb; cbn [runTimer];
      try (left; rewrite <- E1; same).
    unfold transport_held. cbn [final].
    unfold flashFirmware_fire, requestFlash. rewrite <- E2.
    destruct (serialPort s) as [|q|q] eqn:Hq;
      try (left; now rewrite <- E1).
    right. exists t, pid. repeat split; assumption. }
  split.
  - intros Ht. destruct ev; try (rewrite Hsame; [exact Ht | discriminate]).
    cbn [run_event]. destruct (Hfire h) as [E | (t & pid & _ & _ & _ & _ & E)];
      congruence.
  - intros Hf Ht.
    destruct ev; try (rewrite Hsame in Ht; [congruence | discriminate]).
    cbn [run_event] in Ht.
    destruct (Hfire h) as [E | (t & pid & H1 & H2 & H3 & H4 & _)];
      [congruence|].
    exists h, t, pid. repeat split; assumption.
Qed.

Lemma executeFlash_only_by_deadline_witness :
  exists h t pid,
    TimerFires 0 = TimerFires h /\
    timers (initialize (opened handshakeModule firmwareConfig)) !! h = Some t /\
    active t = true /\ callback t = FlashDeadline pid /\
    transport_held (initialize (opened handshakeModule firmwareConfig)) = true.
Proof.
  apply (executeFlash_only_by_deadline
           (initialize (opened handshakeModule firmwareConfig))
           (TimerFires 0)); vm_compute; reflexivity.
Defined.

(** ** A promise of initialize() that nothing settles *)

































Lemma timers_detachAll st : timers (detachAll st) = timers st.
Proof. unfold detachAll, updateHeld. now destruct (serialPort st). Qed.






(** ** connect() called twice *)

Lemma ranged_frame (st st' : State) :
  handles st' = handles st -> ranged st -> ranged st'.
Proof.
  unfold handles, ranged, kept. intros H; injection H as H1 H2 H3 H4 H5 H6.
  now rewrite H1, H2, H3, H4, H5, H6.
Qed.

Lemma ranged_added t st : ranged st -> ranged (set_timers (timers st ++ [t]) st).
Proof.
  intros H h Hh. cbn. rewrite length_app. specialize (H h Hh). simpl. lia.
Qed.

Lemma ranged_cleared h0 st : ranged st -> ranged (clearTimer h0 st).
Proof.
  intros H h Hh. cbn. rewrite length_alter. exact (H h Hh).
Qed.

Lemma ranged_set_flashFirmware v st :
  (forall h, v = Some h -> h < length (timers st)) -> ranged st ->
  ranged (set_flashFirmware v st).
Proof.
  intros Hv H h [Hh | Hh]; [now apply Hv | apply H; right; exact Hh].
Qed.

Lemma ranged_set_slaveTimer v st :
  (forall h, v = Some h -> h < length (timers st)) -> ranged st ->
  ranged (set_slaveTimer v st).
Proof.
  intros Hv H h [Hh | [Hh | Hh]];
    [apply H; left; exact Hh | now apply Hv | apply H; right; right; exact Hh].
Qed.

Lemma ranged_set_connectionLostTimer v st :
  (forall h, v = Some h -> h < length (timers st)) -> ranged st ->
  ranged (set_connectionLostTimer v st).
Proof.
  intros Hv H h [Hh | [Hh | [Hh | Hh]]];
    [apply H; left; exact Hh | apply H; right; left; exact Hh | now apply Hv
    | apply H; right; right; right; exact Hh].
Qed.

Lemma ranged_set_requestLocalDataInterval v st :
  (forall h, v = Some h -> h < length (timers st)) -> ranged st ->
  ranged (set_requestLocalDataInterval v st).
Proof.
  intros Hv H h [Hh | [Hh | [Hh | [Hh | Hh]]]];
    [apply H; left; exact Hh | apply H; right; left; exact Hh
    | apply H; right; right; left; exact Hh | now apply Hv
    | apply H; right; right; right; right; exact Hh].
Qed.

Lemma ranged_set_advertiseInterval v st :
  (forall h, v = Some h -> h < length (timers st)) -> ranged st ->
  ranged (set_advertiseInterval v st).
Proof.
  intros Hv H h [Hh | [Hh | [Hh | [Hh | Hh]]]];
    [apply H; left; exact Hh | apply H; right; left; exact Hh
    | apply H; right; right; left; exact Hh
    | apply H; right; right; right; left; exact Hh | now apply Hv].
Qed.

Ltac ranged_side :=
  let h := fresh "h" in
  let E := fresh "E" in
  intros h E;
  first
    [ discriminate E
    | injection E as <-; cbn; rewrite ?length_app; simpl; lia ].

Ltac ranged_known :=
  idtac;
  lazymatch goal with
  | |- ranged (set_timers (timers ?s ++ [_]) ?s) => apply ranged_added
  | |- ranged (clearTimer _ _) => apply ranged_cleared
  | |- ranged (set_flashFirmware _ _) =>
      apply ranged_set_flashFirmware; [solve [ranged_side] | ]
  | |- ranged (set_slaveTimer _ _) =>
      apply ranged_set_slaveTimer; [solve [ranged_side] | ]
  | |- ranged (set_connectionLostTimer _ _) =>
      apply ranged_set_connectionLostTimer; [solve [ranged_side] | ]
  | |- ranged (set_requestLocalDataInterval _ _) =>
      apply ranged_set_requestLocalDataInterval; [solve [ranged_side] | ]
  | |- ranged (set_advertiseInterval _ _) =>
      apply ranged_set_advertiseInterval; [solve [ranged_side] | ]
  end.

Ltac ranged_walk := intros; walk ranged_frame ranged_known.

Lemma ranged_runListener l em st :
  ranged st -> ranged (final (runListener l em st)).
Proof. destruct l, em; ranged_walk. Qed.

Lemma ranged_step st ev : ranged st -> ranged (step st ev).
Proof.
  intros H. unfold step.
  assert (Hf : ranged (final (run_event ev st))).
  { destruct ev; try solve [revert H; ranged_walk]; simpl.
    - unfold portEmits.
      apply (emit_pres ranged (fun _ => True));
        [intros; now apply ranged_runListener | now apply Forall_true |].
      revert H. ranged_walk.
    - unfold parserEmits.
      apply (emit_pres ranged (fun _ => True));
        [intros; now apply ranged_runListener | now apply Forall_true
        | exact H]. }
  destruct (run_event ev st); [exact Hf|].
  revert Hf. now apply ranged_frame.
Qed.

Lemma ranged_reachable st : reachable st -> ranged st.
Proof.
  intros (hw & cfg & evs & ->). apply (run_pres ranged ranged_step).
  intros h [H | [H | [H | [H | H]]]]; discriminate.
Qed.

Lemma armLossDetection_facts s :
  lostController (hwModule s) = false ->
  timers (armLossDetection s) =
    timers s ++ [{| callback := LostTick; delay := lostTimer s;
                    periodic := true; active := true |}] /\
  connectionLostTimer (armLossDetection s) = Some (length (timers s)) /\
  flashFirmware (armLossDetection s) = flashFirmware s /\
  slaveTimer (armLossDetection s) = slaveTimer s /\
  requestLocalDataInterval (armLossDetection s) = requestLocalDataInterval s /\
  advertiseInterval (armLossDetection s) = advertiseInterval s /\
  options (armLossDetection s) = options s.
Proof. intros H. unfold armLossDetection. rewrite H. repeat split. Qed.

Lemma armLocalPoll_handles s :
  flashFirmware (armLocalPoll s) = flashFirmware s /\
  slaveTimer (armLocalPoll s) = slaveTimer s /\
  connectionLostTimer (armLocalPoll s) = connectionLostTimer s /\
  advertiseInterval (armLocalPoll s) = advertiseInterval s /\
  options (armLocalPoll s) = options s /\
  exists L,
    timers (armLocalPoll s) = timers s ++ L /\
    (requestLocalDataInterval (armLocalPoll s) = requestLocalDataInterval s \/
     exists h, requestLocalDataInterval (armLocalPoll s) = Some h /\
               length (timers s) <= h).
Proof.
  unfold armLocalPoll. cbv zeta. destruct (negb _ && negb _); cbn.
  - repeat split. eexists. split; [reflexivity|]. right. eauto.
  - repeat split. exists []. split; [now rewrite app_nil_r | now left].
Qed.

Lemma armAdvertise_handles s :
  flashFirmware (armAdvertise s) = flashFirmware s /\
  slaveTimer (armAdvertise s) = slaveTimer s /\
  connectionLostTimer (armAdvertise s) = connectionLostTimer s /\
  requestLocalDataInterval (armAdvertise s) = requestLocalDataInterval s /\
  exists L,
    timers (armAdvertise s) = timers s ++ L /\
    (advertiseInterval (armAdvertise s) = advertiseInterval s \/
     exists h, advertiseInterval (armAdvertise s) = Some h /\
               length (timers s) <= h).
Proof.
  unfold armAdvertise.
  assert (Hidle : flashFirmware s = flashFirmware s /\
                  slaveTimer s = slaveTimer s /\
                  connectionLostTimer s = connectionLostTimer s /\
                  requestLocalDataInterval s = requestLocalDataInterval s /\
                  exists L,
                    timers s = timers s ++ L /\
                    (advertiseInterval s = advertiseInterval s \/
                     exists h, advertiseInterval s = Some h /\
                               length (timers s) <= h)).
  { repeat split. exists []. split; [now rewrite app_nil_r | now left]. }
  destruct (advertise (options s)) as [ms|]; [|exact Hidle].
  destruct (Z.eqb ms 0); [exact Hidle|]. cbn.
  repeat split. eexists. split; [reflexivity|]. right. eauto.
Qed.

(** What [connect] leaves in the timer table and in the handles when the
    module has no [lostController]: the loss timer is new, and so is every
    handle that has changed. *)
Lemma connect_wire_handles (s : State) :
  lostController (hwModule s) = false ->
  exists n L,
    length (timers s) <= n /\
    timers (connect_wire s) = timers s ++ L /\
    timers (connect_wire s) !! n =
      Some {| callback := LostTick; delay := lostTimer s; periodic := true;
              active := true |} /\
    connectionLostTimer (connect_wire s) = Some n /\
    flashFirmware (connect_wire s) = flashFirmware s /\
    slaveTimer (connect_wire s) = slaveTimer s /\
    (requestLocalDataInterval (connect_wire s) = requestLocalDataInterval s \/
     exists h, requestLocalDataInterval (connect_wire s) = Some h /\ n < h) /\
    (advertiseInterval (connect_wire s) = advertiseInterval s \/
     exists h, advertiseInterval (connect_wire s) = Some h /\ n < h).
Proof.
  intros Hlc. unfold connect_wire. cbv zeta.
  set (s1 := when (softwareReset (options s)) resetBySoftware s).
  assert (H1 : (exists D, timers s1 = timers s ++ D) /\
               hwModule s1 = hwModule s /\ lostTimer s1 = lostTimer s /\
               flashFirmware s1 = flashFirmware s /\
               slaveTimer s1 = slaveTimer s /\
               requestLocalDataInterval s1 = requestLocalDataInterval s /\
               advertiseInterval s1 = advertiseInterval s).
  { unfold s1, when. destruct (softwareReset _); cbn; repeat split.
    - eexists. reflexivity.
    - exists []. now rewrite app_nil_r. }
  destruct H1 as ((D & T1) & M1 & L1 & F1 & S1 & R1 & A1). clearbody s1.
  match goal with
  | |- context [armLossDetection ?x] => set (s5 := x)
  end.
  assert (T5 : timers s5 = timers s1) by (unfold s5; same).
  assert (M5 : hwModule s5 = hwModule s1) by (unfold s5; same).
  assert (L5 : lostTimer s5 = lostTimer s1) by (unfold s5; same).
  assert (F5 : flashFirmware s5 = flashFirmware s1) by (unfold s5; same).
  assert (S5 : slaveTimer s5 = slaveTimer s1) by (unfold s5; same).
  assert (R5 : requestLocalDataInterval s5 = requestLocalDataInterval s1)
    by (unfold s5; same).
  assert (A5 : advertiseInterval s5 = advertiseInterval s1)
    by (unfold s5; same).
  clearbody s5.
  destruct (armLossDetection_facts s5) as (T6 & C6 & F6 & S6 & R6 & A6 & _);
    [congruence|].
  set (s6 := armLossDetection s5) in *. clearbody s6.
  destruct (armLocalPoll_handles s6) as (F7 & S7 & C7 & A7 & _ & P & T7 & R7).
  set (s7 := armLocalPoll s6) in *. clearbody s7.
  destruct (armAdvertise_handles s7) as (F8 & S8 & C8 & R8 & Q & T8 & A8).
  set (s8 := armAdvertise s7) in *. clearbody s8.
  exists (length (timers s5)), (D ++ [{| callback := LostTick;
                                       delay := lostTimer s;
                                       periodic := true; active := true |}]
                                  ++ P ++ Q).
  assert (Hn : length (timers s5) = length (timers s) + length D)
    by (rewrite T5, T1; apply length_app).
  assert (Hlen6 : length (timers s6) = S (length (timers s5)))
    by (rewrite T6, length_app; simpl; lia).
  assert (Hlen7 : length (timers s6) <= length (timers s7))
    by (rewrite T7, length_app; lia).
  refine (conj _ (conj _ (conj _ (conj _ (conj _ (conj _ (conj _ _))))))).
  - lia.
  - rewrite T8, T7, T6, T5, T1, L5, L1. now rewrite <- !app_assoc.
  - rewrite T8, T7. apply lookup_app_l_Some, lookup_app_l_Some.
    rewrite T6, L5, L1. rewrite lookup_app_r by lia. now rewrite Nat.sub_diag.
  - congruence.
  - congruence.
  - congruence.
  - destruct R7 as [R7 | (h & R7 & Hh)].
    + left. congruence.
    + right. exists h. split; [congruence | lia].
  - destruct A8 as [A8 | (h & A8 & Hh)].
    + left. congruence.
    + right. exists h. split; [exact A8 | lia].
Qed.

Lemma cancel_spares (get : State -> option nat)
    (set : option nat -> State -> State) h st :
  (forall v s, timers (set v s) = timers s) ->
  get st <> Some h ->
  timers (cancel get set st) !! h = timers st !! h.
Proof.
  intros Hset Hne. unfold cancel. destruct (get st) as [h0|]; [|reflexivity].
  rewrite Hset. cbn. apply list_lookup_alter_ne. congruence.
Qed.

(** [clear] leaves alone a timer whose handle it does not keep. *)
Lemma clear_spares h st :
  connectionLostTimer st <> Some h ->
  requestLocalDataInterval st <> Some h ->
  advertiseInterval st <> Some h -> flashFirmware st <> Some h ->
  timers (clear st) !! h = timers st !! h.
Proof.
  intros H1 H2 H3 H4. unfold clear. cbv zeta.
  set (s0 := set_connected false st).
  set (s1 := cancel connectionLostTimer set_connectionLostTimer s0).
  set (s2 := cancel requestLocalDataInterval set_requestLocalDataInterval s1).
  set (s3 := cancel advertiseInterval set_advertiseInterval s2).
  assert (E1 : timers s1 !! h = timers st !! h)
    by (unfold s1; rewrite cancel_spares; [reflexivity | reflexivity | exact H1]).
  assert (E2 : timers s2 !! h = timers s1 !! h).
  { unfold s2. apply cancel_spares; [reflexivity|].
    assert (E : requestLocalDataInterval s1 = requestLocalDataInterval st)
      by (unfold s1, s0; same).
    now rewrite E. }
  assert (E3 : timers s3 !! h = timers s2 !! h).
  { unfold s3. apply cancel_spares; [reflexivity|].
    assert (E : advertiseInterval s2 = advertiseInterval st)
      by (unfold s2, s1, s0; same).
    now rewrite E. }
  rewrite cancel_spares; [| reflexivity |].
  - rewrite timers_detachAll. congruence.
  - assert (E : flashFirmware (detachAll s3) = flashFirmware st)
      by (unfold s3, s2, s1, s0; same).
    now rewrite E.
Qed.

Lemma timers_close st : timers (close st) = timers (clear st).
Proof.
  unfold close, closePort.
  destruct (serialPort (clear st)) as [|p|p] eqn:Hp; try reflexivity.
  destruct (isOpen p); [|reflexivity].
  unfold updateHeld. cbn. now rewrite Hp.
Qed.

Lemma dataOf_attach_steady p :
  dataOf (onPort (on ev_disconnect Disconnected)
            (onReadStream (on ev_data SteadyData) p)) =
  dataOf p ++ [SteadyData].
Proof.
  rewrite dataOf_steady. unfold dataOf, parserData.
  destruct (parser p); [now rewrite app_assoc | now rewrite !app_nil_r].
Qed.

(** X21.  [connect] is not idempotent.  Called a second time on the same
    port (the module having no [lostController]), it registers a second
    steady-state listener, so every frame is handled twice, and it arms a
    second loss timer whose handle replaces the first.  The first loss
    timer is then out of reach: it is still armed after [clear] and after
    [close]. *)
Theorem second_connect_leaks_loss_timer (st : State) (r : Router)
    (p : SerialPort) :
  reachable st ->
  router st = Some r -> serialPort st = Held p ->
  lostController (hwModule st) = false ->
  exists st1 st2 p2 h,
    connect st = Returned st1 /\ connect st1 = Returned st2 /\
    serialPort st2 = Held p2 /\
    dataOf p2 = dataOf p ++ [SteadyData; SteadyData] /\
    connectionLostTimer st1 = Some h /\
    connectionLostTimer st2 <> Some h /\
    timers st2 !! h =
      Some {| callback := LostTick; delay := lostTimer st; periodic := true;
              active := true |} /\
    timers (clear st2) !! h = timers st2 !! h /\
    timers (close st2) !! h = timers st2 !! h.
Proof.
  intros Hreach Hr Hp Hlc.
  pose proof (ranged_reachable st Hreach) as Hrg.
  (* the first call *)
  destruct (connect_announces st r p Hr Hp)
    as (s & Hc1 & T & _ & M & L & R & A & _ & _ & _ & _ & Rt & F & S).
  destruct (connect_wire_handles s) as
    (n & L1 & Hn & Tw & Hl & C & F1 & S1 & R1 & A1); [congruence|].
  destruct (serialPort_connect st r p Hr Hp) as (x & Hx & Hp1).
  rewrite Hc1 in Hx. injection Hx as <-.
  set (st1 := connect_wire s) in *.
  assert (Hr1 : router st1 = Some r)
    by (rewrite <- Hr, <- Rt; unfold st1, connect_wire; same).
  assert (Hm1 : hwModule st1 = hwModule s)
    by (unfold st1, connect_wire; same).
  assert (Hn1 : n < length (timers st1)) by (now apply lookup_lt_Some in Hl).
  clearbody st1.
  (* the second call *)
  destruct (connect_announces st1 r _ Hr1 Hp1)
    as (s' & Hc2 & T' & _ & M' & _ & R' & A' & _ & _ & _ & _ & _ & F' & S').
  destruct (connect_wire_handles s') as
    (n2 & L2 & Hn2 & Tw2 & _ & C2 & F2 & S2 & R2 & A2); [congruence|].
  destruct (serialPort_connect st1 r _ Hr1 Hp1) as (x & Hx & Hp2).
  rewrite Hc2 in Hx. injection Hx as <-.
  set (st2 := connect_wire s') in *. clearbody st2.
  rewrite T' in Hn2, Tw2. rewrite T in Hn.
  assert (Hold : forall v, v = Some n ->
            flashFirmware st <> v /\ requestLocalDataInterval st <> v /\
            advertiseInterval st <> v).
  { intros v -> . repeat split; intros E;
      assert (Hk : kept n st) by (unfold kept; tauto);
      specialize (Hrg n Hk); lia. }
  destruct (Hold _ eq_refl) as (O1 & O2 & O3).
  assert (Hspare : timers (clear st2) !! n = timers st2 !! n).
  { apply clear_spares.
    - rewrite C2. intros E. injection E as E. lia.
    - destruct R2 as [E | (h & E & Hh)]; rewrite E.
      + rewrite R'. destruct R1 as [E1 | (h1 & E1 & Hh1)]; rewrite E1.
        * now rewrite R.
        * intros E2. injection E2 as E2. lia.
      + intros E2. injection E2 as E2. lia.
    - destruct A2 as [E | (h & E & Hh)]; rewrite E.
      + rewrite A'. destruct A1 as [E1 | (h1 & E1 & Hh1)]; rewrite E1.
        * now rewrite A.
        * intros E2. injection E2 as E2. lia.
      + intros E2. injection E2 as E2. lia.
    - rewrite F2, F', F1, F. exact O1. }
  exists st1, st2. eexists. exists n.
  refine (conj Hc1 (conj Hc2 (conj Hp2 (conj _ (conj C (conj _
           (conj _ (conj Hspare _)))))))).
  - rewrite !dataOf_attach_steady. now rewrite <- app_assoc.
  - rewrite C2. intros E. injection E as E. lia.
  - rewrite Tw2. rewrite <- L. now apply lookup_app_l_Some.
  - now rewrite timers_close.
Qed.

Lemma second_connect_leaks_loss_timer_witness :
  exists st1 st2 h,
    connect (routed bareModule plainConfig) = Returned st1 /\
    connect st1 = Returned st2 /\
    connectionLostTimer st1 = Some h /\
    timers (close st2) !! h = timers st2 !! h.
Proof.
  destruct (second_connect_leaks_loss_timer (routed bareModule plainConfig)
              TheRouter
              {| isOpen := true; listeners := [(ev_error, OpenReject 0)];
                 parser := None |})
    as (st1 & st2 & p2 & h & H1 & H2 & _ & _ & H3 & _ & _ & _ & H4).
  - exists bareModule, plainConfig. eexists. reflexivity.
  - vm_compute. reflexivity.
  - vm_compute. reflexivity.
  - reflexivity.
  - exists st1, st2, h. repeat split; assumption.
Defined.
